(** * Curve operations of the signal library: key codec, validation and the
      Edwards-to-Montgomery converter

    The repository offers one set of operations (createKeyPair,
    calculateAgreement, calculateSignature, verifySignature) through several
    backends: JavaScript modules over curve25519-js, tweetnacl, noble and
    stablelib, and Go modules compiled to WebAssembly, one of which derives
    the X25519 coordinate of an Ed25519 public key with [math/big].

    The first half of this file embeds the code: Go slices and big integers,
    the big-integer backend (validation, codec, converter, the loop of
    createKeyPair), the Go module behind the synchronous wrapper, and the
    JavaScript modules with their shared validation.  The curve libraries are
    parameters of the backends; reference models of SHA-512, Ed25519 public
    keys and X25519 instantiate them where a statement is evaluated on a
    concrete seed.  The second half proves the properties, among them that
    2^255 - 19 is prime, which the converter's inverse rests on. *)

From Stdlib Require Import String.
From Stdlib Require Import ZArith List Lia Bool DecimalString.
From Stdlib Require Import Znumtheory Zpow_facts Zdivisibility Zcong.
From Stdlib Require Import Zmod.ZmodInv.
From Stdlib Require Import Strings.Byte.
Import ListNotations.
Open Scope string_scope.
Open Scope list_scope.
Open Scope Z_scope.

(** Outcome of a Go function returning [(T, error)]: a value, an error with
    its message, or a run-time panic. *)
Inductive result (A : Type) : Type :=
| Ok (a : A)
| Err (msg : string)
| Panic.
Arguments Ok {A} a.
Arguments Err {A} msg.
Arguments Panic {A}.

(** Go slices of bytes. *)
Module Slice.

Definition make (n : nat) : list byte := repeat x00 n.

(** [copy(dst, src)]: overwrites the first [min (len dst) (len src)]
    elements of [dst]. *)
Definition copy (dst src : list byte) : list byte :=
  firstn (length dst) src ++ skipn (length src) dst.

Fixpoint upd (i : nat) (v : byte) (l : list byte) : list byte :=
  match l, i with
  | [], _ => []
  | _ :: t, O => v :: t
  | h :: t, S i' => h :: upd i' v t
  end.

(** [l[i], l[j] = l[j], l[i]] *)
Definition swap (l : list byte) (i j : nat) : list byte :=
  let a := nth j l x00 in
  let b := nth i l x00 in
  upd j b (upd i a l).

(** [for i := 0; i < 16; i++ { b[i], b[31-i] = b[31-i], b[i] }] *)
Fixpoint swap_loop (todo i : nat) (l : list byte) : list byte :=
  match todo with
  | O => l
  | S todo' => swap_loop todo' (S i) (swap l i (31 - i))
  end.

Definition reverse32 (l : list byte) : list byte := swap_loop 16 0 l.

End Slice.

(** The operations of Go's [math/big.Int] that the converter calls. *)
Module big.

Definition byte_val (b : byte) : Z := Z.of_N (Byte.to_N b).

Definition byte_of (z : Z) : byte :=
  match Byte.of_N (Z.to_N z) with Some b => b | None => x00 end.

(** [SetBytes]: big-endian unsigned integer. *)
Definition SetBytes (buf : list byte) : Z :=
  fold_left (fun acc b => acc * 256 + byte_val b) buf 0.

Fixpoint be_digits (fuel : nat) (z : Z) (acc : list byte) : list byte :=
  match fuel with
  | O => acc
  | S fuel' =>
      if z =? 0 then acc
      else be_digits fuel' (z / 256) (byte_of (z mod 256) :: acc)
  end.

(** [Bytes]: the minimal big-endian encoding of the absolute value. *)
Definition Bytes (z : Z) : list byte :=
  be_digits (Z.to_nat (Z.log2 (Z.abs z) / 8 + 1)) (Z.abs z) [].

(** Euclid's algorithm on the remainders [r0 > r1], carrying for each
    remainder a coefficient [x] with [r = x * g (mod n)]. *)
Fixpoint euclid (fuel : nat) (r0 r1 x0 x1 : Z) : Z * Z :=
  match fuel with
  | O => (r0, x0)
  | S fuel' =>
      if r1 =? 0 then (r0, x0)
      else euclid fuel' r1 (r0 mod r1) x1 (x0 - r0 / r1 * x1)
  end.

(** [ModInverse g n], for a modulus [n > 0]: the inverse of [g] in Z/nZ in
    the range [0, n), or nil when [g] and [n] are not relatively prime
    (the greatest common divisor found is not 1). *)
Definition ModInverse (g n : Z) : option Z :=
  let (d, x) := euclid (Z.to_nat (2 * Z.log2 n + 2)) n (g mod n) 0 1 in
  if d =? 1 then Some (x mod n) else None.

End big.

Module GoBigInt.
Import Slice.

Definition p : Z :=
  big.SetBytes
    [x7f; xff; xff; xff; xff; xff; xff; xff;
     xff; xff; xff; xff; xff; xff; xff; xff;
     xff; xff; xff; xff; xff; xff; xff; xff;
     xff; xff; xff; xff; xff; xff; xff; xed].

Definition ed25519ToX25519PublicKey (edPubKey : list byte)
  : result (list byte) :=
  if negb (length edPubKey =? 32)%nat then
    Err "invalid ed25519 public key length"
  else
    let yBytes := reverse32 (copy (make 32) edPubKey) in
    let y := big.SetBytes yBytes in
    if y >=? p then Err "invalid ed25519 public key"
    else
      let one := 1 in
      let yPlus1 := y + one in
      let yMinus1 := (p - y) + one in
      if yMinus1 =? 0 then Err "invalid ed25519 public key"
      else
        match big.ModInverse yMinus1 p with
        | None => Err "invalid ed25519 public key"
        | Some yMinus1Inv =>
            let u := (yPlus1 * yMinus1Inv) mod p in
            let uBytes := big.Bytes u in
            let result := make 32 in
            if (32 <? length uBytes)%nat then Panic
            else
              let off := (32 - length uBytes)%nat in
              let result :=
                firstn off result ++ copy (skipn off result) uBytes in
              Ok (reverse32 result)
        end.

Definition SeedSize : nat := 32.

Definition validatePrivKey (privKey : list byte) : result unit :=
  if negb (length privKey =? 32)%nat then Err "incorrect private key length"
  else Ok tt.

Definition scrubPubKeyFormat (pubKey : list byte) : result (list byte) :=
  if (length pubKey =? 33)%nat && Byte.eqb (nth 0 pubKey x00) x05 then
    Ok (skipn 1 pubKey)
  else if (length pubKey =? 32)%nat then Ok pubKey
  else Err "invalid public key".

(** The [map[string]interface{}] a key pair is returned in. *)
Record KeyPair : Type := { pubKey : list byte; privKey : list byte }.

(** One call of [rand.Read(seed)]: the bytes it wrote, or its error. *)
Inductive read : Type :=
| ReadOk (bytes : list byte)
| ReadErr (msg : string).

Section Library.

(** [golang.org/x/crypto/ed25519]: the 64-byte private key of a seed, its
    public half, signing and verification. *)
Variable NewKeyFromSeed : list byte -> list byte.
Variable Sign : list byte -> list byte -> list byte.
Variable Verify : list byte -> list byte -> list byte -> bool.

Definition Public (privateKey : list byte) : list byte :=
  copy (make 32) (skipn 32 privateKey).

(** The [for] loop of [createKeyPair].  [rand] lists the outcomes of the
    calls of [rand.Read] the loop makes; [None] says that the loop asked for
    more of them than the list holds. *)
Fixpoint createKeyPair_loop (rand : list read) (seed privKey : list byte)
  : option (result KeyPair) :=
  let pubKey := Public (NewKeyFromSeed seed) in
  match ed25519ToX25519PublicKey pubKey with
  | Ok _ =>
      let formattedPubKey := x05 :: copy (make 32) pubKey in
      Some (Ok {| pubKey := formattedPubKey; privKey := privKey |})
  | Panic => Some Panic
  | Err _ =>
      match rand with
      | [] => None
      | ReadErr msg :: _ => Some (Err msg)
      | ReadOk bytes :: rand' =>
          let seed' := copy seed bytes in
          createKeyPair_loop rand' seed' (copy privKey seed')
      end
  end.

Definition createKeyPair (rand : list read) (privKey : list byte)
  : option (result KeyPair) :=
  match validatePrivKey privKey with
  | Err msg => Some (Err msg)
  | Panic => Some Panic
  | Ok _ =>
      let seed := copy (make SeedSize) privKey in
      createKeyPair_loop rand seed privKey
  end.

Definition calculateSignature (privKey message : list byte)
  : result (list byte) :=
  match validatePrivKey privKey with
  | Err msg => Err msg
  | Panic => Panic
  | Ok _ =>
      if (length message =? 0)%nat then Err "invalid message"
      else
        let seed := copy (make SeedSize) privKey in
        let privateKey := NewKeyFromSeed seed in
        Ok (Sign privateKey message)
  end.

Definition verifySignature (pubKey message signature : list byte)
  (isInit : bool) : result bool :=
  match scrubPubKeyFormat pubKey with
  | Err msg => Err msg
  | Panic => Panic
  | Ok scrubbedPubKey =>
      if (length message =? 0)%nat then Err "invalid message"
      else if negb (length signature =? 64)%nat then Err "invalid signature"
      else if isInit then Ok true
      else Ok (Verify scrubbedPubKey message signature)
  end.

End Library.

End GoBigInt.

(** * The Go module behind the synchronous WebAssembly wrapper (lib/main.go) *)
Module GoWasm.
Import Slice.

(** What an exported function hands back to JavaScript. *)
Inductive response : Type :=
| ErrorObject (msg : string)
| KeysObject (pubKey privKey : list byte)
| BytesObject (bytes : list byte)
| BoolValue (b : bool).

Definition copyBytesFromJS (value : list byte) : result (list byte) :=
  let length := length value in
  let bytes := copy (make length) value in
  let copied := Nat.min length (List.length value) in
  if negb (copied =? length)%nat then Err "failed to copy bytes from JS"
  else Ok bytes.

Section Library.

Variable NewKeyFromSeed : list byte -> list byte.
Variable Verify : list byte -> list byte -> list byte -> bool.

Definition createKeyPair (arg0 : list byte) : response :=
  match copyBytesFromJS arg0 with
  | Ok seed =>
      if negb (length seed =? 32)%nat then
        ErrorObject "Invalid private key seed"
      else
        let privateKey := NewKeyFromSeed seed in
        let publicKey := GoBigInt.Public privateKey in
        let pubKeyBytes := x05 :: copy (make 32) publicKey in
        KeysObject pubKeyBytes privateKey
  | _ => ErrorObject "Invalid private key seed"
  end.

Definition verifySignature (arg0 arg1 arg2 : list byte) (arg3 : bool)
  : response :=
  if arg3 then BoolValue true
  else
    match copyBytesFromJS arg0 with
    | Ok pubKey =>
        match copyBytesFromJS arg1 with
        | Ok msg =>
            match copyBytesFromJS arg2 with
            | Ok sig =>
                if negb (length sig =? 64)%nat then
                  ErrorObject "Invalid signature"
                else if (length pubKey =? 33)%nat
                        && Byte.eqb (nth 0 pubKey x00) x05 then
                  BoolValue (Verify (copy (make 32) (skipn 1 pubKey)) msg sig)
                else if (length pubKey =? 32)%nat then
                  BoolValue (Verify (copy (make 32) pubKey) msg sig)
                else ErrorObject "Invalid public key format"
            | _ => ErrorObject "Invalid signature"
            end
        | _ => ErrorObject "Invalid message"
        end
    | _ => ErrorObject "Invalid public key"
    end.

End Library.

End GoWasm.



(** * The JavaScript backends (src/curve.js and its siblings) *)
Module JS.

(** The JavaScript values the operations can be handed.  A Node [Buffer] is
    a [Uint8Array] for which [instanceof Buffer] holds; all other values
    only matter through their truthiness and constructor name. *)
Inductive value : Type :=
| Undefined
| Null
| Bool (b : bool)
| Num (n : Z)
| Str (s : string)
| Buffer (bytes : list byte)
| Uint8Array (bytes : list byte).

(** A call either returns or throws [new Error(msg)]. *)
Inductive outcome (A : Type) : Type :=
| Return (a : A)
| Throw (msg : string).
Arguments Return {A} a.
Arguments Throw {A} msg.

Definition bind {A B : Type} (c : outcome A) (k : A -> outcome B) : outcome B :=
  match c with
  | Return a => k a
  | Throw msg => Throw msg
  end.

Notation "x <- c ;; k" := (bind c (fun x => k))
  (at level 61, c at next level, right associativity).
Notation "c ;; k" := (bind c (fun _ => k))
  (at level 61, right associativity).

Definition truthy (v : value) : bool :=
  match v with
  | Undefined | Null => false
  | Bool b => b
  | Num n => negb (n =? 0)
  | Str s => negb (String.eqb s "")
  | Buffer _ | Uint8Array _ => true
  end.

Definition is_undefined (v : value) : bool :=
  match v with Undefined => true | _ => false end.

Definition instanceof_Buffer (v : value) : bool :=
  match v with Buffer _ => true | _ => false end.

(** [v.byteLength]; [None] stands for [undefined]. *)
Definition byteLength (v : value) : option nat :=
  match v with
  | Buffer bs | Uint8Array bs => Some (length bs)
  | _ => None
  end.

(** [v.byteLength == n] *)
Definition byteLength_is (v : value) (n : nat) : bool :=
  match byteLength v with Some k => (k =? n)%nat | None => false end.

(** [v[0] == b] *)
Definition first_byte_is (v : value) (b : byte) : bool :=
  match v with
  | Buffer (x :: _) | Uint8Array (x :: _) => Byte.eqb x b
  | _ => false
  end.

(** [v?.constructor?.name], as interpolated into the error messages. *)
Definition constructor_name (v : value) : string :=
  match v with
  | Undefined | Null => "undefined"
  | Bool _ => "Boolean"
  | Num _ => "Number"
  | Str _ => "String"
  | Buffer _ => "Buffer"
  | Uint8Array _ => "Uint8Array"
  end.

Definition show_byteLength (v : value) : string :=
  match byteLength v with
  | Some k => NilEmpty.string_of_uint (Nat.to_uint k)
  | None => "undefined"
  end.

Definition bytes_of (v : value) : list byte :=
  match v with
  | Buffer bs | Uint8Array bs => bs
  | _ => []
  end.

(** [buf.subarray(n)] *)
Definition subarray (n : nat) (v : value) : value :=
  match v with
  | Buffer bs => Buffer (skipn n bs)
  | Uint8Array bs => Uint8Array (skipn n bs)
  | _ => v
  end.

(** [dst.set(src, offset)] on typed arrays. *)
Definition typed_set (dst src : list byte) (offset : nat)
  : outcome (list byte) :=
  if (length dst <? offset + length src)%nat then
    Throw "offset is out of bounds"
  else
    Return (firstn offset dst ++ src ++ skipn (offset + length src) dst).

Definition validatePrivKey (privKey : value) : outcome unit :=
  match privKey with
  | Undefined => Throw "Undefined private key"
  | _ =>
      if negb (instanceof_Buffer privKey) then
        Throw (String.append "Invalid private key type: "
                 (constructor_name privKey))
      else if negb (byteLength_is privKey 32) then
        Throw (String.append "Incorrect private key length: "
                 (show_byteLength privKey))
      else Return tt
  end.

(** The 32-byte legacy form is accepted after a warning on the console; the
    console is not part of the model. *)
Definition scrubPubKeyFormat (pubKey : value) : outcome value :=
  if negb (instanceof_Buffer pubKey) then
    Throw (String.append "Invalid public key type: " (constructor_name pubKey))
  else if is_undefined pubKey
          || (negb (byteLength_is pubKey 33)
              || negb (first_byte_is pubKey x05))
             && negb (byteLength_is pubKey 32) then
    Throw "Invalid public key"
  else if byteLength_is pubKey 33 then Return (subarray 1 pubKey)
  else Return pubKey.

(** [pub = new Uint8Array(33); pub.set(key, 1); pub[0] = 5] *)
Definition tag_public_key (key : list byte) : outcome (list byte) :=
  pub <- typed_set (repeat x00 33) key 1 ;;
  Return (Slice.upd 0 x05 pub).

Record KeyPair : Type := { pubKey : value; privKey : value }.

(** [!scrubbed || scrubbed.byteLength != 32] *)
Definition bad_scrubbed (scrubbed : value) : bool :=
  negb (truthy scrubbed) || negb (byteLength_is scrubbed 32).

(** [!sig || sig.byteLength != 64] *)
Definition bad_signature (sig : value) : bool :=
  negb (truthy sig) || negb (byteLength_is sig 64).

End JS.

(** ** curve25519-js backend (src/curve.js, first module) *)
Module CurveJs.
Import JS.

Record keys : Type := { public : list byte; private : list byte }.

Section Library.

Variable generateKeyPair : list byte -> keys.
Variable sharedKey : list byte -> list byte -> outcome (list byte).
Variable sign : list byte -> value -> outcome (list byte).
Variable verify : list byte -> value -> value -> outcome bool.

Definition createKeyPair (privKey : value) : outcome KeyPair :=
  validatePrivKey privKey ;;
  let keys := generateKeyPair (bytes_of privKey) in
  pub <- tag_public_key (public keys) ;;
  Return {| pubKey := Buffer pub; privKey := Buffer (private keys) |}.

Definition calculateAgreement (pubKey privKey : value) : outcome value :=
  scrubbedPubKey <- scrubPubKeyFormat pubKey ;;
  validatePrivKey privKey ;;
  if bad_scrubbed scrubbedPubKey then Throw "Invalid public key"
  else
    shared <- sharedKey (bytes_of privKey) (bytes_of scrubbedPubKey) ;;
    Return (Buffer shared).

Definition calculateSignature (privKey message : value) : outcome value :=
  validatePrivKey privKey ;;
  if negb (truthy message) then Throw "Invalid message"
  else
    signature <- sign (bytes_of privKey) message ;;
    Return (Buffer signature).

Definition verifySignature (pubKey msg sig isInit : value) : outcome value :=
  scrubbedPubKey <- scrubPubKeyFormat pubKey ;;
  if bad_scrubbed scrubbedPubKey then Throw "Invalid public key"
  else if negb (truthy msg) then Throw "Invalid message"
  else if bad_signature sig then Throw "Invalid signature"
  else if truthy isInit then Return (Bool true)
  else
    ok <- verify (bytes_of scrubbedPubKey) msg sig ;;
    Return (Bool ok).

End Library.
End CurveJs.

(** ** tweetnacl backend (src/curve.js, second module) *)
Module Tweetnacl.
Import JS.

Section Library.

Variable scalarMult_base : list byte -> list byte.

Definition createKeyPair (privKey : value) : outcome KeyPair :=
  validatePrivKey privKey ;;
  let publicKey := scalarMult_base (bytes_of privKey) in
  pub <- tag_public_key publicKey ;;
  Return {| pubKey := Buffer pub; privKey := Buffer (bytes_of privKey) |}.

End Library.
End Tweetnacl.

(** ** noble backend (src/curve.js, third module) *)
Module Noble.
Import JS.

Section Library.

Variable getPublicKey : list byte -> list byte.

Definition createKeyPair (privKey : value) : outcome KeyPair :=
  validatePrivKey privKey ;;
  let origPub := getPublicKey (bytes_of privKey) in
  pub <- tag_public_key origPub ;;
  Return {| pubKey := Buffer pub; privKey := privKey |}.

End Library.
End Noble.

(** ** stablelib backend *)
Module Stablelib.
Import JS.

Record keys : Type := { publicKey : list byte; secretKey : list byte }.

Section Library.

Variable x25519GenerateKeyPair : list byte -> outcome keys.

Definition createKeyPair (privKey : value) : outcome KeyPair :=
  validatePrivKey privKey ;;
  keyPair <- x25519GenerateKeyPair (bytes_of privKey) ;;
  pub <- tag_public_key (publicKey keyPair) ;;
  Return {| pubKey := Buffer pub; privKey := Buffer (secretKey keyPair) |}.

End Library.
End Stablelib.

(** ** second noble backend: the short circuit of [verifySignature] comes
    before every check *)
Module NobleShortCircuit.
Import JS.

Section Library.

Variable ed_verify : value -> value -> list byte -> outcome bool.

Definition scrubPubKeyFormat (pubKey : value) : outcome value :=
  if negb (instanceof_Buffer pubKey) then
    Throw (String.append "Invalid public key type: " (constructor_name pubKey))
  else if byteLength_is pubKey 33 && first_byte_is pubKey x05 then
    Return (subarray 1 pubKey)
  else if byteLength_is pubKey 32 then Return pubKey
  else Throw "Invalid public key".

Definition verifySignature (pubKey msg sig isInit : value) : outcome value :=
  if truthy isInit then Return (Bool true)
  else
    scrubbedPubKey <- scrubPubKeyFormat pubKey ;;
    if bad_scrubbed scrubbedPubKey then Throw "Invalid public key"
    else if negb (truthy msg) then Throw "Invalid message"
    else if bad_signature sig then Throw "Invalid signature"
    else
      ok <- ed_verify sig msg (bytes_of scrubbedPubKey) ;;
      Return (Bool ok).

End Library.
End NobleShortCircuit.

(** ** synchronous WebAssembly wrapper over lib/main.go
    (src/curve.js, last module) *)
Module WasmSync.
Import JS.

Section Library.

Variable NewKeyFromSeed : list byte -> list byte.

Definition createKeyPair (privKey : value) : outcome KeyPair :=
  validatePrivKey privKey ;;
  match GoWasm.createKeyPair NewKeyFromSeed (bytes_of privKey) with
  | GoWasm.ErrorObject msg => Throw msg
  | GoWasm.KeysObject pub priv =>
      Return {| pubKey := Buffer pub; privKey := Buffer priv |}
  | _ => Throw "not a key pair"
  end.

End Library.
End WasmSync.

(** * The other operations of the big-integer backend

    [calculateAgreement] and [generateKeyPair] of the Go file that holds the
    converter.  [sha512.Sum512] and [curve25519.X25519] are parameters, as
    the Ed25519 library is. *)
Module GoBigIntOps.
Import Slice GoBigInt.

(** [b & m] and [b | m] on a byte. *)
Definition band (b : byte) (m : Z) : byte :=
  big.byte_of (Z.land (big.byte_val b) m).

Definition bor (b : byte) (m : Z) : byte :=
  big.byte_of (Z.lor (big.byte_val b) m).

Section Library.

Variable NewKeyFromSeed : list byte -> list byte.
(** [sha512.Sum512] returns a [[64]byte]; [h[:32]] is its first half. *)
Variable Sum512 : list byte -> list byte.
Variable X25519 : list byte -> list byte -> result (list byte).

(** The scalar [calculateAgreement] derives from the private key:
    [h := sha512.Sum512(privKey); copy(scalar[:], h[:32]);
     scalar[0] &= 248; scalar[31] &= 127; scalar[31] |= 64]. *)
Definition scalar (privKey : list byte) : list byte :=
  let h := Sum512 privKey in
  let scalar := copy (make 32) (firstn 32 h) in
  let scalar := upd 0 (band (nth 0 scalar x00) 248) scalar in
  let scalar := upd 31 (band (nth 31 scalar x00) 127) scalar in
  upd 31 (bor (nth 31 scalar x00) 64) scalar.

Definition calculateAgreement (pubKey privKey : list byte)
  : result (list byte) :=
  match scrubPubKeyFormat pubKey with
  | Err msg => Err msg
  | Panic => Panic
  | Ok scrubbedPubKey =>
      match validatePrivKey privKey with
      | Err msg => Err msg
      | Panic => Panic
      | Ok _ =>
          let scalar := scalar privKey in
          match ed25519ToX25519PublicKey scrubbedPubKey with
          | Err msg => Err msg
          | Panic => Panic
          | Ok x25519PubKey =>
              match X25519 scalar x25519PubKey with
              | Err msg => Err msg
              | Panic => Panic
              | Ok shared => Ok shared
              end
          end
      end
  end.

(** [rand] lists the outcomes of the calls of [rand.Read], the first of
    which fills the fresh [privKey]. *)
Definition generateKeyPair (rand : list read) : option (result KeyPair) :=
  let privKey := make 32 in
  match rand with
  | [] => None
  | ReadErr msg :: _ => Some (Err msg)
  | ReadOk bytes :: rand' =>
      createKeyPair NewKeyFromSeed rand' (copy privKey bytes)
  end.

End Library.

End GoBigIntOps.

(** * What a call through a WebAssembly wrapper comes to *)
Module Wasm.

(** The call returns, throws [new Error(msg)] (or throws on an [Error]
    object the Go side returned), throws a [TypeError] of the JavaScript
    engine, or the Go program panics under it. *)
Inductive call (A : Type) : Type :=
| Returns (a : A)
| Throws (msg : string)
| ThrowsTypeError
| GoPanics.
Arguments Returns {A} a.
Arguments Throws {A} msg.
Arguments ThrowsTypeError {A}.
Arguments GoPanics {A}.

End Wasm.

(** * The other exports of lib/main.go

    The exported functions read their arguments off JavaScript values.  A
    result [Ok v] stands for the value returned to JavaScript, [Err msg] for
    the object [Error(msg)] returned in its place, [Panic] for a panic of
    the Go program. *)
Module GoWasmOps.
Import Slice.

(** [copyBytesFromJS]: [value.Get("length")] panics unless [value] is an
    object, [js.CopyBytesToGo] unless it is a [Uint8Array]. *)
Definition copyBytesFromJS (value : JS.value) : result (list byte) :=
  match value with
  | JS.Buffer bs | JS.Uint8Array bs => GoWasm.copyBytesFromJS bs
  | _ => Panic
  end.

(** [value.Bool()] panics unless [value] is a boolean. *)
Definition Bool (value : JS.value) : result bool :=
  match value with
  | JS.Bool b => Ok b
  | _ => Panic
  end.

Section Library.

Variable NewKeyFromSeed : list byte -> list byte.
Variable Sign : list byte -> list byte -> list byte.
Variable Verify : list byte -> list byte -> list byte -> bool.
Variable X25519 : list byte -> list byte -> result (list byte).

(** [r] is the outcome of the one call of [rand.Read]. *)
Definition generateKeyPair (r : GoBigInt.read)
  : result (list byte * list byte) :=
  let seed := make 32 in
  match r with
  | GoBigInt.ReadErr _ => Err "Failed to generate random bytes"
  | GoBigInt.ReadOk bytes =>
      let seed := copy seed bytes in
      let privateKey := NewKeyFromSeed seed in
      let publicKey := GoBigInt.Public privateKey in
      let pubKeyBytes := x05 :: copy (make 32) publicKey in
      Ok (pubKeyBytes, privateKey)
  end.

Definition calculateAgreement (arg0 arg1 : JS.value) : result (list byte) :=
  match copyBytesFromJS arg0 with
  | Panic => Panic
  | Err _ => Err "Invalid public key"
  | Ok pubKey =>
      match copyBytesFromJS arg1 with
      | Panic => Panic
      | Err _ => Err "Invalid private key"
      | Ok privKeySeed =>
          if negb (length privKeySeed =? 32)%nat then Err "Invalid private key"
          else
            let scrubbedPubKey := make 32 in
            let scrubbed :=
              if (length pubKey =? 33)%nat
                 && Byte.eqb (nth 0 pubKey x00) x05 then
                Some (copy scrubbedPubKey (skipn 1 pubKey))
              else if (length pubKey =? 32)%nat then
                Some (copy scrubbedPubKey pubKey)
              else None in
            match scrubbed with
            | None => Err "Invalid public key format"
            | Some scrubbedPubKey =>
                let theirPublicKey := copy (make 32) scrubbedPubKey in
                let myPrivateKey := copy (make 32) privKeySeed in
                match X25519 myPrivateKey theirPublicKey with
                | Ok sharedSecret => Ok sharedSecret
                | Err _ => Err "Failed to calculate agreement"
                | Panic => Panic
                end
            end
      end
  end.

Definition calculateSignature (arg0 arg1 : JS.value) : result (list byte) :=
  match copyBytesFromJS arg0 with
  | Panic => Panic
  | Err _ => Err "Invalid private key"
  | Ok privKeySeed =>
      if negb (length privKeySeed =? 32)%nat then Err "Invalid private key"
      else
        match copyBytesFromJS arg1 with
        | Panic => Panic
        | Err _ => Err "Invalid message"
        | Ok message =>
            let privateKey := NewKeyFromSeed privKeySeed in
            Ok (Sign privateKey message)
        end
  end.

Definition verifySignature (arg0 arg1 arg2 arg3 : JS.value) : result bool :=
  match Bool arg3 with
  | Panic | Err _ => Panic
  | Ok true => Ok true
  | Ok false =>
      match copyBytesFromJS arg0 with
      | Panic => Panic
      | Err _ => Err "Invalid public key"
      | Ok pubKey =>
          match copyBytesFromJS arg1 with
          | Panic => Panic
          | Err _ => Err "Invalid message"
          | Ok msg =>
              match copyBytesFromJS arg2 with
              | Panic => Panic
              | Err _ => Err "Invalid signature"
              | Ok sig =>
                  if negb (length sig =? 64)%nat then Err "Invalid signature"
                  else if (length pubKey =? 33)%nat
                          && Byte.eqb (nth 0 pubKey x00) x05 then
                    Ok (Verify (copy (make 32) (skipn 1 pubKey)) msg sig)
                  else if (length pubKey =? 32)%nat then
                    Ok (Verify (copy (make 32) pubKey) msg sig)
                  else Err "Invalid public key format"
              end
          end
      end
  end.

End Library.

End GoWasmOps.

(** * The other operations of the synchronous wrapper over lib/main.go
      (src/curve.js, last module)

    The module sets [wasmInitialized] when it is loaded, before any of its
    functions can be called. *)
Module WasmSyncOps.
Import JS Wasm.

Section Library.

Variable NewKeyFromSeed : list byte -> list byte.
Variable Sign : list byte -> list byte -> list byte.
Variable Verify : list byte -> list byte -> list byte -> bool.
Variable X25519 : list byte -> list byte -> result (list byte).

Definition generateKeyPair (r : GoBigInt.read) : call KeyPair :=
  match GoWasmOps.generateKeyPair NewKeyFromSeed r with
  | Err msg => Throws msg
  | Panic => GoPanics
  | Ok (pub, priv) => Returns {| pubKey := Buffer pub; privKey := Buffer priv |}
  end.

Definition calculateAgreement (pubKey privKey : value) : call value :=
  match scrubPubKeyFormat pubKey with
  | Throw msg => Throws msg
  | Return scrubbedPubKey =>
      match validatePrivKey privKey with
      | Throw msg => Throws msg
      | Return _ =>
          if bad_scrubbed scrubbedPubKey then Throws "Invalid public key"
          else
            match GoWasmOps.calculateAgreement X25519 pubKey privKey with
            | Err msg => Throws msg
            | Panic => GoPanics
            | Ok shared => Returns (Buffer shared)
            end
      end
  end.

Definition calculateSignature (privKey message : value) : call value :=
  match validatePrivKey privKey with
  | Throw msg => Throws msg
  | Return _ =>
      if negb (truthy message) then Throws "Invalid message"
      else
        match GoWasmOps.calculateSignature NewKeyFromSeed Sign privKey message
        with
        | Err msg => Throws msg
        | Panic => GoPanics
        | Ok signature => Returns (Buffer signature)
        end
  end.

(** [isInit = false] is the default of the last parameter: it replaces an
    argument that is [undefined]. *)
Definition verifySignature (pubKey msg sig isInit : value) : call value :=
  let isInit := match isInit with Undefined => Bool false | _ => isInit end in
  match scrubPubKeyFormat pubKey with
  | Throw msg => Throws msg
  | Return scrubbedPubKey =>
      if bad_scrubbed scrubbedPubKey then Throws "Invalid public key"
      else if negb (truthy msg) then Throws "Invalid message"
      else if bad_signature sig then Throws "Invalid signature"
      else if truthy isInit then Returns (Bool true)
      else
        match GoWasmOps.verifySignature Verify pubKey msg sig isInit with
        | Err msg => Throws msg
        | Panic => GoPanics
        | Ok result => Returns (Bool result)
        end
  end.

End Library.

End WasmSyncOps.

(** * The other operations of the JavaScript backends *)

(** ** tweetnacl backend (src/curve.js, second module) *)
Module TweetnaclOps.
Import JS.

Section Library.

(** [nacl.scalarMult], [nacl.sign.keyPair.fromSeed(...).secretKey],
    [nacl.sign.detached] and [nacl.sign.detached.verify]. *)
Variable scalarMult : list byte -> list byte -> outcome (list byte).
Variable sign_keyPair_fromSeed : list byte -> outcome (list byte).
Variable sign_detached : value -> list byte -> outcome (list byte).
Variable sign_detached_verify : value -> value -> list byte -> outcome bool.

Definition calculateAgreement (pubKey privKey : value) : outcome value :=
  scrubbedPubKey <- scrubPubKeyFormat pubKey ;;
  validatePrivKey privKey ;;
  if bad_scrubbed scrubbedPubKey then Throw "Invalid public key"
  else
    shared <- scalarMult (bytes_of privKey) (bytes_of scrubbedPubKey) ;;
    Return (Buffer shared).

Definition calculateSignature (privKey message : value) : outcome value :=
  validatePrivKey privKey ;;
  if negb (truthy message) then Throw "Invalid message"
  else
    secretKey <- sign_keyPair_fromSeed (bytes_of privKey) ;;
    signature <- sign_detached message secretKey ;;
    Return (Buffer signature).

(** The call of the library sits in [try { ... } catch (e) { return false }]. *)
Definition verifySignature (pubKey msg sig isInit : value) : outcome value :=
  scrubbedPubKey <- scrubPubKeyFormat pubKey ;;
  if bad_scrubbed scrubbedPubKey then Throw "Invalid public key"
  else if negb (truthy msg) then Throw "Invalid message"
  else if bad_signature sig then Throw "Invalid signature"
  else if truthy isInit then Return (Bool true)
  else
    match sign_detached_verify msg sig (bytes_of scrubbedPubKey) with
    | Return ok => Return (Bool ok)
    | Throw _ => Return (Bool false)
    end.

End Library.
End TweetnaclOps.

(** ** second noble backend: the other operations *)
Module NobleShortCircuitOps.
Import JS.

Section Library.

Variable getPublicKey : list byte -> list byte.
Variable getSharedSecret : list byte -> list byte -> outcome (list byte).

(** [pub = Buffer.alloc(33); pub.set(publicKeyBytes, 1); pub[0] = 5] *)
Definition createKeyPair (privKey : value) : outcome KeyPair :=
  validatePrivKey privKey ;;
  let publicKeyBytes := getPublicKey (bytes_of privKey) in
  pub <- tag_public_key publicKeyBytes ;;
  Return {| pubKey := Buffer pub; privKey := Buffer (bytes_of privKey) |}.

(** The public key is scrubbed in place, with one message for every
    refusal. *)
Definition calculateAgreement (pubKey privKey : value) : outcome value :=
  scrubbedPubKey <-
    (if instanceof_Buffer pubKey && byteLength_is pubKey 33
        && first_byte_is pubKey x05 then Return (subarray 1 pubKey)
     else if instanceof_Buffer pubKey && byteLength_is pubKey 32 then
       Return pubKey
     else Throw "Invalid public key for X25519") ;;
  validatePrivKey privKey ;;
  sharedSecret <- getSharedSecret (bytes_of privKey) (bytes_of scrubbedPubKey) ;;
  Return (Buffer sharedSecret).

End Library.
End NobleShortCircuitOps.

(** ** sodium worker (src/crypto-worker.js): its codec *)
Module Worker.
Import JS.

Definition scrubPubKeyFormat (pubKey : value) : outcome value :=
  if negb (instanceof_Buffer pubKey) then
    Throw (String.append "Invalid public key type: " (constructor_name pubKey))
  else if is_undefined pubKey
          || (negb (byteLength_is pubKey 33)
              || negb (first_byte_is pubKey x05))
             && negb (byteLength_is pubKey 32) then
    Throw "Invalid public key"
  else
    Return (if byteLength_is pubKey 33 then subarray 1 pubKey else pubKey).

End Worker.

(** * The big-integer backend as JavaScript sees it *)

(** ** The functions the Go module exports ([jsCreateKeyPair], ...) *)
Module GoBigIntExports.
Import Slice GoBigInt.

(** What [js.ValueOf] hands back to JavaScript. *)
Inductive exported : Type :=
| ErrorMap (error : string)
| KeysMap (pubKey privKey : list byte)
| TypedArray (bytes : list byte)
| Boolean (b : bool).

(** An exported function returns a value or panics. *)
Inductive go_return : Type :=
| Returned (v : exported)
| Panicked.

(** [b := make([]byte, v.Get("length").Int()); js.CopyBytesToGo(b, v)]:
    [Get] panics unless [v] is an object, [CopyBytesToGo] unless it is a
    [Uint8Array]; [None] stands for the panic. *)
Definition bytesFromJS (v : JS.value) : option (list byte) :=
  match v with
  | JS.Buffer bs | JS.Uint8Array bs => Some (copy (make (length bs)) bs)
  | _ => None
  end.

Section Library.

Variable NewKeyFromSeed : list byte -> list byte.
Variable Sign : list byte -> list byte -> list byte.
Variable Verify : list byte -> list byte -> list byte -> bool.
Variable Sum512 : list byte -> list byte.
Variable X25519 : list byte -> list byte -> result (list byte).

Definition jsCreateKeyPair (rand : list read) (args : list JS.value)
  : option go_return :=
  if negb (length args =? 1)%nat then
    Some (Returned (ErrorMap "invalid number of arguments"))
  else
    match bytesFromJS (nth 0 args JS.Undefined) with
    | None => Some Panicked
    | Some privKey =>
        match createKeyPair NewKeyFromSeed rand privKey with
        | None => None
        | Some Panic => Some Panicked
        | Some (Err msg) => Some (Returned (ErrorMap msg))
        | Some (Ok result) =>
            Some (Returned (KeysMap (GoBigInt.pubKey result)
                              (GoBigInt.privKey result)))
        end
    end.

Definition jsCalculateAgreement (args : list JS.value) : go_return :=
  if negb (length args =? 2)%nat then
    Returned (ErrorMap "invalid number of arguments")
  else
    match bytesFromJS (nth 0 args JS.Undefined) with
    | None => Panicked
    | Some pubKey =>
        match bytesFromJS (nth 1 args JS.Undefined) with
        | None => Panicked
        | Some privKey =>
            match GoBigIntOps.calculateAgreement Sum512 X25519 pubKey privKey
            with
            | Panic => Panicked
            | Err msg => Returned (ErrorMap msg)
            | Ok result => Returned (TypedArray result)
            end
        end
    end.

Definition jsCalculateSignature (args : list JS.value) : go_return :=
  if negb (length args =? 2)%nat then
    Returned (ErrorMap "invalid number of arguments")
  else
    match bytesFromJS (nth 0 args JS.Undefined) with
    | None => Panicked
    | Some privKey =>
        match bytesFromJS (nth 1 args JS.Undefined) with
        | None => Panicked
        | Some message =>
            match calculateSignature NewKeyFromSeed Sign privKey message with
            | Panic => Panicked
            | Err msg => Returned (ErrorMap msg)
            | Ok result => Returned (TypedArray result)
            end
        end
    end.

Definition jsVerifySignature (args : list JS.value) : go_return :=
  if negb (length args =? 4)%nat then
    Returned (ErrorMap "invalid number of arguments")
  else
    match bytesFromJS (nth 0 args JS.Undefined) with
    | None => Panicked
    | Some pubKey =>
        match bytesFromJS (nth 1 args JS.Undefined) with
        | None => Panicked
        | Some message =>
            match bytesFromJS (nth 2 args JS.Undefined) with
            | None => Panicked
            | Some signature =>
                match GoWasmOps.Bool (nth 3 args JS.Undefined) with
                | Ok isInit =>
                    match verifySignature Verify pubKey message signature
                            isInit with
                    | Panic => Panicked
                    | Err msg => Returned (ErrorMap msg)
                    | Ok result => Returned (Boolean result)
                    end
                | _ => Panicked
                end
            end
        end
    end.

Definition jsGenerateKeyPair (rand : list read) : option go_return :=
  match GoBigIntOps.generateKeyPair NewKeyFromSeed rand with
  | None => None
  | Some Panic => Some Panicked
  | Some (Err msg) => Some (Returned (ErrorMap msg))
  | Some (Ok result) =>
      Some (Returned (KeysMap (GoBigInt.pubKey result)
                              (GoBigInt.privKey result)))
  end.

End Library.

End GoBigIntExports.

(** ** The JavaScript wrapper over these exports

    [new Uint8Array(v)] copies a typed array; what the constructor makes of
    a number, a string or a boolean is left to the parameter [coerce].
    [uint8ArrayToBuffer] wraps the bytes of a typed array and throws a
    [TypeError] on anything else. *)
Module BigIntWasm.
Import JS Wasm GoBigIntExports.

Section Library.

Variable NewKeyFromSeed : list byte -> list byte.
Variable Sign : list byte -> list byte -> list byte.
Variable Verify : list byte -> list byte -> list byte -> bool.
Variable Sum512 : list byte -> list byte.
Variable X25519 : list byte -> list byte -> result (list byte).
Variable coerce : value -> outcome (list byte).

Definition new_Uint8Array (v : value) : outcome (list byte) :=
  match v with
  | Buffer bs | Uint8Array bs => Return bs
  | _ => coerce v
  end.

(** [result.error], read off what the Go side returned. *)
Definition error_of (result : exported) : value :=
  match result with
  | ErrorMap error => Str error
  | _ => Undefined
  end.

Definition error_text (result : exported) : string :=
  match result with
  | ErrorMap error => error
  | _ => ""
  end.

(** [{ pubKey: uint8ArrayToBuffer(result.pubKey),
       privKey: uint8ArrayToBuffer(result.privKey) }] *)
Definition keys_of (result : exported) : call KeyPair :=
  match result with
  | KeysMap pub priv =>
      Returns {| pubKey := Buffer pub; privKey := Buffer priv |}
  | _ => ThrowsTypeError
  end.

(** [uint8ArrayToBuffer(result)] *)
Definition uint8ArrayToBuffer (result : exported) : call value :=
  match result with
  | TypedArray bytes => Returns (Buffer bytes)
  | _ => ThrowsTypeError
  end.

Definition createKeyPair (rand : list GoBigInt.read) (privKey : value)
  : option (call KeyPair) :=
  match validatePrivKey privKey with
  | Throw msg => Some (Throws msg)
  | Return _ =>
      match new_Uint8Array privKey with
      | Throw msg => Some (Throws msg)
      | Return privKeyUint8 =>
          match jsCreateKeyPair NewKeyFromSeed rand [Uint8Array privKeyUint8]
          with
          | None => None
          | Some Panicked => Some GoPanics
          | Some (Returned result) =>
              if truthy (error_of result) then
                Some (Throws (error_text result))
              else Some (keys_of result)
          end
      end
  end.

Definition calculateAgreement (pubKey privKey : value) : call value :=
  match scrubPubKeyFormat pubKey with
  | Throw msg => Throws msg
  | Return scrubbedPubKey =>
      match validatePrivKey privKey with
      | Throw msg => Throws msg
      | Return _ =>
          if bad_scrubbed scrubbedPubKey then Throws "Invalid public key"
          else
            match new_Uint8Array pubKey with
            | Throw msg => Throws msg
            | Return pubKeyUint8 =>
                match new_Uint8Array privKey with
                | Throw msg => Throws msg
                | Return privKeyUint8 =>
                    match jsCalculateAgreement Sum512 X25519
                            [Uint8Array pubKeyUint8; Uint8Array privKeyUint8]
                    with
                    | Panicked => GoPanics
                    | Returned result =>
                        if truthy (error_of result) then
                          Throws (error_text result)
                        else uint8ArrayToBuffer result
                    end
                end
            end
      end
  end.

Definition calculateSignature (privKey message : value) : call value :=
  match validatePrivKey privKey with
  | Throw msg => Throws msg
  | Return _ =>
      if negb (truthy message) then Throws "Invalid message"
      else
        match new_Uint8Array privKey with
        | Throw msg => Throws msg
        | Return privKeyUint8 =>
            match new_Uint8Array message with
            | Throw msg => Throws msg
            | Return messageUint8 =>
                match jsCalculateSignature NewKeyFromSeed Sign
                        [Uint8Array privKeyUint8; Uint8Array messageUint8]
                with
                | Panicked => GoPanics
                | Returned result =>
                    if truthy (error_of result) then
                      Throws (error_text result)
                    else uint8ArrayToBuffer result
                end
            end
        end
  end.

(** The wrapper returns what the Go side returned, as it is. *)
Definition verifySignature (pubKey msg sig isInit : value) : call exported :=
  match scrubPubKeyFormat pubKey with
  | Throw msg => Throws msg
  | Return scrubbedPubKey =>
      if bad_scrubbed scrubbedPubKey then Throws "Invalid public key"
      else if negb (truthy msg) then Throws "Invalid message"
      else if bad_signature sig then Throws "Invalid signature"
      else if truthy isInit then Returns (Boolean true)
      else
        match new_Uint8Array pubKey with
        | Throw e => Throws e
        | Return pubKeyUint8 =>
            match new_Uint8Array msg with
            | Throw e => Throws e
            | Return msgUint8 =>
                match new_Uint8Array sig with
                | Throw e => Throws e
                | Return sigUint8 =>
                    (* [isInit || false], with [isInit] falsy here *)
                    match jsVerifySignature Verify
                            [Uint8Array pubKeyUint8; Uint8Array msgUint8;
                             Uint8Array sigUint8; Bool false]
                    with
                    | Panicked => GoPanics
                    | Returned result =>
                        if truthy (error_of result) then
                          Throws (error_text result)
                        else Returns result
                    end
                end
            end
        end
  end.

Definition generateKeyPair (rand : list GoBigInt.read)
  : option (call KeyPair) :=
  match jsGenerateKeyPair NewKeyFromSeed rand with
  | None => None
  | Some Panicked => Some GoPanics
  | Some (Returned result) =>
      if truthy (error_of result) then Some (Throws (error_text result))
      else Some (keys_of result)
  end.

End Library.

End BigIntWasm.

(** * Two later variants of the Go module

    Both take the arguments of an exported function as the list [args]; an
    index past its end panics, as reading a value that is not a typed array
    does.  Results are read as in [GoWasmOps]. *)

(** ** The variant that returns the seed (src/unnamed/part_004) *)
Module GoWasmSeed.
Import Slice.

Definition arg (args : list JS.value) (i : nat) : JS.value :=
  nth i args JS.Undefined.

Section Library.

Variable NewKeyFromSeed : list byte -> list byte.
Variable Verify : list byte -> list byte -> list byte -> bool.
Variable X25519 : list byte -> list byte -> result (list byte).

(** [privateKey.Seed()] *)
Definition Seed (privateKey : list byte) : list byte := firstn 32 privateKey.

Definition createKeyPair (args : list JS.value)
  : result (list byte * list byte) :=
  match GoWasmOps.copyBytesFromJS (arg args 0) with
  | Panic => Panic
  | Err _ => Err "Invalid private key seed"
  | Ok privKeySeed =>
      if negb (length privKeySeed =? 32)%nat then
        Err "Invalid private key seed"
      else
        let privateKey := NewKeyFromSeed privKeySeed in
        let publicKey := GoBigInt.Public privateKey in
        let pubKeyBytes := x05 :: copy (make 32) publicKey in
        Ok (pubKeyBytes, copy (make 32) privKeySeed)
  end.

Definition calculateAgreement (args : list JS.value) : result (list byte) :=
  match GoWasmOps.copyBytesFromJS (arg args 0) with
  | Panic => Panic
  | Err _ => Err "Invalid public key"
  | Ok pubKey =>
      match GoWasmOps.copyBytesFromJS (arg args 1) with
      | Panic => Panic
      | Err _ => Err "Invalid private key"
      | Ok privKeySeed =>
          if negb (length privKeySeed =? 32)%nat then Err "Invalid private key"
          else
            let scrubbed :=
              if (length pubKey =? 33)%nat
                 && Byte.eqb (nth 0 pubKey x00) x05 then Some (skipn 1 pubKey)
              else if (length pubKey =? 32)%nat then Some pubKey
              else None in
            match scrubbed with
            | None => Err "Invalid public key format"
            | Some scrubbedPubKey =>
                if negb (length scrubbedPubKey =? 32)%nat then
                  Err "Invalid public key length"
                else
                  let privateKey := NewKeyFromSeed privKeySeed in
                  let x25519Private := copy (make 32) (Seed privateKey) in
                  let x25519Public := copy (make 32) scrubbedPubKey in
                  match X25519 x25519Private x25519Public with
                  | Ok sharedSecret => Ok sharedSecret
                  | Err _ => Err "Failed to calculate agreement"
                  | Panic => Panic
                  end
            end
      end
  end.

Definition verifySignature (args : list JS.value) : result bool :=
  let shortCircuit :=
    if (3 <? length args)%nat then GoWasmOps.Bool (arg args 3)
    else Ok false in
  match shortCircuit with
  | Panic | Err _ => Panic
  | Ok true => Ok true
  | Ok false =>
      match GoWasmOps.copyBytesFromJS (arg args 0) with
      | Panic => Panic
      | Err _ => Err "Invalid public key"
      | Ok pubKey =>
          match GoWasmOps.copyBytesFromJS (arg args 1) with
          | Panic => Panic
          | Err _ => Err "Invalid message"
          | Ok msg =>
              match GoWasmOps.copyBytesFromJS (arg args 2) with
              | Panic => Panic
              | Err _ => Err "Invalid signature"
              | Ok sig =>
                  if negb (length sig =? 64)%nat then Err "Invalid signature"
                  else
                    let scrubbed :=
                      if (length pubKey =? 33)%nat
                         && Byte.eqb (nth 0 pubKey x00) x05 then
                        Some (skipn 1 pubKey)
                      else if (length pubKey =? 32)%nat then Some pubKey
                      else None in
                    match scrubbed with
                    | None => Err "Invalid public key format"
                    | Some scrubbedPubKey =>
                        if negb (length scrubbedPubKey =? 32)%nat then
                          Err "Invalid public key length"
                        else Ok (Verify scrubbedPubKey msg sig)
                    end
              end
          end
      end
  end.

End Library.

End GoWasmSeed.

(** ** The variant that refuses empty arguments (src/unnamed/part_002) *)
Module GoWasmStrict.
Import Slice.

Definition arg (args : list JS.value) (i : nat) : JS.value :=
  nth i args JS.Undefined.

Definition copyBytesFromJS (value : JS.value) : result (list byte) :=
  match value with
  | JS.Buffer bs | JS.Uint8Array bs =>
      let length := length bs in
      if (length =? 0)%nat then Err "JS value has zero length"
      else
        let bytes := copy (make length) bs in
        let copied := Nat.min length (List.length bs) in
        if negb (copied =? length)%nat then
          Err "failed to copy all bytes from JS value"
        else Ok bytes
  | _ => Panic
  end.

Definition scrubPubKey (pubKey : list byte) : result (list byte) :=
  if (length pubKey =? 33)%nat && Byte.eqb (nth 0 pubKey x00) x05 then
    Ok (skipn 1 pubKey)
  else if (length pubKey =? 32)%nat then Ok pubKey
  else Err "invalid public key format".

Section Library.

Variable NewKeyFromSeed : list byte -> list byte.
Variable Sign : list byte -> list byte -> list byte.
Variable Verify : list byte -> list byte -> list byte -> bool.
Variable X25519 : list byte -> list byte -> result (list byte).

Definition createKeyPair (args : list JS.value)
  : result (list byte * list byte) :=
  if (length args <? 1)%nat then Err "private key seed is required"
  else
    match copyBytesFromJS (arg args 0) with
    | Panic => Panic
    | Err _ => Err "invalid private key seed"
    | Ok privKeySeed =>
        if negb (length privKeySeed =? 32)%nat then
          Err "invalid private key seed"
        else
          let privateKey := NewKeyFromSeed privKeySeed in
          let publicKey := GoBigInt.Public privateKey in
          let pubKeyBytes := x05 :: copy (make 32) publicKey in
          Ok (pubKeyBytes, privKeySeed)
    end.

Definition generateKeyPair (r : GoBigInt.read)
  : result (list byte * list byte) :=
  let seed := make 32 in
  match r with
  | GoBigInt.ReadErr _ => Err "failed to generate random bytes for key pair"
  | GoBigInt.ReadOk bytes =>
      let seed := copy seed bytes in
      createKeyPair [JS.Uint8Array seed]
  end.

Definition calculateAgreement (args : list JS.value) : result (list byte) :=
  if (length args <? 2)%nat then Err "public key and private key are required"
  else
    match copyBytesFromJS (arg args 0) with
    | Panic => Panic
    | Err err => Err (String.append "invalid public key: " err)
    | Ok pubKeyBytes =>
        match copyBytesFromJS (arg args 1) with
        | Panic => Panic
        | Err _ => Err "invalid private key"
        | Ok privKeyBytes =>
            if negb (length privKeyBytes =? 32)%nat then
              Err "invalid private key"
            else
              match scrubPubKey pubKeyBytes with
              | Panic => Panic
              | Err err => Err err
              | Ok scrubbedPubKey =>
                  let theirPublicKey := copy (make 32) scrubbedPubKey in
                  let myPrivateKey := copy (make 32) privKeyBytes in
                  match X25519 myPrivateKey theirPublicKey with
                  | Ok sharedSecret => Ok sharedSecret
                  | Err _ => Err "failed to calculate shared secret"
                  | Panic => Panic
                  end
              end
        end
    end.

Definition calculateSignature (args : list JS.value) : result (list byte) :=
  if (length args <? 2)%nat then Err "private key and message are required"
  else
    match copyBytesFromJS (arg args 0) with
    | Panic => Panic
    | Err _ => Err "invalid private key seed"
    | Ok privKeySeed =>
        if negb (length privKeySeed =? 32)%nat then
          Err "invalid private key seed"
        else
          match copyBytesFromJS (arg args 1) with
          | Panic => Panic
          | Err _ => Err "invalid message"
          | Ok message =>
              let privateKey := NewKeyFromSeed privKeySeed in
              Ok (Sign privateKey message)
          end
    end.

Definition verifySignature (args : list JS.value) : result bool :=
  if (length args <? 3)%nat then
    Err "public key, message, and signature are required"
  else
    let shortCircuit :=
      if (3 <? length args)%nat then GoWasmOps.Bool (arg args 3)
      else Ok false in
    match shortCircuit with
    | Panic | Err _ => Panic
    | Ok true => Ok true
    | Ok false =>
        match copyBytesFromJS (arg args 0) with
        | Panic => Panic
        | Err err => Err (String.append "invalid public key: " err)
        | Ok pubKeyBytes =>
            match copyBytesFromJS (arg args 1) with
            | Panic => Panic
            | Err _ => Err "invalid message"
            | Ok msg =>
                match copyBytesFromJS (arg args 2) with
                | Panic => Panic
                | Err _ => Err "invalid signature"
                | Ok sig =>
                    if negb (length sig =? 64)%nat then Err "invalid signature"
                    else
                      match scrubPubKey pubKeyBytes with
                      | Panic => Panic
                      | Err err => Err err
                      | Ok scrubbedPubKey =>
                          Ok (Verify scrubbedPubKey msg sig)
                      end
                end
            end
        end
  end.

End Library.

End GoWasmStrict.

(** * Reference models of the external primitives

    The curve libraries are not part of the repository.  The definitions of
    this module follow FIPS 180-4 (SHA-512), RFC 8032 (Ed25519 public keys)
    and RFC 7748 (X25519 on the base point); they instantiate the library
    parameters of the backends wherever a statement is evaluated on concrete
    seeds. *)
Module Reference.

Definition be_int (bs : list byte) : Z :=
  fold_left (fun acc b => acc * 256 + big.byte_val b) bs 0.

Definition le_int (bs : list byte) : Z :=
  fold_right (fun b acc => big.byte_val b + 256 * acc) 0 bs.

Fixpoint le_bytes (n : nat) (z : Z) : list byte :=
  match n with
  | O => []
  | S n' => big.byte_of (z mod 256) :: le_bytes n' (z / 256)
  end.

Definition be_bytes (n : nat) (z : Z) : list byte := rev (le_bytes n z).

(** ** SHA-512 *)
Definition K512 : list Z :=
  [
   0x428a2f98d728ae22; 0x7137449123ef65cd; 0xb5c0fbcfec4d3b2f;
   0xe9b5dba58189dbbc; 0x3956c25bf348b538; 0x59f111f1b605d019;
   0x923f82a4af194f9b; 0xab1c5ed5da6d8118; 0xd807aa98a3030242;
   0x12835b0145706fbe; 0x243185be4ee4b28c; 0x550c7dc3d5ffb4e2;
   0x72be5d74f27b896f; 0x80deb1fe3b1696b1; 0x9bdc06a725c71235;
   0xc19bf174cf692694; 0xe49b69c19ef14ad2; 0xefbe4786384f25e3;
   0x0fc19dc68b8cd5b5; 0x240ca1cc77ac9c65; 0x2de92c6f592b0275;
   0x4a7484aa6ea6e483; 0x5cb0a9dcbd41fbd4; 0x76f988da831153b5;
   0x983e5152ee66dfab; 0xa831c66d2db43210; 0xb00327c898fb213f;
   0xbf597fc7beef0ee4; 0xc6e00bf33da88fc2; 0xd5a79147930aa725;
   0x06ca6351e003826f; 0x142929670a0e6e70; 0x27b70a8546d22ffc;
   0x2e1b21385c26c926; 0x4d2c6dfc5ac42aed; 0x53380d139d95b3df;
   0x650a73548baf63de; 0x766a0abb3c77b2a8; 0x81c2c92e47edaee6;
   0x92722c851482353b; 0xa2bfe8a14cf10364; 0xa81a664bbc423001;
   0xc24b8b70d0f89791; 0xc76c51a30654be30; 0xd192e819d6ef5218;
   0xd69906245565a910; 0xf40e35855771202a; 0x106aa07032bbd1b8;
   0x19a4c116b8d2d0c8; 0x1e376c085141ab53; 0x2748774cdf8eeb99;
   0x34b0bcb5e19b48a8; 0x391c0cb3c5c95a63; 0x4ed8aa4ae3418acb;
   0x5b9cca4f7763e373; 0x682e6ff3d6b2b8a3; 0x748f82ee5defb2fc;
   0x78a5636f43172f60; 0x84c87814a1f0ab72; 0x8cc702081a6439ec;
   0x90befffa23631e28; 0xa4506cebde82bde9; 0xbef9a3f7b2c67915;
   0xc67178f2e372532b; 0xca273eceea26619c; 0xd186b8c721c0c207;
   0xeada7dd6cde0eb1e; 0xf57d4f7fee6ed178; 0x06f067aa72176fba;
   0x0a637dc5a2c898a6; 0x113f9804bef90dae; 0x1b710b35131c471b;
   0x28db77f523047d84; 0x32caab7b40c72493; 0x3c9ebe0a15c9bebc;
   0x431d67c49c100d4c; 0x4cc5d4becb3e42b6; 0x597f299cfc657e2a;
   0x5fcb6fab3ad6faec; 0x6c44198c4a475817
  ].

Definition H512 : list Z :=
  [
   0x6a09e667f3bcc908; 0xbb67ae8584caa73b; 0x3c6ef372fe94f82b;
   0xa54ff53a5f1d36f1; 0x510e527fade682d1; 0x9b05688c2b3e6c1f;
   0x1f83d9abfb41bd6b; 0x5be0cd19137e2179
  ].

Definition w64 (x : Z) : Z := x mod 2 ^ 64.
Definition rotr (n x : Z) : Z :=
  Z.lor (Z.shiftr x n) (w64 (Z.shiftl x (64 - n))).
Definition Ch (e f g : Z) : Z :=
  Z.lxor (Z.land e f) (Z.land (Z.lxor e (Z.ones 64)) g).
Definition Maj (a b c : Z) : Z :=
  Z.lxor (Z.lxor (Z.land a b) (Z.land a c)) (Z.land b c).
Definition Sigma0 (a : Z) : Z :=
  Z.lxor (Z.lxor (rotr 28 a) (rotr 34 a)) (rotr 39 a).
Definition Sigma1 (e : Z) : Z :=
  Z.lxor (Z.lxor (rotr 14 e) (rotr 18 e)) (rotr 41 e).
Definition sigma0 (x : Z) : Z :=
  Z.lxor (Z.lxor (rotr 1 x) (rotr 8 x)) (Z.shiftr x 7).
Definition sigma1 (x : Z) : Z :=
  Z.lxor (Z.lxor (rotr 19 x) (rotr 61 x)) (Z.shiftr x 6).

Definition pad512 (msg : list byte) : list byte :=
  let len := length msg in
  let zeros := ((128 + 111 - len mod 128) mod 128)%nat in
  msg ++ [x80] ++ repeat x00 zeros ++ be_bytes 16 (8 * Z.of_nat len).

Fixpoint chunks (fuel size : nat) (l : list byte) : list (list byte) :=
  match fuel with
  | O => []
  | S fuel' =>
      match l with
      | [] => []
      | _ => firstn size l :: chunks fuel' size (skipn size l)
      end
  end.

(** The message schedule, most recent word first. *)
Fixpoint schedule (n : nat) (w : list Z) : list Z :=
  match n with
  | O => w
  | S n' =>
      let x := w64 (nth 15 w 0 + sigma0 (nth 14 w 0)
                    + nth 6 w 0 + sigma1 (nth 1 w 0)) in
      schedule n' (x :: w)
  end.

Definition state := (Z * Z * Z * Z * Z * Z * Z * Z)%type.

Definition round (s : state) (kw : Z * Z) : state :=
  let '(a, b, c, d, e, f, g, h) := s in
  let (k, w) := kw in
  let t1 := w64 (h + Sigma1 e + Ch e f g + k + w) in
  let t2 := w64 (Sigma0 a + Maj a b c) in
  (w64 (t1 + t2), a, b, c, w64 (d + t1), e, f, g).

Definition compress (H : state) (block : list byte) : state :=
  let w16 := map be_int (chunks 16 8 block) in
  let w := rev (schedule 64 (rev w16)) in
  let '(a, b, c, d, e, f, g, h) := fold_left round (combine K512 w) H in
  let '(a0, b0, c0, d0, e0, f0, g0, h0) := H in
  (w64 (a0 + a), w64 (b0 + b), w64 (c0 + c), w64 (d0 + d),
   w64 (e0 + e), w64 (f0 + f), w64 (g0 + g), w64 (h0 + h)).

Definition sha512 (msg : list byte) : list byte :=
  let m := pad512 msg in
  let init :=
    match H512 with
    | [a; b; c; d; e; f; g; h] => (a, b, c, d, e, f, g, h)
    | _ => (0, 0, 0, 0, 0, 0, 0, 0)
    end in
  let '(a, b, c, d, e, f, g, h) :=
    fold_left compress (chunks (length m) 128 m) init in
  concat (map (be_bytes 8) [a; b; c; d; e; f; g; h]).

(** ** The twisted Edwards curve of RFC 8032 *)
Definition q : Z :=
  57896044618658097711785492504343953926634992332820282019728792003956564819949.

(** Reduction modulo [q] by folding the bits above 2^255 back with weight
    19 (2^255 = 19 mod q); exact for arguments of magnitude below 2^512. *)
Definition fold255 (x : Z) : Z := 19 * Z.shiftr x 255 + Z.land x (Z.ones 255).
Definition modq (x : Z) : Z :=
  let y := fold255 (fold255 x) in
  if y <? 0 then y + q else if y <? q then y else y - q.

(** Inverse in the field. *)
Definition inv (x : Z) : Z :=
  match big.ModInverse (modq x) q with Some i => i | None => 0 end.

(** The curve constant [- 121665 / 121666]. *)
Definition d : Z :=
  37095705934669439343138083508754565189542113879843219016388785533085940283555.
Definition Bx : Z :=
  15112221349535400772501151409588531511454012693041857206046113283949847762202.
Definition By : Z :=
  46316835694926478169428394003475163141307993866256225615783033603165251855960.

(** Points in extended homogeneous coordinates (X, Y, Z, T). *)
Definition point := (Z * Z * Z * Z)%type.
Definition Bt : Z :=
  46827403850823179245072216630277197565144205554125654976674165829533817101731.
Definition B : point := (Bx, By, 1, Bt).

Definition point_add (P Q : point) : point :=
  let '(x1, y1, z1, t1) := P in
  let '(x2, y2, z2, t2) := Q in
  let a := modq ((y1 - x1) * (y2 - x2)) in
  let b := modq ((y1 + x1) * (y2 + x2)) in
  let c := modq (modq (2 * t1 * t2) * d) in
  let dd := modq (2 * z1 * z2) in
  let e := b - a in
  let f := dd - c in
  let g := dd + c in
  let h := b + a in
  (modq (e * f), modq (g * h), modq (f * g), modq (e * h)).

Fixpoint point_mul_pos (s : positive) (P : point) : point :=
  match s with
  | xH => P
  | xO s' => point_mul_pos s' (point_add P P)
  | xI s' => point_add P (point_mul_pos s' (point_add P P))
  end.

Definition point_mul (s : Z) (P : point) : point :=
  match s with
  | Zpos s' => point_mul_pos s' P
  | _ => (0, 1, 1, 0)
  end.

Definition point_compress (P : point) : list byte :=
  let '(x, y, z, _) := P in
  let zi := inv z in
  let xa := modq (x * zi) in
  let ya := modq (y * zi) in
  le_bytes 32 (Z.lor ya (Z.shiftl (Z.land xa 1) 255)).

(** Pruning of a 32-byte scalar: clear the low three bits and the top bit,
    set bit 254. *)
Definition clamp (bs : list byte) : Z :=
  Z.lor (Z.land (le_int bs) (2 ^ 254 - 8)) (2 ^ 254).

(** The Ed25519 public key of a 32-byte seed (RFC 8032, section 5.1.5). *)
Definition ed25519_public (seed : list byte) : list byte :=
  point_compress (point_mul (clamp (firstn 32 (sha512 seed))) B).

(** X25519 of a 32-byte scalar and the base point [u = 9] (RFC 7748), read
    off the Edwards point through the birational map. *)
Definition x25519_base (k : list byte) : list byte :=
  let '(_, y, z, _) := point_mul (clamp k) B in
  le_bytes 32 (((z + y) * inv (z - y)) mod q).

End Reference.

(** * The converter as the specification words it *)
Module Spec.

(** Little-endian reading of a byte string (the wire order of a key). *)
Fixpoint le_decode (l : list byte) : Z :=
  match l with
  | [] => 0
  | b :: t => big.byte_val b + 256 * le_decode t
  end.

(** The field prime. *)
Definition p : Z := 2 ^ 255 - 19.

(** The sign flag of an Ed25519 encoding: the top bit of its last byte. *)
Definition sign_bit (k : list byte) : bool := Z.testbit (le_decode k) 255.

(** The numeric value of the remaining 255 bits, the top bit masked off. *)
Definition masked_y (k : list byte) : Z := Z.land (le_decode k) (Z.ones 255).

End Spec.

(** * Primality of the field prime

    Pocklington's criterion, checked by computation on a certificate whose
    leaves are settled by trial division. *)
Module Primality.

Lemma pow_mod_1_mul a r x k :
  1 < r -> 0 <= x -> 0 <= k -> a ^ x mod r = 1 -> a ^ (x * k) mod r = 1.
Proof.
  intros Hr Hx Hk H.
  rewrite Z.pow_mul_r by lia.
  rewrite <- Z.mod_pow_l, H, Z.pow_1_l by lia.
  apply Z.mod_1_l; lia.
Qed.

Lemma pow_mod_1_rem a r x y :
  1 < r -> 0 <= x -> 0 < y ->
  a ^ x mod r = 1 -> a ^ y mod r = 1 -> a ^ (x mod y) mod r = 1.
Proof.
  intros Hr Hx Hy Hax Hay.
  pose proof (Z.mod_pos_bound x y Hy) as Hb.
  pose proof (Z.div_pos x y Hx Hy) as Hq.
  assert (E : x = y * (x / y) + x mod y) by (apply Z.div_mod; lia).
  rewrite E in Hax at 1.
  rewrite Z.pow_add_r, Z.mul_mod in Hax by lia.
  rewrite (pow_mod_1_mul a r y (x / y)) in Hax by lia.
  rewrite Z.mul_1_l, Z.mod_mod in Hax by lia.
  exact Hax.
Qed.

Lemma pow_mod_1_gcd a r :
  1 < r -> forall y, 0 <= y -> forall x, 0 <= x ->
  a ^ x mod r = 1 -> a ^ y mod r = 1 -> a ^ (Z.gcd x y) mod r = 1.
Proof.
  intros Hr y.
  induction y as [y IH] using (well_founded_induction (Z.lt_wf 0)).
  intros Hy x Hx Hax Hay.
  destruct (Z.eq_dec y 0) as [-> | Hne].
  - rewrite Z.gcd_0_r, Z.abs_eq by lia. exact Hax.
  - pose proof (Z.mod_pos_bound x y ltac:(lia)) as Hb.
    rewrite Z.gcd_comm, <- (Z.gcd_mod x y) by lia.
    rewrite Z.gcd_comm.
    apply IH; try lia; auto.
    apply pow_mod_1_rem; auto; lia.
Qed.

(** A prime [q] dividing [n] divides every divisor [g] of [n] that does not
    already divide [n / q]. *)
Lemma prime_divides_cofactor q n g :
  Z.prime q -> (q | n) -> (g | n) -> ~ (g | n / q) -> (q | g).
Proof.
  intros Hq [c Hc] [t Ht] Hn.
  pose proof (Z.prime_ge_2 q Hq) as Hq2.
  assert (Hqt : (q | t * g)) by (exists c; lia).
  apply Z.divide_prime_mul in Hqt; [ | exact Hq ].
  destruct Hqt as [[t' Ht'] | Hg]; [ | exact Hg ].
  exfalso. apply Hn.
  exists t'. rewrite Hc, Z.div_mul by lia.
  apply (Z.mul_cancel_r _ _ q); [ lia | ]. nia.
Qed.

(** The core of Pocklington's criterion: every prime divisor [r] of [N] is
    congruent to 1 modulo each certified prime factor [q] of [N - 1]. *)
Lemma pocklington_factor N a q r :
  1 < N -> Z.prime q -> (q | N - 1) ->
  a ^ (N - 1) mod N = 1 ->
  Z.gcd (a ^ ((N - 1) / q) mod N - 1) N = 1 ->
  Z.prime r -> (r | N) -> (q | r - 1).
Proof.
  intros HN Hq Hqn Ha Hg Hr Hrn.
  pose proof (Z.prime_ge_2 r Hr) as Hr2.
  pose proof (Z.prime_ge_2 q Hq) as Hq2.
  assert (Har : a ^ (N - 1) mod r = 1).
  { assert (E : a ^ (N - 1) mod r = (a ^ (N - 1) mod N) mod r).
    { symmetry. apply Z.mod_mod_divide. exact Hrn. }
    rewrite E, Ha. apply Z.mod_1_l; lia. }
  assert (Hanz : a mod r <> 0).
  { intro E0. rewrite <- Z.mod_pow_l, E0, Z.pow_0_l, Z.mod_0_l in Har by lia. lia. }
  pose proof (Z.fermat_nz r a Hr Hanz) as Hf.
  pose proof (pow_mod_1_gcd a r ltac:(lia) (r - 1) ltac:(lia) (N - 1) ltac:(lia) Har Hf) as Hgcd.
  set (g := Z.gcd (N - 1) (r - 1)) in *.
  assert (Hg0 : 0 < g).
  { pose proof (Z.gcd_nonneg (N - 1) (r - 1)).
    assert (g <> 0) by (unfold g; intro E0; apply Z.gcd_eq_0_l in E0; lia). lia. }
  apply Z.divide_trans with g; [ | apply Z.gcd_divide_r ].
  apply (prime_divides_cofactor q (N - 1) g Hq Hqn); [ apply Z.gcd_divide_l | ].
  intros [k Hk].
  assert (Hk0 : 0 <= k).
  { assert (0 <= (N - 1) / q) by (apply Z.div_pos; lia). nia. }
  assert (Hm : a ^ ((N - 1) / q) mod r = 1).
  { rewrite Hk, Z.mul_comm. apply pow_mod_1_mul; auto; lia. }
  assert (Hdiv : (r | a ^ ((N - 1) / q) mod N - 1)).
  { apply Z.mod_divide; [ lia | ].
    rewrite <- Zminus_mod_idemp_l.
    rewrite (Z.mod_mod_divide _ _ _ Hrn).
    rewrite Hm. reflexivity. }
  assert (Hr1 : (r | 1)).
  { rewrite <- Hg. apply Z.gcd_greatest; auto. }
  apply Z.divide_1_r_nonneg in Hr1; lia.
Qed.


Lemma exists_prime_divisor n : 1 < n -> exists r, Z.prime r /\ (r | n).
Proof.
  induction n as [n IH] using (well_founded_induction (Z.lt_wf 0)).
  intros Hn.
  destruct (prime_dec n) as [Hp | Hnp].
  - exists n. split; [ apply prime_alt; exact Hp | apply Z.divide_refl ].
  - destruct (not_prime_divide n Hn Hnp) as [d [Hd Hdn]].
    destruct (IH d ltac:(lia) ltac:(lia)) as [r [Hr Hrd]].
    exists r. split; [ exact Hr | eapply Z.divide_trans; eauto ].
Qed.

(** If every prime divisor of [N] exceeds [L] and [N < (L + 1) * (L + 1)],
    then [N] has no proper divisor. *)
Lemma prime_of_large_prime_divisors N L :
  1 < N -> 0 <= L -> N < (L + 1) * (L + 1) ->
  (forall r, Z.prime r -> (r | N) -> L < r) -> Z.prime N.
Proof.
  intros HN HL HNL Hbig. split; [ exact HN | ].
  intros n Hn [c Hc].
  assert (Hc1 : 1 < c < N) by nia.
  (* the smaller of the two cofactors has a prime divisor below sqrt N *)
  assert (Hs : exists s, 1 < s /\ (s | N) /\ s * s <= N).
  { destruct (Z_le_gt_dec n c).
    - exists n. repeat split; try lia; [ exists c; lia | nia ].
    - exists c. repeat split; try lia; [ exists n; lia | nia ]. }
  destruct Hs as [s [Hs1 [HsN Hss]]].
  destruct (exists_prime_divisor s Hs1) as [r [Hr Hrs]].
  pose proof (Z.prime_ge_2 r Hr) as Hr2.
  assert (Hrle : r <= s) by (apply Z.divide_pos_le; [ lia | exact Hrs ]).
  pose proof (Hbig r Hr (Z.divide_trans _ _ _ Hrs HsN)) as HLr.
  nia.
Qed.

(** One level of a Pocklington certificate: base [a], certified prime
    factors [qs] of [N - 1]. *)
Definition pock_factor_ok (N a q : Z) : bool :=
  ((N - 1) mod q =? 0) && (Z.gcd (Zpow_mod a ((N - 1) / q) N - 1) N =? 1).

Definition pock_check (N a : Z) (qs : list Z) : bool :=
  (1 <? N) && (Zpow_mod a (N - 1) N =? 1)
  && forallb (pock_factor_ok N a) qs
  && (N <=? fold_right Z.lcm 1 qs * fold_right Z.lcm 1 qs).

Lemma lcm_list_divides qs m :
  Forall (fun q => (q | m)) qs -> (fold_right Z.lcm 1 qs | m).
Proof.
  induction 1 as [| q qs Hq _ IH]; simpl.
  - apply Z.divide_1_l.
  - apply Z.lcm_least; assumption.
Qed.

Theorem pock_check_sound N a qs :
  pock_check N a qs = true -> Forall Z.prime qs -> Z.prime N.
Proof.
  unfold pock_check. intros H Hqs.
  apply andb_prop in H. destruct H as [H HL].
  apply andb_prop in H. destruct H as [H Hall].
  apply andb_prop in H. destruct H as [HN Ha].
  apply Z.ltb_lt in HN. apply Z.eqb_eq in Ha. apply Z.leb_le in HL.
  rewrite Zpow_mod_correct in Ha by lia.
  set (L := fold_right Z.lcm 1 qs) in *.
  assert (HL0 : 0 <= L).
  { unfold L. destruct qs; simpl; [ lia | apply Z.lcm_nonneg ]. }
  apply (prime_of_large_prime_divisors N L HN HL0 ltac:(nia)).
  intros r Hr Hrn.
  pose proof (Z.prime_ge_2 r Hr) as Hr2.
  assert (Hdiv : (L | r - 1)).
  { apply lcm_list_divides.
    rewrite Forall_forall in Hqs. apply Forall_forall. intros q Hin.
    rewrite forallb_forall in Hall. specialize (Hall q Hin).
    unfold pock_factor_ok in Hall. apply andb_prop in Hall.
    destruct Hall as [Hm Hg].
    apply Z.eqb_eq in Hm. apply Z.eqb_eq in Hg.
    rewrite Zpow_mod_correct in Hg by lia.
    pose proof (Z.prime_ge_2 q (Hqs q Hin)) as Hq2.
    apply (pocklington_factor N a q r); auto.
    apply Z.mod_divide; [ lia | exact Hm ]. }
  apply Z.divide_pos_le in Hdiv; lia.
Qed.

(** Trial division for the small primes at the leaves of a certificate. *)
Definition trial_step (n : Z) (st : Z * bool) : Z * bool :=
  let (d, ok) := st in (d + 1, ok && negb (n mod d =? 0)).

Definition trial_division (n : Z) : bool :=
  (1 <? n) && snd (N.iter (Z.to_N (Z.sqrt n - 1)) (trial_step n) (2, true)).

Lemma trial_iter_spec n k :
  let st := N.iter k (trial_step n) (2, true) in
  fst st = 2 + Z.of_N k /\
  (snd st = true -> forall d, 2 <= d < 2 + Z.of_N k -> n mod d <> 0).
Proof.
  induction k as [| k IH] using N.peano_ind.
  - simpl. split; [ reflexivity | intros _ d Hd; lia ].
  - rewrite N.iter_succ, N2Z.inj_succ. cbv zeta in *.
    destruct (N.iter k (trial_step n) (2, true)) as [d0 ok0].
    cbn [fst snd trial_step] in *. destruct IH as [Hd0 Hok]. split; [ lia | ].
    intros Hb d Hd. apply andb_prop in Hb. destruct Hb as [Hok0 Hnd].
    destruct (Z.eq_dec d d0) as [-> | Hne].
    + apply negb_true_iff, Z.eqb_neq in Hnd. exact Hnd.
    + apply Hok; [ exact Hok0 | lia ].
Qed.

Theorem trial_division_sound n : trial_division n = true -> Z.prime n.
Proof.
  unfold trial_division. intros H. apply andb_prop in H.
  destruct H as [Hn Hit]. apply Z.ltb_lt in Hn.
  pose proof (trial_iter_spec n (Z.to_N (Z.sqrt n - 1))) as [_ Hspec].
  specialize (Hspec Hit).
  pose proof (Z.sqrt_spec n ltac:(lia)) as Hsq. cbv zeta in Hsq.
  pose proof (Z.sqrt_nonneg n) as Hs0.
  apply (prime_of_large_prime_divisors n (Z.sqrt n)); try lia.
  intros r Hr Hrn.
    pose proof (Z.prime_ge_2 r Hr) as Hr2.
    destruct (Z_lt_le_dec (Z.sqrt n) r) as [Hlt | Hle]; [ exact Hlt | exfalso ].
    apply (Hspec r); [ lia | ].
    apply Z.mod_divide; [ lia | exact Hrn ].
Qed.

(** The primality certificate of the field prime [2^255 - 19]: each line
    certifies one prime from smaller ones, the leaves by trial division. *)
Create HintDb primes.

Ltac by_trial_division :=
  apply trial_division_sound; vm_compute; reflexivity.

Ltac by_pocklington a qs :=
  apply (pock_check_sound _ a qs);
  [ vm_compute; reflexivity
  | repeat (apply Forall_cons; [ solve [ auto with primes ] | ]);
    apply Forall_nil ].

Lemma prime_127 : Z.prime 127.
Proof. by_trial_division. Qed.
Lemma prime_4153 : Z.prime 4153.
Proof. by_trial_division. Qed.
Lemma prime_430751 : Z.prime 430751.
Proof. by_trial_division. Qed.
Lemma prime_8574133 : Z.prime 8574133.
Proof. by_trial_division. Qed.
Lemma prime_2773320623 : Z.prime 2773320623.
Proof. by_trial_division. Qed.
#[local] Hint Resolve prime_127 prime_4153 prime_430751 prime_8574133
  prime_2773320623 : primes.

Lemma prime_72106336199 : Z.prime 72106336199.
Proof. by_pocklington 2 [2773320623]. Qed.
#[local] Hint Resolve prime_72106336199 : primes.

Lemma prime_1919519569386763 : Z.prime 1919519569386763.
Proof. by_pocklington 2 [8574133; 127]. Qed.
Lemma prime_31757755568855353 : Z.prime 31757755568855353.
Proof. by_pocklington 2 [430751; 4153]. Qed.
#[local] Hint Resolve prime_1919519569386763 prime_31757755568855353 : primes.

Lemma prime_75445702479781427272750846543864801 :
  Z.prime 75445702479781427272750846543864801.
Proof. by_pocklington 2 [1919519569386763; 72106336199]. Qed.
#[local] Hint Resolve prime_75445702479781427272750846543864801 : primes.

Lemma prime_2_236_cofactor :
  Z.prime 74058212732561358302231226437062788676166966415465897661863160754340907.
Proof.
  by_pocklington 2 [75445702479781427272750846543864801; 31757755568855353].
Qed.
#[local] Hint Resolve prime_2_236_cofactor : primes.

Theorem prime_2_255_19 : Z.prime (2 ^ 255 - 19).
Proof.
  by_pocklington 2
    [74058212732561358302231226437062788676166966415465897661863160754340907].
Qed.

End Primality.

(** * Facts about byte strings and their integer readings *)
Module BytesFacts.
Import Slice big.
Import Spec.

Lemma byte_val_range b : 0 <= byte_val b < 256.
Proof.
  unfold byte_val. pose proof (Byte.to_N_bounded b). lia.
Qed.

Lemma byte_val_of z : 0 <= z < 256 -> byte_val (byte_of z) = z.
Proof.
  intros Hz. unfold byte_val, byte_of.
  destruct (Byte.of_N (Z.to_N z)) as [b |] eqn:E.
  - apply Byte.to_of_N in E. rewrite E. lia.
  - apply Byte.of_N_None_iff in E. lia.
Qed.

Lemma fold_SetBytes l : forall acc,
  fold_left (fun a b => a * 256 + byte_val b) l acc
  = acc * 256 ^ Z.of_nat (length l) + SetBytes l.
Proof.
  unfold SetBytes.
  induction l as [| b l IH]; intros acc.
  - simpl. lia.
  - cbn [fold_left length]. rewrite IH, (IH (0 * 256 + byte_val b)).
    rewrite Nat2Z.inj_succ, Z.pow_succ_r by lia. ring.
Qed.

Lemma SetBytes_app a b :
  SetBytes (a ++ b) = SetBytes a * 256 ^ Z.of_nat (length b) + SetBytes b.
Proof.
  unfold SetBytes at 1. rewrite fold_left_app, fold_SetBytes. reflexivity.
Qed.

Lemma SetBytes_cons b l :
  SetBytes (b :: l) = byte_val b * 256 ^ Z.of_nat (length l) + SetBytes l.
Proof. apply (SetBytes_app [b] l). Qed.

Lemma SetBytes_range l : 0 <= SetBytes l < 256 ^ Z.of_nat (length l).
Proof.
  induction l as [| b l IH].
  - cbn. lia.
  - rewrite SetBytes_cons. cbn [length].
    rewrite Nat2Z.inj_succ, Z.pow_succ_r by lia.
    pose proof (byte_val_range b). nia.
Qed.

Lemma SetBytes_rev l : SetBytes (rev l) = le_decode l.
Proof.
  induction l as [| b l IH].
  - reflexivity.
  - cbn [rev le_decode]. rewrite SetBytes_app, IH.
    change (SetBytes [b]) with (0 * 256 + byte_val b).
    change (Z.of_nat (length [b])) with 1. lia.
Qed.

Lemma le_decode_rev l : le_decode (rev l) = SetBytes l.
Proof. rewrite <- SetBytes_rev, rev_involutive. reflexivity. Qed.

Lemma le_decode_range l : 0 <= le_decode l < 256 ^ Z.of_nat (length l).
Proof.
  rewrite <- SetBytes_rev, <- length_rev. apply SetBytes_range.
Qed.

Lemma le_decode_app a b :
  le_decode (a ++ b) = le_decode a + 256 ^ Z.of_nat (length a) * le_decode b.
Proof.
  induction a as [| x a IH].
  - cbn [app le_decode length]. change (Z.of_nat 0) with 0.
    rewrite Z.pow_0_r. lia.
  - cbn [app le_decode length]. rewrite IH.
    rewrite Nat2Z.inj_succ, Z.pow_succ_r by lia. ring.
Qed.

Lemma SetBytes_zeros n l : SetBytes (repeat x00 n ++ l) = SetBytes l.
Proof.
  induction n as [| n IH].
  - reflexivity.
  - cbn [repeat app]. rewrite SetBytes_cons, IH.
    change (byte_val x00) with 0. lia.
Qed.

(** The swap loop of the converter reverses a 32-byte slice. *)
Lemma reverse32_rev l : length l = 32%nat -> reverse32 l = rev l.
Proof.
  intros H.
  do 32 (destruct l as [| ? l]; [ discriminate H | ]).
  destruct l; [ reflexivity | discriminate H ].
Qed.

Lemma copy_make_32 k : length k = 32%nat -> copy (make 32) k = k.
Proof.
  intros H. unfold copy, make.
  rewrite repeat_length, H, <- H, firstn_all, H.
  cbn. apply app_nil_r.
Qed.

Lemma be_digits_spec fuel : forall z acc,
  0 <= z < 256 ^ Z.of_nat fuel ->
  SetBytes (be_digits fuel z acc)
  = z * 256 ^ Z.of_nat (length acc) + SetBytes acc.
Proof.
  induction fuel as [| fuel IH]; intros z acc Hz.
  - change (Z.of_nat 0) with 0 in Hz. rewrite Z.pow_0_r in Hz.
    assert (z = 0) by lia. subst. cbn [be_digits]. lia.
  - cbn [be_digits]. destruct (Z.eqb_spec z 0) as [-> | Hnz].
    + lia.
    + rewrite Nat2Z.inj_succ, Z.pow_succ_r in Hz by lia.
      rewrite IH.
      * rewrite SetBytes_cons. cbn [length].
        rewrite Nat2Z.inj_succ, Z.pow_succ_r by lia.
        rewrite byte_val_of by (apply Z.mod_pos_bound; lia).
        pose proof (Z.div_mod z 256 ltac:(lia)). nia.
      * split; [ apply Z.div_pos; lia | ].
        apply Z.div_lt_upper_bound; lia.
Qed.

Lemma be_digits_length fuel : forall z acc,
  (length (be_digits fuel z acc) <= fuel + length acc)%nat.
Proof.
  induction fuel as [| fuel IH]; intros z acc; cbn [be_digits].
  - lia.
  - destruct (z =? 0); [ lia | ].
    specialize (IH (z / 256) (byte_of (z mod 256) :: acc)).
    cbn [length] in IH. lia.
Qed.

Lemma Bytes_fuel z : 0 <= z -> z < 256 ^ (Z.log2 z / 8 + 1).
Proof.
  intros Hz. destruct (Z.eq_dec z 0) as [-> | Hnz].
  - cbn. lia.
  - pose proof (Z.log2_spec z ltac:(lia)) as [_ Hlt].
    pose proof (Z.log2_nonneg z) as Hl.
    pose proof (Z.div_mod (Z.log2 z) 8 ltac:(lia)) as Hdm.
    pose proof (Z.mod_pos_bound (Z.log2 z) 8 ltac:(lia)) as Hm.
    assert (Hq : 0 <= Z.log2 z / 8) by (apply Z.div_pos; lia).
    change 256 with (2 ^ 8). rewrite <- Z.pow_mul_r by lia.
    eapply Z.lt_le_trans; [ exact Hlt | ].
    apply Z.pow_le_mono_r; lia.
Qed.

Lemma SetBytes_Bytes z : 0 <= z -> SetBytes (Bytes z) = z.
Proof.
  intros Hz. unfold Bytes. rewrite Z.abs_eq by lia.
  assert (Hq : 0 <= Z.log2 z / 8)
    by (apply Z.div_pos; [ apply Z.log2_nonneg | lia ]).
  rewrite be_digits_spec.
  - cbn. lia.
  - rewrite Z2Nat.id by lia. split; [ lia | apply Bytes_fuel; lia ].
Qed.

Lemma Bytes_length z n :
  0 <= z < 2 ^ (8 * Z.of_nat n) -> (0 < n)%nat -> (length (Bytes z) <= n)%nat.
Proof.
  intros Hz Hn. unfold Bytes. rewrite Z.abs_eq by lia.
  pose proof (be_digits_length (Z.to_nat (Z.log2 z / 8 + 1)) z []) as Hlen.
  cbn [length] in Hlen.
  assert (Hq : Z.log2 z / 8 + 1 <= Z.of_nat n).
  { destruct (Z.eq_dec z 0) as [-> | Hnz]; [ cbn; lia | ].
    assert (Hl : Z.log2 z < 8 * Z.of_nat n)
      by (apply Z.log2_lt_pow2; lia).
    assert (Z.log2 z / 8 < Z.of_nat n)
      by (apply Z.div_lt_upper_bound; lia).
    lia. }
  lia.
Qed.

Lemma firstn_repeat_add (x : byte) n m :
  firstn n (repeat x (n + m)) = repeat x n.
Proof. induction n as [| n IH]; cbn; [ reflexivity | now rewrite IH ]. Qed.

Lemma skipn_repeat_add (x : byte) n m :
  skipn n (repeat x (n + m)) = repeat x m.
Proof. induction n as [| n IH]; cbn; [ reflexivity | exact IH ]. Qed.

(** Left-padding the minimal encoding to 32 bytes, as the converter does. *)
Lemma pad32 uBytes :
  (length uBytes <= 32)%nat ->
  firstn (32 - length uBytes) (make 32)
    ++ copy (skipn (32 - length uBytes) (make 32)) uBytes
  = repeat x00 (32 - length uBytes) ++ uBytes.
Proof.
  intros H. unfold make, copy.
  remember (32 - length uBytes)%nat as off eqn:Eoff.
  replace (repeat x00 32) with (repeat x00 (off + length uBytes))
    by (f_equal; lia).
  rewrite firstn_repeat_add, skipn_repeat_add, repeat_length, firstn_all.
  rewrite skipn_all2 by (rewrite repeat_length; lia).
  rewrite app_nil_r. reflexivity.
Qed.

Lemma euclid_spec g n : forall fuel r0 r1 x0 x1,
  0 <= r1 < r0 ->
  r1 = 0 \/ Z.log2 r0 + Z.log2 r1 + 2 <= Z.of_nat fuel ->
  (n | x0 * g - r0) -> (n | x1 * g - r1) ->
  Z.gcd r0 r1 = Z.gcd g n ->
  let (d, x) := euclid fuel r0 r1 x0 x1 in
  d = Z.gcd g n /\ (n | x * g - d).
Proof.
  induction fuel as [| fuel IH]; intros r0 r1 x0 x1 Hr Hfuel H0 H1 Hg.
  - destruct Hfuel as [-> | Hf].
    + cbn [euclid]. rewrite Z.gcd_0_r, Z.abs_eq in Hg by lia. auto.
    + pose proof (Z.log2_nonneg r0). pose proof (Z.log2_nonneg r1). lia.
  - cbn [euclid]. destruct (Z.eqb_spec r1 0) as [-> | Hnz].
    + rewrite Z.gcd_0_r, Z.abs_eq in Hg by lia. auto.
    + pose proof (Z.mod_pos_bound r0 r1 ltac:(lia)) as Hm.
      pose proof (Z.div_mod r0 r1 Hnz) as Hdm.
      apply IH.
      * lia.
      * destruct (Z.eq_dec (r0 mod r1) 0) as [E | N]; [ left; exact E | right ].
        destruct Hfuel as [E | Hf]; [ lia | ].
        assert (Hq : 1 <= r0 / r1).
        { apply Z.div_le_lower_bound; lia. }
        assert (Hlog : Z.log2 (r0 mod r1) + 1 <= Z.log2 r0).
        { replace (Z.log2 (r0 mod r1) + 1)
            with (Z.log2 (2 * (r0 mod r1)))
            by (rewrite Z.log2_double; lia).
          apply Z.log2_le_mono. nia. }
        lia.
      * exact H1.
      * replace ((x0 - r0 / r1 * x1) * g - r0 mod r1)
          with ((x0 * g - r0) - r0 / r1 * (x1 * g - r1)) by lia.
        apply Z.divide_sub_r; [ exact H0 | apply Z.divide_mul_r; exact H1 ].
      * rewrite <- Hg, (Z.gcd_comm r0 r1), Z.gcd_comm.
        apply Z.gcd_mod. exact Hnz.
Qed.

Lemma ModInverse_spec g n :
  2 <= n ->
  match ModInverse g n with
  | Some i => Z.gcd g n = 1 /\ 0 <= i < n /\ (i * g) mod n = 1
  | None => Z.gcd g n <> 1
  end.
Proof.
  intros Hn. unfold ModInverse.
  pose proof (Z.mod_pos_bound g n ltac:(lia)) as Hm.
  pose proof (euclid_spec g n (Z.to_nat (2 * Z.log2 n + 2)) n (g mod n) 0 1)
    as H.
  destruct (euclid _ n (g mod n) 0 1) as [d x].
  destruct H as [Hd Hx].
  - lia.
  - destruct (Z.eq_dec (g mod n) 0) as [E | N]; [ left; exact E | right ].
    pose proof (Z.log2_nonneg n).
    assert (Z.log2 (g mod n) <= Z.log2 n) by (apply Z.log2_le_mono; lia).
    lia.
  - exists (-1). lia.
  - exists (g / n). pose proof (Z.div_mod g n ltac:(lia)). lia.
  - rewrite (Z.gcd_comm g n), Z.gcd_comm. apply Z.gcd_mod. lia.
  - destruct (Z.eqb_spec d 1) as [-> | Hne].
    + split; [ symmetry; exact Hd | ].
      split; [ apply Z.mod_pos_bound; lia | ].
      rewrite Z.mul_mod_idemp_l by lia.
      destruct Hx as [c Hc].
      replace (x * g) with (1 + c * n) by lia.
      rewrite Z.mod_add by lia. apply Z.mod_1_l. lia.
    + congruence.
Qed.

End BytesFacts.

(** * The birational converter of the big-integer backend *)
Module ConverterFacts.
Import Slice big Spec BytesFacts GoBigInt.

Definition invalid_key : result (list byte) :=
  Err "invalid ed25519 public key".

Lemma p_eq : p = 2 ^ 255 - 19.
Proof. vm_compute. reflexivity. Qed.

Lemma p_prime : Z.prime p.
Proof. rewrite p_eq. exact Primality.prime_2_255_19. Qed.

Lemma decode_input k :
  length k = 32%nat -> SetBytes (reverse32 (copy (make 32) k)) = le_decode k.
Proof.
  intros H. rewrite copy_make_32, reverse32_rev, SetBytes_rev by exact H.
  reflexivity.
Qed.

Lemma ModInverse_not_coprime d n :
  2 <= n -> Z.gcd d n <> 1 -> ModInverse d n = None.
Proof.
  intros Hn H. pose proof (ModInverse_spec d n Hn) as S.
  destruct (ModInverse d n) as [i |]; [ | reflexivity ].
  destruct S as [Hg _]. contradiction.
Qed.

Lemma ModInverse_coprime d n :
  2 <= n -> Z.gcd d n = 1 ->
  exists i, ModInverse d n = Some i /\ 0 <= i < n /\ (i * d) mod n = 1.
Proof.
  intros Hn H. pose proof (ModInverse_spec d n Hn) as S.
  destruct (ModInverse d n) as [i |]; [ | contradiction ].
  exists i. split; [ reflexivity | apply S ].
Qed.

Lemma ModInverse_prime_nondivisor d :
  ~ (p | d) ->
  exists i, ModInverse d p = Some i /\ 0 <= i < p /\ (i * d) mod p = 1.
Proof.
  intros H. apply ModInverse_coprime.
  - apply Z.prime_ge_2, p_prime.
  - rewrite Z.gcd_comm. apply Z.coprime_prime_l; [ exact p_prime | exact H ].
Qed.

(** The converter on a 32-byte input, with the byte shuffling resolved. *)
Lemma converter_unfold k :
  length k = 32%nat ->
  ed25519ToX25519PublicKey k =
  let y := le_decode k in
  if y >=? p then invalid_key
  else if p - y + 1 =? 0 then invalid_key
  else match ModInverse (p - y + 1) p with
       | None => invalid_key
       | Some inv =>
           let uBytes := Bytes (((y + 1) * inv) mod p) in
           if (32 <? length uBytes)%nat then Panic
           else Ok (reverse32
                      (firstn (32 - length uBytes) (make 32)
                       ++ copy (skipn (32 - length uBytes) (make 32)) uBytes))
       end.
Proof.
  intros H. unfold ed25519ToX25519PublicKey.
  rewrite H, decode_input by exact H. reflexivity.
Qed.

Lemma converter_wrong_length k :
  length k <> 32%nat ->
  ed25519ToX25519PublicKey k = Err "invalid ed25519 public key length".
Proof.
  intros H. unfold ed25519ToX25519PublicKey.
  destruct (Nat.eqb_spec (length k) 32); [ contradiction | reflexivity ].
Qed.

Lemma converter_noncanonical k :
  length k = 32%nat -> p <= le_decode k ->
  ed25519ToX25519PublicKey k = invalid_key.
Proof.
  intros H Hy. rewrite converter_unfold by exact H. cbv zeta.
  destruct (Z.geb_spec (le_decode k) p); [ reflexivity | lia ].
Qed.

Lemma converter_degenerate k :
  length k = 32%nat -> le_decode k = 1 ->
  ed25519ToX25519PublicKey k = invalid_key.
Proof.
  intros H Hy. rewrite converter_unfold by exact H. cbv zeta. rewrite Hy.
  pose proof (Z.prime_ge_2 p p_prime) as Hp.
  destruct (Z.geb_spec 1 p); [ reflexivity | ].
  replace (p - 1 + 1) with p by lia.
  destruct (Z.eqb_spec p 0); [ reflexivity | ].
  rewrite ModInverse_not_coprime; [ reflexivity | lia | ].
  rewrite Z.gcd_diag, Z.abs_eq; lia.
Qed.

Lemma converter_accepts k :
  length k = 32%nat -> le_decode k < p -> le_decode k <> 1 ->
  exists inv r,
    ModInverse (p - le_decode k + 1) p = Some inv /\
    ed25519ToX25519PublicKey k = Ok r /\
    length r = 32%nat /\
    le_decode r = ((le_decode k + 1) * inv) mod p.
Proof.
  intros H Hy Hy1. rewrite converter_unfold by exact H. cbv zeta.
  pose proof (Z.prime_ge_2 p p_prime) as Hp.
  pose proof (le_decode_range k) as [Hy0 _].
  set (y := le_decode k) in *.
  destruct (Z.geb_spec y p); [ lia | ].
  destruct (Z.eqb_spec (p - y + 1) 0); [ lia | ].
  destruct (ModInverse_prime_nondivisor (p - y + 1)) as [inv [E [Hi Hinv]]].
  { intros [c Hc].
    assert (Hcases : c = 1 \/ c <= 0 \/ 2 <= c) by lia.
    destruct Hcases as [-> | [Hc0 | Hc2]]; nia. }
  rewrite E. exists inv.
  set (u := ((y + 1) * inv) mod p).
  assert (Hu : 0 <= u < p) by (apply Z.mod_pos_bound; lia).
  assert (Hlen : (length (Bytes u) <= 32)%nat).
  { apply Bytes_length; [ | lia ].
    rewrite p_eq in Hu. change (8 * Z.of_nat 32) with 256.
    assert (2 ^ 255 < 2 ^ 256) by (apply Z.pow_lt_mono_r; lia). lia. }
  destruct (Nat.ltb_spec 32 (length (Bytes u))); [ lia | ].
  eexists. split; [ reflexivity | split; [ reflexivity | ] ].
  rewrite pad32 by exact Hlen.
  assert (Hl32 : length (repeat x00 (32 - length (Bytes u)) ++ Bytes u) = 32%nat)
    by (rewrite length_app, repeat_length; lia).
  rewrite reverse32_rev by exact Hl32.
  split.
  - rewrite length_rev. exact Hl32.
  - rewrite le_decode_rev, SetBytes_zeros, SetBytes_Bytes by lia. reflexivity.
Qed.

End ConverterFacts.

Module ReferenceFacts.
Import Reference Spec BytesFacts.

Lemma fold255_eq x : fold255 x = x - q * (x / 2 ^ 255).
Proof.
  unfold fold255, q.
  rewrite Z.shiftr_div_pow2, Z.land_ones by lia.
  pose proof (Z.div_mod x (2 ^ 255) ltac:(lia)). lia.
Qed.

(** The folding reduction agrees with the remainder modulo [q] on every
    product of two field elements (more generally below 2^512 in
    magnitude). *)
Lemma modq_spec x : - 2 ^ 512 <= x < 2 ^ 512 -> modq x = x mod q.
Proof.
  intros Hx. unfold modq.
  set (y1 := fold255 x). set (y2 := fold255 y1).
  assert (H1 : - (19 * 2 ^ 257) <= y1 < 20 * 2 ^ 257).
  { unfold y1, fold255. rewrite Z.shiftr_div_pow2, Z.land_ones by lia.
    pose proof (Z.mod_pos_bound x (2 ^ 255) ltac:(lia)).
    assert (- 2 ^ 257 <= x / 2 ^ 255 < 2 ^ 257).
    { split.
      - apply Z.div_le_lower_bound; [ lia | ].
        change (2 ^ 255 * - 2 ^ 257) with (- 2 ^ 512). lia.
      - apply Z.div_lt_upper_bound; [ lia | ].
        change (2 ^ 255 * 2 ^ 257) with (2 ^ 512). lia. }
    lia. }
  assert (H2 : - 1444 <= y2 < 2 ^ 255 + 1520).
  { unfold y2, fold255. rewrite Z.shiftr_div_pow2, Z.land_ones by lia.
    pose proof (Z.mod_pos_bound y1 (2 ^ 255) ltac:(lia)).
    assert (- 76 <= y1 / 2 ^ 255 < 80).
    { split.
      - apply Z.div_le_lower_bound; lia.
      - apply Z.div_lt_upper_bound; lia. }
    lia. }
  assert (E : y2 = x - q * (x / 2 ^ 255 + y1 / 2 ^ 255)).
  { unfold y2. rewrite fold255_eq. unfold y1 at 1. rewrite fold255_eq. ring. }
  assert (Hq : q = 2 ^ 255 - 19) by reflexivity.
  destruct (Z.ltb_spec y2 0); [ | destruct (Z.ltb_spec y2 q) ].
  - apply (Z.mod_unique _ _ (x / 2 ^ 255 + y1 / 2 ^ 255 - 1));
      [ left; lia | lia ].
  - apply (Z.mod_unique _ _ (x / 2 ^ 255 + y1 / 2 ^ 255));
      [ left; lia | lia ].
  - apply (Z.mod_unique _ _ (x / 2 ^ 255 + y1 / 2 ^ 255 + 1));
      [ left; lia | lia ].
Qed.

Lemma le_bytes_length n : forall z, length (le_bytes n z) = n.
Proof.
  induction n as [| n IH]; intros z; cbn [le_bytes length];
    [ reflexivity | now rewrite IH ].
Qed.


Lemma length_ed25519_public seed : length (ed25519_public seed) = 32%nat.
Proof.
  unfold ed25519_public, point_compress.
  destruct (point_mul _ B) as [[[x y] z] t]. apply le_bytes_length.
Qed.



End ReferenceFacts.

(** * Recorded vectors of the reference primitives *)
Module Vectors.

Definition hex_digit (c : Ascii.ascii) : Z :=
  let n := Z.of_nat (Ascii.nat_of_ascii c) in
  if n <? 58 then n - 48 else n - 87.

Fixpoint unhex (s : string) : list byte :=
  match s with
  | String a (String b t) =>
      big.byte_of (16 * hex_digit a + hex_digit b) :: unhex t
  | _ => []
  end.

Definition zero_seed : list byte := repeat x00 32.

(** X25519 of the all-zero scalar and the base point. *)
Definition zero_x_public : list byte :=
  Eval vm_compute in
    unhex "2fe57da347cd62431528daac5fbb290730fff684afc4cfc2ed90995f58cb3b74".

(** RFC 8032, section 7.1, TEST SHA(abc): the public key has its sign bit
    set (last byte 0xbf). *)
Definition rfc_seed_abc : list byte :=
  Eval vm_compute in
    unhex "833fe62409237b9d62ec77587520911e9a759cec1d19755b7da901b96dca3d42".
Definition rfc_public_abc : list byte :=
  Eval vm_compute in
    unhex "ec172b93ad5e563bf4932c70e1245034c35467ef2efd4d64ebf819683467e2bf".

Lemma ed25519_public_rfc_abc :
  Reference.ed25519_public rfc_seed_abc = rfc_public_abc.
Proof. vm_cast_no_check (eq_refl rfc_public_abc). Qed.

Lemma x25519_base_zero :
  Reference.x25519_base zero_seed = zero_x_public.
Proof. vm_cast_no_check (eq_refl zero_x_public). Qed.

End Vectors.

(** The reference primitives are evaluated through the recorded vectors
    only. *)
#[global] Opaque Reference.ed25519_public Reference.x25519_base.

(** * Facts about the shared JavaScript validation and codec *)
Module JSFacts.
Import JS.

Lemma validatePrivKey_buffer bs :
  length bs = 32%nat -> validatePrivKey (Buffer bs) = Return tt.
Proof.
  intros H. unfold validatePrivKey, byteLength_is. cbn. rewrite H. reflexivity.
Qed.

Lemma validatePrivKey_typed_array bs :
  validatePrivKey (Uint8Array bs)
  = Throw "Invalid private key type: Uint8Array".
Proof. reflexivity. Qed.

Lemma scrubPubKeyFormat_typed_array bs :
  scrubPubKeyFormat (Uint8Array bs)
  = Throw "Invalid public key type: Uint8Array".
Proof. reflexivity. Qed.

Lemma tag_public_key_32 u :
  length u = 32%nat -> tag_public_key u = Return (x05 :: u).
Proof.
  intros H. unfold tag_public_key, typed_set.
  rewrite repeat_length, H. cbn. rewrite app_nil_r. reflexivity.
Qed.

Lemma scrubPubKeyFormat_tagged u :
  length u = 32%nat -> scrubPubKeyFormat (Buffer (x05 :: u)) = Return (Buffer u).
Proof.
  intros H. unfold scrubPubKeyFormat, byteLength_is. cbn. rewrite H.
  reflexivity.
Qed.

Lemma scrubPubKeyFormat_legacy u :
  length u = 32%nat -> scrubPubKeyFormat (Buffer u) = Return (Buffer u).
Proof.
  intros H. unfold scrubPubKeyFormat, byteLength_is. cbn. rewrite H.
  reflexivity.
Qed.

Lemma bad_scrubbed_32 u : length u = 32%nat -> bad_scrubbed (Buffer u) = false.
Proof. intros H. unfold bad_scrubbed, byteLength_is. cbn. rewrite H. reflexivity. Qed.

Lemma bad_signature_64 sig :
  byteLength sig = Some 64%nat -> bad_signature sig = false.
Proof.
  intros H. unfold bad_signature, byteLength_is. rewrite H.
  destruct sig; try discriminate H; reflexivity.
Qed.

Lemma scrubPubKeyFormat_inv pubKey s :
  scrubPubKeyFormat pubKey = Return s ->
  exists k, length k = 32%nat /\ s = Buffer k
            /\ (pubKey = Buffer (x05 :: k) \/ pubKey = Buffer k).
Proof.
  intros Hs.
  destruct pubKey as [| | | | | bs | bs]; try discriminate Hs.
  unfold scrubPubKeyFormat, byteLength_is in Hs.
  cbn [instanceof_Buffer negb is_undefined orb byteLength] in Hs.
  destruct (Nat.eqb_spec (length bs) 33) as [E33 | N33].
  - destruct bs as [| b k]; [ discriminate E33 | ].
    cbn [first_byte_is length] in *.
    assert (Hk : length k = 32%nat) by lia.
    rewrite Hk in Hs.
    destruct (Byte.eqb b x05) eqn:Eb.
    + apply Byte.byte_dec_bl in Eb. subst b.
      cbn in Hs. injection Hs as <-.
      exists k. auto.
    + cbn in Hs. discriminate Hs.
  - cbn [negb orb andb] in Hs.
    destruct (Nat.eqb_spec (length bs) 32) as [E32 | N32];
      [ | discriminate Hs ].
    cbn in Hs. injection Hs as <-. exists bs. auto.
Qed.

End JSFacts.

Module CodecClaims.
Import JS JSFacts.

(** C8 (KeyCodec round trip).  Encoding a 32-byte coordinate [u] as the
    backends do (a fresh 33-byte array, the coordinate copied in at offset 1,
    the tag 5 stored at index 0) yields the 33-byte wire key [5 :: u], and
    [scrubPubKeyFormat] decodes that wire key back to [u]; the coordinate's
    numeric value plays no part, so this holds in particular for [u < p]. *)
Theorem C8_codec_round_trip (u : list byte) (Hu : length u = 32%nat) :
  tag_public_key u = Return (x05 :: u)
  /\ length (x05 :: u) = 33%nat
  /\ (wire <- tag_public_key u ;; scrubPubKeyFormat (Buffer wire))
     = Return (Buffer u)
  /\ GoBigInt.scrubPubKeyFormat (x05 :: u) = Ok u.
Proof.
  rewrite (tag_public_key_32 u Hu). repeat split.
  - cbn [length]. rewrite Hu. reflexivity.
  - cbn [bind]. apply scrubPubKeyFormat_tagged. exact Hu.
  - unfold GoBigInt.scrubPubKeyFormat. cbn [length nth skipn]. rewrite Hu.
    reflexivity.
Qed.

Lemma C8_codec_round_trip_witness :
  length Vectors.rfc_public_abc = 32%nat
  /\ (wire <- tag_public_key Vectors.rfc_public_abc ;;
      scrubPubKeyFormat (Buffer wire))
     = Return (Buffer Vectors.rfc_public_abc).
Proof.
  split; [ reflexivity | ].
  exact (proj1 (proj2 (proj2
           (C8_codec_round_trip Vectors.rfc_public_abc eq_refl)))).
Defined.

End CodecClaims.

Module ValidationClaims.
Import JS JSFacts.

(** C9 (key material must be a Buffer).  In the backend of src/curve.js a
    key handed over as a plain [Uint8Array] is refused with the invalid-type
    error whatever its bytes and length are, so in particular for 32
    well-formed bytes: [createKeyPair] and [calculateSignature] refuse such a
    private key, [calculateAgreement] and [verifySignature] (with or without
    the short circuit) refuse such a public key, and [calculateAgreement]
    refuses such a private key as soon as the public key has passed. *)
Theorem C9_typed_array_key_rejected :
  forall (bytes : list byte)
         (generateKeyPair : list byte -> CurveJs.keys)
         (sharedKey : list byte -> list byte -> outcome (list byte))
         (sign : list byte -> value -> outcome (list byte))
         (verify : list byte -> value -> value -> outcome bool)
         (other msg sig isInit : value),
    CurveJs.createKeyPair generateKeyPair (Uint8Array bytes)
    = Throw "Invalid private key type: Uint8Array"
    /\ CurveJs.calculateSignature sign (Uint8Array bytes) msg
       = Throw "Invalid private key type: Uint8Array"
    /\ CurveJs.calculateAgreement sharedKey (Uint8Array bytes) other
       = Throw "Invalid public key type: Uint8Array"
    /\ CurveJs.verifySignature verify (Uint8Array bytes) msg sig isInit
       = Throw "Invalid public key type: Uint8Array"
    /\ CurveJs.calculateAgreement sharedKey other (Uint8Array bytes)
       = (scrubPubKeyFormat other ;;
          Throw "Invalid private key type: Uint8Array").
Proof.
  intros. repeat split; reflexivity.
Qed.

(** The last case of C9 on a well-formed tagged public key. *)
Lemma calculateAgreement_typed_array_private_key :
  forall sharedKey (u bytes : list byte),
    length u = 32%nat ->
    CurveJs.calculateAgreement sharedKey (Buffer (x05 :: u)) (Uint8Array bytes)
    = Throw "Invalid private key type: Uint8Array".
Proof.
  intros sharedKey u bytes Hu. unfold CurveJs.calculateAgreement.
  rewrite scrubPubKeyFormat_tagged by exact Hu. reflexivity.
Qed.

(** C6, as the code has it.  [calculateSignature] of src/curve.js throws
    "Invalid message" for every falsy message (undefined, null, the empty
    string, ...) once the private key is a 32-byte Buffer, and the
    big-integer Go backend returns the error "invalid message" for the
    zero-length message once the private key has 32 bytes; in both the
    signing primitive is not consulted (the result is the same for every
    primitive). *)
Theorem C6_invalid_message :
  forall (sign : list byte -> value -> outcome (list byte))
         (NewKeyFromSeed : list byte -> list byte)
         (Sign : list byte -> list byte -> list byte)
         (seed : list byte) (message : value),
    length seed = 32%nat ->
    (truthy message = false ->
     CurveJs.calculateSignature sign (Buffer seed) message
     = Throw "Invalid message")
    /\ GoBigInt.calculateSignature NewKeyFromSeed Sign seed []
       = Err "invalid message".
Proof.
  intros sign NewKeyFromSeed Sign seed message Hlen. split.
  - intros Hm. unfold CurveJs.calculateSignature.
    rewrite validatePrivKey_buffer by exact Hlen. cbn [bind].
    rewrite Hm. reflexivity.
  - unfold GoBigInt.calculateSignature, GoBigInt.validatePrivKey.
    rewrite Hlen. reflexivity.
Qed.

Lemma C6_invalid_message_witness :
  CurveJs.calculateSignature (fun _ _ => Return []) (Buffer Vectors.zero_seed)
    Undefined
  = Throw "Invalid message"
  /\ GoBigInt.calculateSignature (fun s => s) (fun _ m => m)
       Vectors.zero_seed []
     = Err "invalid message".
Proof.
  destruct (C6_invalid_message (fun _ _ => Return []) (fun s => s)
              (fun _ m => m) Vectors.zero_seed Undefined eq_refl) as [H1 H2].
  split; [ exact (H1 eq_refl) | exact H2 ].
Defined.

(** C6 fails for the zero-length Buffer: it is an object, hence truthy, and
    [calculateSignature] of src/curve.js hands it to the signing primitive;
    what comes back is the primitive's answer, here a signature. *)
Lemma C6_counterexample :
  byteLength (Buffer []) = Some 0%nat
  /\ (forall sign,
        CurveJs.calculateSignature sign (Buffer Vectors.zero_seed) (Buffer [])
        = (signature <- sign Vectors.zero_seed (Buffer []) ;;
           Return (Buffer signature)))
  /\ CurveJs.calculateSignature (fun _ _ => Return (repeat x00 64))
       (Buffer Vectors.zero_seed) (Buffer [])
     <> Throw "Invalid message".
Proof.
  split; [ reflexivity | split ].
  - intros sign. reflexivity.
  - discriminate.
Qed.

(** C5, as the code has it.  With [isInit = true]:
    - the second noble backend and the Go export of lib/main.go return
      [true] for every public key, message and signature, checking nothing;
    - [verifySignature] of src/curve.js returns [true] without consulting the
      verification primitive exactly when the inputs have the right shape (a
      Buffer key of 33 bytes tagged 5 or of 32 bytes, a truthy message, a
      64-byte signature), and throws otherwise. *)
Theorem C5_short_circuit :
  forall (verify : list byte -> value -> value -> outcome bool)
         (ed_verify : value -> value -> list byte -> outcome bool)
         (Verify : list byte -> list byte -> list byte -> bool)
         (pubKey msg sig : value) (a0 a1 a2 : list byte),
    NobleShortCircuit.verifySignature ed_verify pubKey msg sig (Bool true)
    = Return (Bool true)
    /\ GoWasm.verifySignature Verify a0 a1 a2 true = GoWasm.BoolValue true
    /\ (forall k,
          length k = 32%nat ->
          pubKey = Buffer (x05 :: k) \/ pubKey = Buffer k ->
          truthy msg = true ->
          byteLength sig = Some 64%nat ->
          CurveJs.verifySignature verify pubKey msg sig (Bool true)
          = Return (Bool true))
    /\ (forall r,
          CurveJs.verifySignature verify pubKey msg sig (Bool true) = Return r ->
          r = Bool true
          /\ (exists k, length k = 32%nat
                        /\ (pubKey = Buffer (x05 :: k) \/ pubKey = Buffer k))
          /\ truthy msg = true
          /\ byteLength sig = Some 64%nat).
Proof.
  intros verify ed_verify Verify pubKey msg sig a0 a1 a2.
  split; [ reflexivity | split; [ reflexivity | split ] ].
  - intros k Hk Hpub Hmsg Hsig. unfold CurveJs.verifySignature.
    assert (Hs : scrubPubKeyFormat pubKey = Return (Buffer k)).
    { destruct Hpub as [-> | ->];
        [ apply scrubPubKeyFormat_tagged | apply scrubPubKeyFormat_legacy ];
        exact Hk. }
    rewrite Hs. cbn [bind].
    rewrite bad_scrubbed_32 by exact Hk.
    rewrite Hmsg, bad_signature_64 by exact Hsig. reflexivity.
  - intros r Hr. unfold CurveJs.verifySignature in Hr.
    destruct (scrubPubKeyFormat pubKey) as [scrubbed |] eqn:Hs;
      [ | discriminate Hr ].
    cbn [bind] in Hr.
    destruct (bad_scrubbed scrubbed) eqn:Hbad; [ discriminate Hr | ].
    destruct (truthy msg) eqn:Hmsg; [ | discriminate Hr ].
    cbn [negb] in Hr.
    destruct (bad_signature sig) eqn:Hsig; [ discriminate Hr | ].
    cbn [truthy] in Hr. injection Hr as <-.
    split; [ reflexivity | ]. split; [ | split; [ reflexivity | ] ].
    + destruct (scrubPubKeyFormat_inv pubKey scrubbed Hs) as (k & Hk & _ & Hp).
      exists k. split; assumption.
    + unfold bad_signature in Hsig. apply orb_false_elim in Hsig.
      destruct Hsig as [_ Hlen]. apply negb_false_iff in Hlen.
      unfold byteLength_is in Hlen.
      destruct (byteLength sig) as [n |]; [ | discriminate Hlen ].
      apply Nat.eqb_eq in Hlen. subst n. reflexivity.
Qed.

Lemma C5_short_circuit_witness :
  CurveJs.verifySignature (fun _ _ _ => Return false)
    (Buffer (x05 :: Vectors.rfc_public_abc)) (Buffer [x00])
    (Buffer (repeat x00 64)) (Bool true)
  = Return (Bool true).
Proof.
  refine (proj1 (proj2 (proj2
            (C5_short_circuit (fun _ _ _ => Return false)
               (fun _ _ _ => Return false) (fun _ _ _ => false)
               (Buffer (x05 :: Vectors.rfc_public_abc)) (Buffer [x00])
               (Buffer (repeat x00 64)) [] [] [])))
            Vectors.rfc_public_abc eq_refl (or_introl eq_refl) eq_refl eq_refl).
Defined.

(** C5 fails on src/curve.js: with [isInit = true], a 31-byte key, an
    all-zero 64-byte signature and any message, [verifySignature] throws
    "Invalid public key" whatever the verification primitive is; so do an
    absent message and a 63-byte signature with a well-formed key. *)
Lemma C5_counterexample :
  (forall verify,
     CurveJs.verifySignature verify (Buffer (repeat x00 31)) (Buffer [x00])
       (Buffer (repeat x00 64)) (Bool true)
     = Throw "Invalid public key")
  /\ (forall verify,
        CurveJs.verifySignature verify (Buffer (x05 :: Vectors.rfc_public_abc))
          Undefined (Buffer (repeat x00 64)) (Bool true)
        = Throw "Invalid message")
  /\ (forall verify,
        CurveJs.verifySignature verify (Buffer (x05 :: Vectors.rfc_public_abc))
          (Buffer [x00]) (Buffer (repeat x00 63)) (Bool true)
        = Throw "Invalid signature").
Proof. repeat split. Qed.

End ValidationClaims.

Module ConverterClaims.
Import Slice big Spec BytesFacts GoBigInt ConverterFacts.

Lemma le_decode_32_range k :
  length k = 32%nat -> 0 <= le_decode k < 2 ^ 256.
Proof.
  intros H. pose proof (le_decode_range k) as R. rewrite H in R.
  change (256 ^ Z.of_nat 32) with (2 ^ 256) in R. exact R.
Qed.

Lemma sign_bit_clear k :
  length k = 32%nat -> Spec.sign_bit k = false -> le_decode k < 2 ^ 255.
Proof.
  unfold Spec.sign_bit. intros H Hb.
  pose proof (le_decode_32_range k H) as [H0 H1].
  apply Z.testbit_false in Hb; [ | lia ].
  assert (Hq : 0 <= le_decode k / 2 ^ 255 < 2).
  { split; [ apply Z.div_pos; lia | ].
    apply Z.div_lt_upper_bound; [ lia | ].
    change (2 ^ 255 * 2) with (2 ^ 256). exact H1. }
  assert (Hz : le_decode k / 2 ^ 255 = 0).
  { pose proof (Z.div_mod (le_decode k / 2 ^ 255) 2 ltac:(lia)) as E.
    pose proof (Z.div_small (le_decode k / 2 ^ 255) 2 Hq). lia. }
  apply Z.div_small_iff in Hz; lia.
Qed.

Lemma sign_bit_set k :
  length k = 32%nat -> Spec.sign_bit k = true -> 2 ^ 255 <= le_decode k.
Proof.
  unfold Spec.sign_bit. intros H Hb.
  pose proof (le_decode_32_range k H) as [H0 H1].
  apply Z.testbit_true in Hb; [ | lia ].
  destruct (Z_lt_le_dec (le_decode k) (2 ^ 255)) as [Hlt | Hle]; [ | exact Hle ].
  rewrite Z.div_small in Hb by lia. discriminate Hb.
Qed.

Lemma masked_y_clear k :
  length k = 32%nat -> Spec.sign_bit k = false -> Spec.masked_y k = le_decode k.
Proof.
  intros H Hb. unfold Spec.masked_y.
  pose proof (le_decode_32_range k H) as [H0 _].
  pose proof (sign_bit_clear k H Hb).
  rewrite Z.land_ones by lia. apply Z.mod_small. lia.
Qed.

(** Every encoding with the sign bit set is refused as non-canonical. *)
Lemma converter_sign_bit_set k :
  length k = 32%nat -> Spec.sign_bit k = true ->
  ed25519ToX25519PublicKey k = invalid_key.
Proof.
  intros H Hb. apply converter_noncanonical; [ exact H | ].
  pose proof (sign_bit_set k H Hb). rewrite p_eq. lia.
Qed.

(** The inverse of the denominator [p - y + 1] is an inverse of [1 - y]. *)
Lemma inverse_of_one_minus y i :
  (i * (p - y + 1)) mod p = 1 -> (i * (1 - y)) mod p = 1.
Proof.
  intros H. replace (i * (p - y + 1)) with (i * (1 - y) + i * p) in H by ring.
  rewrite Z.mod_add in H; [ exact H | ].
  pose proof (Z.prime_ge_2 p p_prime). lia.
Qed.

(** On the encodings whose top (sign) bit is clear the converter is the map
    of the specification: it reads the bytes in reversed order as the value
    [y] of the remaining 255 bits, refuses [y >= p] and the degenerate
    [y = 1] with the invalid-key error, and for every other [y] returns the
    32-byte little-endian serialization of
    [u = (1 + y) * (1 - y)^(-1) mod p], [p = 2^255 - 19], where the inverse
    [i] satisfies [i * (1 - y) = 1 (mod p)] exactly, over the integers. *)
Lemma converter_birational (k : list byte) :
  length k = 32%nat ->
  Spec.sign_bit k = false ->
  let y := Spec.masked_y k in
  (Spec.p <= y -> ed25519ToX25519PublicKey k = invalid_key)
  /\ (y = 1 -> ed25519ToX25519PublicKey k = invalid_key)
  /\ (y < Spec.p -> y <> 1 ->
      exists i r,
        0 <= i < Spec.p
        /\ (i * (1 - y)) mod Spec.p = 1
        /\ ed25519ToX25519PublicKey k = Ok r
        /\ length r = 32%nat
        /\ le_decode r = ((1 + y) * i) mod Spec.p).
Proof.
  intros H Hb y. unfold y. rewrite (masked_y_clear k H Hb).
  change Spec.p with (2 ^ 255 - 19). rewrite <- p_eq.
  split; [ | split ].
  - intros Hy. apply converter_noncanonical; assumption.
  - intros Hy. apply converter_degenerate; assumption.
  - intros Hy Hy1.
    destruct (converter_accepts k H Hy Hy1) as (i & r & Hi & Hr & Hlen & Hu).
    exists i, r.
    destruct (ModInverse_prime_nondivisor (p - le_decode k + 1))
      as (i' & Hi' & Hrange & Hinv).
    { intros [c Hc]. pose proof (le_decode_range k) as [Hy0 _].
      pose proof (Z.prime_ge_2 p p_prime).
      assert (Hcases : c = 1 \/ c <= 0 \/ 2 <= c) by lia.
      destruct Hcases as [-> | [Hc0 | Hc2]]; nia. }
    rewrite Hi in Hi'. injection Hi' as <-.
    repeat split; try assumption; try lia.
    + apply inverse_of_one_minus. exact Hinv.
    + rewrite Hu. f_equal. ring.
Qed.

Definition basepoint_y : list byte := x58 :: repeat x66 31.

(** The public key of RFC 8032, section 7.1, TEST SHA(abc), with its sign
    bit cleared by hand: the last byte is 0x3f instead of 0xbf. *)
Definition rfc_public_abc_masked : list byte :=
  Eval vm_compute in
    Vectors.unhex
      "ec172b93ad5e563bf4932c70e1245034c35467ef2efd4d64ebf819683467e23f".

(** C1 (the mask is missing).  The converter never clears the sign bit: it
    reads all 256 bits, so every 32-byte encoding whose sign bit is set is
    read as a value of at least [2^255 > p] and refused.  The Ed25519 public
    key of the seed 833f..3d42 (RFC 8032, TEST SHA(abc)) is such an
    encoding: the value [y] of its remaining 255 bits is below [p] and is
    not 1, so the claim promises the coordinate
    [u = (1 + y) * (1 - y)^(-1) mod p]; the converter returns the
    invalid-key error instead.  Given the same key with the sign bit cleared
    by hand, it returns exactly that coordinate. *)
Theorem C1_sign_bit_not_masked :
  Reference.ed25519_public Vectors.rfc_seed_abc = Vectors.rfc_public_abc
  /\ length Vectors.rfc_public_abc = 32%nat
  /\ Spec.sign_bit Vectors.rfc_public_abc = true
  /\ Spec.masked_y Vectors.rfc_public_abc < Spec.p
  /\ Spec.masked_y Vectors.rfc_public_abc <> 1
  /\ ed25519ToX25519PublicKey Vectors.rfc_public_abc
     = Err "invalid ed25519 public key"
  /\ le_decode rfc_public_abc_masked = Spec.masked_y Vectors.rfc_public_abc
  /\ (exists i r,
        0 <= i < Spec.p
        /\ (i * (1 - Spec.masked_y Vectors.rfc_public_abc)) mod Spec.p = 1
        /\ ed25519ToX25519PublicKey rfc_public_abc_masked = Ok r
        /\ length r = 32%nat
        /\ le_decode r
           = ((1 + Spec.masked_y Vectors.rfc_public_abc) * i) mod Spec.p)
  /\ (forall k : list byte,
        length k = 32%nat -> Spec.sign_bit k = true ->
        ed25519ToX25519PublicKey k = Err "invalid ed25519 public key").
Proof.
  assert (Hm : le_decode rfc_public_abc_masked
               = Spec.masked_y Vectors.rfc_public_abc)
    by (vm_compute; reflexivity).
  assert (Hc : Spec.masked_y rfc_public_abc_masked
               = Spec.masked_y Vectors.rfc_public_abc)
    by (vm_compute; reflexivity).
  split; [ exact Vectors.ed25519_public_rfc_abc | ].
  split; [ reflexivity | ].
  split; [ vm_compute; reflexivity | ].
  split; [ vm_compute; reflexivity | ].
  split; [ vm_compute; discriminate | ].
  split; [ apply converter_sign_bit_set; vm_compute; reflexivity | ].
  split; [ exact Hm | ].
  split; [ | intros k Hk Hb; apply converter_sign_bit_set; assumption ].
  rewrite <- Hc.
  refine (proj2 (proj2 (converter_birational rfc_public_abc_masked
                          eq_refl _)) _ _).
  - vm_compute. reflexivity.
  - vm_compute. reflexivity.
  - vm_compute. discriminate.
Qed.

(** C7 (degenerate point).  A canonical encoding whose denominator
    [(1 - y) mod p] is zero encodes [y = 1], the modular inverse of the
    denominator the converter computes does not exist, and the converter
    fails with the invalid-key error instead of returning a coordinate. *)
Theorem C7_degenerate_rejected (k : list byte) :
  length k = 32%nat ->
  le_decode k < p ->
  (1 - le_decode k) mod p = 0 ->
  le_decode k = 1
  /\ ModInverse (p - le_decode k + 1) p = None
  /\ ed25519ToX25519PublicKey k = Err "invalid ed25519 public key".
Proof.
  intros H Hy Hden.
  pose proof (le_decode_range k) as [Hy0 _].
  pose proof (Z.prime_ge_2 p p_prime) as Hp.
  assert (Hy1 : le_decode k = 1).
  { apply Z.mod_divide in Hden; [ | lia ]. destruct Hden as [c Hc].
    assert (Hcases : c = 0 \/ c <= -1 \/ 1 <= c) by lia.
    destruct Hcases as [-> | [Hc0 | Hc1]]; nia. }
  split; [ exact Hy1 | split ].
  - rewrite Hy1. replace (p - 1 + 1) with p by lia.
    apply ModInverse_not_coprime; [ lia | ].
    rewrite Z.gcd_diag, Z.abs_eq; lia.
  - apply converter_degenerate; assumption.
Qed.

Lemma C7_degenerate_rejected_witness :
  ed25519ToX25519PublicKey (x01 :: repeat x00 31)
  = Err "invalid ed25519 public key".
Proof.
  refine (proj2 (proj2
            (C7_degenerate_rejected (x01 :: repeat x00 31) eq_refl _ _)));
    vm_compute; reflexivity.
Defined.

(** C10 (reachability of the error branches).  For a canonical input
    ([0 <= y < p]) the denominator [p - y + 1], taken without reduction,
    lies in [2, p + 1], so the test for a zero denominator is never taken;
    the modular inverse is missing exactly for [y = 1], which is refused; for
    every other [y] the converter returns 32 bytes. *)
Theorem C10_error_branches (k : list byte) :
  length k = 32%nat ->
  le_decode k < p ->
  let y := le_decode k in
  0 <= y
  /\ 2 <= p - y + 1 <= p + 1
  /\ (p - y + 1 =? 0) = false
  /\ (ModInverse (p - y + 1) p = None <-> y = 1)
  /\ (y = 1 -> ed25519ToX25519PublicKey k = invalid_key)
  /\ (y <> 1 -> exists r, ed25519ToX25519PublicKey k = Ok r
                          /\ length r = 32%nat).
Proof.
  intros H Hy y. unfold y. clear y.
  pose proof (le_decode_range k) as [Hy0 _].
  pose proof (Z.prime_ge_2 p p_prime) as Hp.
  split; [ exact Hy0 | ]. split; [ lia | ].
  split; [ apply Z.eqb_neq; lia | ].
  split; [ | split ].
  - split.
    + intros Hnone.
      destruct (Z.eq_dec (le_decode k) 1) as [E | N]; [ exact E | exfalso ].
      destruct (converter_accepts k H Hy N) as (i & _ & Hi & _).
      rewrite Hi in Hnone. discriminate Hnone.
    + intros E. rewrite E. replace (p - 1 + 1) with p by lia.
      apply ModInverse_not_coprime; [ lia | ].
    rewrite Z.gcd_diag, Z.abs_eq; lia.
  - intros E. apply converter_degenerate; assumption.
  - intros N.
    destruct (converter_accepts k H Hy N) as (i & r & _ & Hr & Hlen & _).
    exists r. split; assumption.
Qed.

Lemma C10_error_branches_witness :
  exists r, ed25519ToX25519PublicKey basepoint_y = Ok r /\ length r = 32%nat.
Proof.
  refine (proj2 (proj2 (proj2 (proj2 (proj2
            (C10_error_branches basepoint_y eq_refl _))))) _).
  - vm_compute. reflexivity.
  - vm_compute. discriminate.
Defined.

End ConverterClaims.

(** * Key pairs *)
Module KeyPairFacts.
Import Slice BytesFacts ConverterFacts.

(** [ed25519.NewKeyFromSeed] of golang.org/x/crypto on the reference
    primitive: the seed followed by its public key. *)
Definition reference_NewKeyFromSeed (seed : list byte) : list byte :=
  seed ++ Reference.ed25519_public seed.

Lemma copy_make_self l : copy (make (length l)) l = l.
Proof.
  unfold copy, make. rewrite repeat_length, firstn_all.
  rewrite skipn_all2 by (rewrite repeat_length; lia).
  apply app_nil_r.
Qed.

Lemma copy_same_length a b : length a = length b -> copy a b = b.
Proof.
  intros H. unfold copy. rewrite H, firstn_all.
  rewrite skipn_all2 by lia. apply app_nil_r.
Qed.

Lemma Public_of_pair seed pub :
  length seed = 32%nat -> length pub = 32%nat ->
  GoBigInt.Public (seed ++ pub) = pub.
Proof.
  intros Hs Hp. unfold GoBigInt.Public.
  rewrite skipn_app, Hs, skipn_all2 by lia.
  cbn [Nat.sub skipn app]. apply copy_make_32. exact Hp.
Qed.

Lemma copyBytesFromJS_ok value : GoWasm.copyBytesFromJS value = Ok value.
Proof.
  unfold GoWasm.copyBytesFromJS. rewrite Nat.min_id, Nat.eqb_refl.
  cbn [negb]. rewrite copy_make_self. reflexivity.
Qed.

Section Library.

Variable NewKeyFromSeed : list byte -> list byte.

(** When the converter accepts the public key of the seed, the big-integer
    [createKeyPair] returns at once, whatever the random source holds. *)
Lemma createKeyPair_accepted rand seed u :
  length seed = 32%nat ->
  GoBigInt.ed25519ToX25519PublicKey (GoBigInt.Public (NewKeyFromSeed seed))
  = Ok u ->
  GoBigInt.createKeyPair NewKeyFromSeed rand seed
  = Some (Ok {| GoBigInt.pubKey :=
                  x05 :: copy (make 32) (GoBigInt.Public (NewKeyFromSeed seed));
                GoBigInt.privKey := seed |}).
Proof.
  intros Hs Hu. unfold GoBigInt.createKeyPair, GoBigInt.validatePrivKey.
  rewrite Hs. cbn [Nat.eqb negb]. unfold GoBigInt.SeedSize.
  rewrite copy_make_32 by exact Hs.
  destruct rand as [| r rand]; cbn [GoBigInt.createKeyPair_loop];
    rewrite Hu; reflexivity.
Qed.

(** When the converter refuses it, the seed is overwritten by the next 32
    random bytes and the call continues as if it had been given those. *)
Lemma createKeyPair_redraws rand seed bytes msg :
  length seed = 32%nat -> length bytes = 32%nat ->
  GoBigInt.ed25519ToX25519PublicKey (GoBigInt.Public (NewKeyFromSeed seed))
  = Err msg ->
  GoBigInt.createKeyPair NewKeyFromSeed (GoBigInt.ReadOk bytes :: rand) seed
  = GoBigInt.createKeyPair NewKeyFromSeed rand bytes.
Proof.
  intros Hs Hb He. unfold GoBigInt.createKeyPair, GoBigInt.validatePrivKey.
  rewrite Hs, Hb. cbn [Nat.eqb negb]. unfold GoBigInt.SeedSize.
  rewrite !copy_make_32 by assumption.
  cbn [GoBigInt.createKeyPair_loop]. rewrite He.
  rewrite (copy_same_length seed bytes) by lia.
  rewrite (copy_same_length seed bytes) by lia.
  reflexivity.
Qed.

(** The synchronous wrapper hands the library's private key through. *)
Lemma WasmSync_createKeyPair seed :
  length seed = 32%nat ->
  WasmSync.createKeyPair NewKeyFromSeed (JS.Buffer seed)
  = JS.Return
      {| JS.pubKey :=
           JS.Buffer
             (x05 :: copy (make 32) (GoBigInt.Public (NewKeyFromSeed seed)));
         JS.privKey := JS.Buffer (NewKeyFromSeed seed) |}.
Proof.
  intros Hs. unfold WasmSync.createKeyPair.
  rewrite JSFacts.validatePrivKey_buffer by exact Hs. cbn [JS.bind JS.bytes_of].
  unfold GoWasm.createKeyPair. rewrite copyBytesFromJS_ok, Hs. reflexivity.
Qed.

End Library.

Lemma reference_Public seed :
  length seed = 32%nat ->
  GoBigInt.Public (reference_NewKeyFromSeed seed)
  = Reference.ed25519_public seed.
Proof.
  intros H. apply Public_of_pair;
    [ exact H | apply ReferenceFacts.length_ed25519_public ].
Qed.

End KeyPairFacts.

Module KeyPairClaims.
Import Slice BytesFacts ConverterFacts KeyPairFacts Vectors.

Lemma Public_rfc_abc :
  GoBigInt.Public (reference_NewKeyFromSeed rfc_seed_abc) = rfc_public_abc.
Proof.
  rewrite reference_Public by reflexivity. exact ed25519_public_rfc_abc.
Qed.

Lemma converter_rfc_abc :
  GoBigInt.ed25519ToX25519PublicKey rfc_public_abc
  = Err "invalid ed25519 public key".
Proof. vm_compute. reflexivity. Qed.

(** C3 at the seed of RFC 8032's TEST SHA(abc), evaluated on the reference
    Ed25519.  Its public key ec17..e2bf has the sign bit set and the
    converter refuses it, so the big-integer [createKeyPair] overwrites the
    seed with the next 32 bytes [bytes] of the random source and carries on
    as a call on [bytes]: when the key of [bytes] converts, the key pair of
    [bytes] is returned, with [privKey = bytes]; two calls on the same seed
    that draw different bytes return different key pairs; when the random
    source fails, its error is returned. *)
Theorem C3_createKeyPair_redraws_seed :
  GoBigInt.Public (reference_NewKeyFromSeed rfc_seed_abc) = rfc_public_abc
  /\ Spec.sign_bit rfc_public_abc = true
  /\ GoBigInt.ed25519ToX25519PublicKey rfc_public_abc
     = Err "invalid ed25519 public key"
  /\ (forall rand bytes,
        length bytes = 32%nat ->
        GoBigInt.createKeyPair reference_NewKeyFromSeed
          (GoBigInt.ReadOk bytes :: rand) rfc_seed_abc
        = GoBigInt.createKeyPair reference_NewKeyFromSeed rand bytes)
  /\ (forall rand bytes u,
        length bytes = 32%nat ->
        GoBigInt.ed25519ToX25519PublicKey (Reference.ed25519_public bytes)
        = Ok u ->
        GoBigInt.createKeyPair reference_NewKeyFromSeed
          (GoBigInt.ReadOk bytes :: rand) rfc_seed_abc
        = Some (Ok {| GoBigInt.pubKey := x05 :: Reference.ed25519_public bytes;
                      GoBigInt.privKey := bytes |}))
  /\ (forall rand1 rand2 bytes1 bytes2 u1 u2,
        length bytes1 = 32%nat -> length bytes2 = 32%nat ->
        GoBigInt.ed25519ToX25519PublicKey (Reference.ed25519_public bytes1)
        = Ok u1 ->
        GoBigInt.ed25519ToX25519PublicKey (Reference.ed25519_public bytes2)
        = Ok u2 ->
        bytes1 <> bytes2 ->
        GoBigInt.createKeyPair reference_NewKeyFromSeed
          (GoBigInt.ReadOk bytes1 :: rand1) rfc_seed_abc
        <> GoBigInt.createKeyPair reference_NewKeyFromSeed
             (GoBigInt.ReadOk bytes2 :: rand2) rfc_seed_abc)
  /\ GoBigInt.createKeyPair reference_NewKeyFromSeed
       [GoBigInt.ReadErr "entropy source failed"] rfc_seed_abc
     = Some (Err "entropy source failed")
  /\ GoBigInt.createKeyPair reference_NewKeyFromSeed [] rfc_seed_abc = None.
Proof.
  assert (Hredraw : forall rand bytes,
             length bytes = 32%nat ->
             GoBigInt.createKeyPair reference_NewKeyFromSeed
               (GoBigInt.ReadOk bytes :: rand) rfc_seed_abc
             = GoBigInt.createKeyPair reference_NewKeyFromSeed rand bytes).
  { intros rand bytes Hb.
    apply (createKeyPair_redraws _ _ _ _ "invalid ed25519 public key");
      [ reflexivity | exact Hb | ].
    rewrite Public_rfc_abc. exact converter_rfc_abc. }
  assert (Hdraw : forall rand bytes u,
             length bytes = 32%nat ->
             GoBigInt.ed25519ToX25519PublicKey (Reference.ed25519_public bytes)
             = Ok u ->
             GoBigInt.createKeyPair reference_NewKeyFromSeed
               (GoBigInt.ReadOk bytes :: rand) rfc_seed_abc
             = Some (Ok {| GoBigInt.pubKey :=
                             x05 :: Reference.ed25519_public bytes;
                           GoBigInt.privKey := bytes |})).
  { intros rand bytes u Hb Hu. rewrite Hredraw by exact Hb.
    rewrite (createKeyPair_accepted _ _ _ u);
      [ | exact Hb | rewrite reference_Public by exact Hb; exact Hu ].
    rewrite reference_Public by exact Hb.
    rewrite copy_make_32 by apply ReferenceFacts.length_ed25519_public.
    reflexivity. }
  split; [ exact Public_rfc_abc | ].
  split; [ vm_compute; reflexivity | ].
  split; [ exact converter_rfc_abc | ].
  split; [ exact Hredraw | ].
  split; [ exact Hdraw | ].
  split; [ | split ].
  - intros rand1 rand2 bytes1 bytes2 u1 u2 H1 H2 Hu1 Hu2 Hne.
    rewrite (Hdraw rand1 bytes1 u1 H1 Hu1), (Hdraw rand2 bytes2 u2 H2 Hu2).
    intros E. injection E as _ E. contradiction.
  - unfold GoBigInt.createKeyPair.
    change (GoBigInt.validatePrivKey rfc_seed_abc) with (@Ok unit tt).
    cbn iota. unfold GoBigInt.SeedSize.
    rewrite copy_make_32 by reflexivity.
    cbn [GoBigInt.createKeyPair_loop].
    rewrite Public_rfc_abc, converter_rfc_abc. reflexivity.
  - unfold GoBigInt.createKeyPair.
    change (GoBigInt.validatePrivKey rfc_seed_abc) with (@Ok unit tt).
    cbn iota. unfold GoBigInt.SeedSize.
    rewrite copy_make_32 by reflexivity.
    cbn [GoBigInt.createKeyPair_loop].
    rewrite Public_rfc_abc, converter_rfc_abc. reflexivity.
Qed.

(** C4 at the seed of RFC 8032's TEST SHA(abc), evaluated on the reference
    Ed25519: through the synchronous wrapper, [createKeyPair] of lib/main.go
    returns as [privKey] the library's 64-byte private key, the seed followed
    by the public key, not the 32-byte seed. *)
Theorem C4_privKey_is_expanded_key :
  WasmSync.createKeyPair reference_NewKeyFromSeed (JS.Buffer rfc_seed_abc)
  = JS.Return {| JS.pubKey := JS.Buffer (x05 :: rfc_public_abc);
                 JS.privKey := JS.Buffer (rfc_seed_abc ++ rfc_public_abc) |}
  /\ JS.byteLength (JS.Buffer (rfc_seed_abc ++ rfc_public_abc)) = Some 64%nat
  /\ JS.Buffer (rfc_seed_abc ++ rfc_public_abc) <> JS.Buffer rfc_seed_abc.
Proof.
  split; [ | split; [ reflexivity | vm_compute; discriminate ] ].
  rewrite WasmSync_createKeyPair by reflexivity.
  rewrite Public_rfc_abc. unfold reference_NewKeyFromSeed.
  rewrite ed25519_public_rfc_abc. reflexivity.
Qed.

End KeyPairClaims.

(** * The backends side by side *)
Module BackendFacts.
Import JS JSFacts.

Lemma CurveJs_createKeyPair generateKeyPair seed :
  length seed = 32%nat ->
  length (CurveJs.public (generateKeyPair seed)) = 32%nat ->
  CurveJs.createKeyPair generateKeyPair (Buffer seed)
  = Return {| pubKey := Buffer (x05 :: CurveJs.public (generateKeyPair seed));
              privKey := Buffer (CurveJs.private (generateKeyPair seed)) |}.
Proof.
  intros Hs Hp. unfold CurveJs.createKeyPair.
  rewrite validatePrivKey_buffer by exact Hs. cbn [bind bytes_of].
  rewrite tag_public_key_32 by exact Hp. reflexivity.
Qed.





End BackendFacts.

Module BackendClaims.
Import JS JSFacts BackendFacts Vectors.






End BackendClaims.

(** * The converter as a map: totality, inverse and injectivity *)
Module ConverterProperties.
Import Slice big Spec BytesFacts GoBigInt ConverterFacts.

Lemma byte_val_inj a b : byte_val a = byte_val b -> a = b.
Proof.
  unfold byte_val. intros H. apply N2Z.inj in H.
  pose proof (Byte.of_to_N a) as Ha. rewrite H, Byte.of_to_N in Ha.
  injection Ha as Ha. symmetry. exact Ha.
Qed.

Lemma le_decode_inj : forall a b,
  length a = length b -> le_decode a = le_decode b -> a = b.
Proof.
  induction a as [| x a IH]; intros [| y b] Hl H; try discriminate Hl.
  - reflexivity.
  - cbn [le_decode] in H. cbn [length] in Hl.
    pose proof (byte_val_range x). pose proof (byte_val_range y).
    assert (Hxy : byte_val x = byte_val y) by lia.
    f_equal; [ apply byte_val_inj; exact Hxy | ].
    apply IH; lia.
Qed.

Lemma p_odd_large : 3 <= p.
Proof. rewrite p_eq. vm_compute. discriminate. Qed.

Lemma cong_divide a b : a mod p = b mod p <-> (p | a - b).
Proof.
  pose proof p_odd_large as Hp. rewrite Z.cong_iff_0. split.
  - intros H. apply Z.mod_divide; [ lia | exact H ].
  - intros H. apply Z.mod_divide; [ lia | exact H ].
Qed.

(** What an accepted key tells: its shape, and that of the result. *)
Lemma converter_ok_inv k r :
  ed25519ToX25519PublicKey k = Ok r ->
  length k = 32%nat /\ le_decode k < p /\ le_decode k <> 1.
Proof.
  intros H.
  destruct (Nat.eq_dec (length k) 32) as [E | N];
    [ | rewrite converter_wrong_length in H by exact N; discriminate H ].
  split; [ exact E | ].
  destruct (Z_lt_le_dec (le_decode k) p) as [Hlt | Hge];
    [ | rewrite converter_noncanonical in H by assumption;
        unfold invalid_key in H; discriminate H ].
  split; [ exact Hlt | ].
  intros E1. rewrite converter_degenerate in H by assumption.
  unfold invalid_key in H. discriminate H.
Qed.

(** The result [u] of an accepted key [y] satisfies [u * (1 - y) = 1 + y]
    modulo [p]. *)
Lemma converter_relation k r :
  ed25519ToX25519PublicKey k = Ok r ->
  length r = 32%nat
  /\ 0 <= le_decode r < p
  /\ (le_decode r * (1 - le_decode k)) mod p = (le_decode k + 1) mod p.
Proof.
  intros H. destruct (converter_ok_inv k r H) as (Hk & Hy & Hy1).
  destruct (converter_accepts k Hk Hy Hy1) as (i & r' & Hi & Hr & Hlen & Hu).
  rewrite H in Hr. injection Hr as <-.
  pose proof p_odd_large as Hp.
  pose proof (ModInverse_spec (p - le_decode k + 1) p ltac:(lia)) as S.
  rewrite Hi in S. destruct S as (_ & _ & Hinv).
  assert (Hinv' : (i * (1 - le_decode k)) mod p = 1).
  { replace (i * (p - le_decode k + 1))
      with (i * (1 - le_decode k) + i * p) in Hinv by ring.
    rewrite Z.mod_add in Hinv by lia. exact Hinv. }
  split; [ exact Hlen | ]. split.
  - rewrite Hu. apply Z.mod_pos_bound. lia.
  - rewrite Hu, Z.mul_mod_idemp_l by lia.
    replace ((le_decode k + 1) * i * (1 - le_decode k))
      with ((le_decode k + 1) * (i * (1 - le_decode k))) by ring.
    rewrite <- Z.mul_mod_idemp_r, Hinv', Z.mul_1_r by lia. reflexivity.
Qed.

(** The result is never [p - 1]: [u + 1] is invertible modulo [p]. *)
Lemma converter_result_not_minus_one k r :
  ed25519ToX25519PublicKey k = Ok r -> ~ (p | le_decode r + 1).
Proof.
  intros H [c Hc]. destruct (converter_relation k r H) as (_ & _ & Hrel).
  apply cong_divide in Hrel. destruct Hrel as [e He].
  pose proof p_odd_large as Hp.
  assert (Hdiv : (p | 2)).
  { exists (c * (1 - le_decode k) - e).
    replace (le_decode r) with (c * p - 1) in He by lia.
    rewrite Z.mul_sub_distr_r, <- He. ring. }
  apply Z.divide_pos_le in Hdiv; lia.
Qed.

(** X1.  The converter never panics (the offset [32 - len(uBytes)] of its
    last copy is never negative), and it accepts exactly the 32-byte
    little-endian encodings of the values [y < p] other than 1: a wrong
    length gives the length error, every other refused input the
    invalid-key error, and a result always has 32 bytes and encodes a
    reduced value. *)
Theorem X1_converter_total (k : list byte) :
  ed25519ToX25519PublicKey k <> Panic
  /\ ((exists r, ed25519ToX25519PublicKey k = Ok r)
      <-> length k = 32%nat /\ le_decode k < p /\ le_decode k <> 1)
  /\ (ed25519ToX25519PublicKey k = Err "invalid ed25519 public key length"
      <-> length k <> 32%nat)
  /\ (ed25519ToX25519PublicKey k = Err "invalid ed25519 public key"
      <-> length k = 32%nat /\ (p <= le_decode k \/ le_decode k = 1))
  /\ (forall r, ed25519ToX25519PublicKey k = Ok r ->
                length r = 32%nat /\ 0 <= le_decode r < p).
Proof.
  assert (Hcases :
            (length k <> 32%nat
             /\ ed25519ToX25519PublicKey k
                = Err "invalid ed25519 public key length")
            \/ (length k = 32%nat /\ (p <= le_decode k \/ le_decode k = 1)
                /\ ed25519ToX25519PublicKey k
                   = Err "invalid ed25519 public key")
            \/ (length k = 32%nat /\ le_decode k < p /\ le_decode k <> 1
                /\ exists r, ed25519ToX25519PublicKey k = Ok r)).
  { destruct (Nat.eq_dec (length k) 32) as [E | N];
      [ | left; split; [ exact N | apply converter_wrong_length; exact N ] ].
    right.
    destruct (Z_lt_le_dec (le_decode k) p) as [Hlt | Hge];
      [ | left; split; [ exact E | split; [ left; exact Hge | ] ];
          apply converter_noncanonical; assumption ].
    destruct (Z.eq_dec (le_decode k) 1) as [E1 | N1];
      [ left; split; [ exact E | split; [ right; exact E1 | ] ];
        apply converter_degenerate; assumption | ].
    right. split; [ exact E | split; [ exact Hlt | split; [ exact N1 | ] ] ].
    destruct (converter_accepts k E Hlt N1) as (i & r & _ & Hr & _).
    exists r. exact Hr. }
  split; [ | split; [ | split; [ | split ] ] ].
  - destruct Hcases as [[_ H] | [(_ & _ & H) | (_ & _ & _ & r & H)]];
      rewrite H; discriminate.
  - split.
    + intros [r Hr]. apply (converter_ok_inv k r Hr).
    + intros (E & Hlt & N1).
      destruct (converter_accepts k E Hlt N1) as (i & r & _ & Hr & _).
      exists r. exact Hr.
  - split.
    + intros H.
      destruct Hcases as [[N _] | [(_ & _ & H') | (_ & _ & _ & r & H')]];
        [ exact N | | ]; rewrite H' in H; discriminate H.
    + apply converter_wrong_length.
  - split.
    + intros H.
      destruct Hcases as [[_ H'] | [(E & Hy & _) | (_ & _ & _ & r & H')]];
        [ rewrite H' in H; discriminate H
        | split; assumption
        | rewrite H' in H; discriminate H ].
    + intros (E & [Hge | E1]);
        [ apply converter_noncanonical | apply converter_degenerate ];
        assumption.
  - intros r Hr. destruct (converter_relation k r Hr) as (Hl & Hu & _).
    split; assumption.
Qed.

(** X2.  The converter is one half of the birational map: from a result
    [u] the key [y] it came from is recovered as [(u - 1) / (u + 1)], that
    is, [y * (u + 1) = u - 1] modulo [p], where [u + 1] is not a multiple of
    [p] and is therefore invertible. *)
Theorem X2_converter_inverse (k r : list byte) :
  ed25519ToX25519PublicKey k = Ok r ->
  let y := le_decode k in
  let u := le_decode r in
  0 <= u < p
  /\ u <> p - 1
  /\ Z.gcd (u + 1) p = 1
  /\ (y * (u + 1)) mod p = (u - 1) mod p.
Proof.
  intros H y u. unfold y, u. clear y u.
  destruct (converter_relation k r H) as (_ & Hu & Hrel).
  pose proof (converter_result_not_minus_one k r H) as Hne.
  pose proof p_odd_large as Hp.
  split; [ exact Hu | ]. split; [ | split ].
  - intros E. apply Hne. exists 1. lia.
  - rewrite Z.gcd_comm. apply Z.coprime_prime_l; [ exact p_prime | exact Hne ].
  - apply cong_divide. apply cong_divide in Hrel. destruct Hrel as [e He].
    exists (- e). lia.
Qed.

Definition basepoint : list byte := x58 :: repeat x66 31.

Lemma X2_converter_inverse_witness :
  exists r,
    ed25519ToX25519PublicKey basepoint = Ok r
    /\ (le_decode basepoint * (le_decode r + 1)) mod p
       = (le_decode r - 1) mod p.
Proof.
  destruct (converter_accepts basepoint eq_refl) as (i & r & _ & Hr & _).
  - vm_compute. reflexivity.
  - vm_compute. discriminate.
  - exists r. split; [ exact Hr | ].
    exact (proj2 (proj2 (proj2 (X2_converter_inverse basepoint r Hr)))).
Defined.

(** X3.  The converter is injective on the keys it accepts: two keys with
    the same result are the same 32 bytes.  (A key and its twin with the top
    bit set never collide, since the twin is refused.) *)
Theorem X3_converter_injective (k1 k2 r : list byte) :
  ed25519ToX25519PublicKey k1 = Ok r ->
  ed25519ToX25519PublicKey k2 = Ok r ->
  k1 = k2.
Proof.
  intros H1 H2.
  destruct (converter_ok_inv k1 r H1) as (L1 & Y1 & _).
  destruct (converter_ok_inv k2 r H2) as (L2 & Y2 & _).
  destruct (converter_relation k1 r H1) as (_ & _ & R1).
  destruct (converter_relation k2 r H2) as (_ & _ & R2).
  pose proof (converter_result_not_minus_one k1 r H1) as Hne.
  apply cong_divide in R1. apply cong_divide in R2.
  destruct R1 as [e1 E1]. destruct R2 as [e2 E2].
  assert (Hdiv : (p | (le_decode r + 1) * (le_decode k2 - le_decode k1))).
  { exists (e1 - e2). lia. }
  apply (Z.divide_prime_mul _ _ _ p_prime) in Hdiv.
  destruct Hdiv as [Hdiv | Hdiv]; [ contradiction | ].
  pose proof (le_decode_range k1) as [P1 _].
  pose proof (le_decode_range k2) as [P2 _].
  apply le_decode_inj; [ lia | ].
  destruct Hdiv as [c Hc].
  assert (Hc0 : c = 0) by nia. lia.
Qed.

Definition two : list byte := x02 :: repeat x00 31.

Lemma X3_converter_injective_witness :
  exists r1 r2,
    ed25519ToX25519PublicKey basepoint = Ok r1
    /\ ed25519ToX25519PublicKey two = Ok r2
    /\ r1 <> r2.
Proof.
  destruct (converter_accepts basepoint eq_refl) as (i1 & r1 & _ & Hr1 & _);
    [ vm_compute; reflexivity | vm_compute; discriminate | ].
  destruct (converter_accepts two eq_refl) as (i2 & r2 & _ & Hr2 & _);
    [ vm_compute; reflexivity | vm_compute; discriminate | ].
  exists r1, r2. split; [ exact Hr1 | split; [ exact Hr2 | ] ].
  intros E. rewrite <- E in Hr2.
  pose proof (X3_converter_injective basepoint two r1 Hr1 Hr2) as Hk.
  discriminate Hk.
Defined.

End ConverterProperties.

(** * The big-integer backend: key pairs, agreement and verification *)
Module BigIntFacts.
Import Slice big Spec BytesFacts GoBigInt GoBigIntOps ConverterFacts.
Import ConverterProperties.

Lemma copy_length dst src : length (copy dst src) = length dst.
Proof.
  unfold copy. rewrite length_app, length_firstn, length_skipn. lia.
Qed.

Lemma upd_length : forall i v l, length (upd i v l) = length l.
Proof.
  intros i v l. revert i. induction l as [| h t IH]; intros [| i]; cbn;
    try reflexivity. rewrite IH. reflexivity.
Qed.

Lemma upd_last : forall l v z, upd (length l) v (l ++ [z]) = l ++ [v].
Proof.
  induction l as [| h t IH]; intros v z; cbn; [ reflexivity | ].
  rewrite IH. reflexivity.
Qed.

Lemma Public_length priv : length (Public priv) = 32%nat.
Proof. unfold Public. rewrite copy_length. reflexivity. Qed.

Lemma converter_never_panics k : ed25519ToX25519PublicKey k <> Panic.
Proof.
  destruct (Nat.eq_dec (length k) 32) as [E | N];
    [ | rewrite converter_wrong_length by exact N; discriminate ].
  destruct (Z_lt_le_dec (le_decode k) p) as [Hlt | Hge];
    [ | rewrite converter_noncanonical by assumption; discriminate ].
  destruct (Z.eq_dec (le_decode k) 1) as [E1 | N1];
    [ rewrite converter_degenerate by assumption; discriminate | ].
  destruct (converter_accepts k E Hlt N1) as (i & r & _ & Hr & _).
  rewrite Hr. discriminate.
Qed.

(** The Go codec: what [scrubPubKeyFormat] returns, and when. *)
Lemma scrubPubKeyFormat_cases pubKey :
  (exists k, length k = 32%nat /\ (pubKey = x05 :: k \/ pubKey = k)
             /\ scrubPubKeyFormat pubKey = Ok k)
  \/ (scrubPubKeyFormat pubKey = Err "invalid public key"
      /\ length pubKey <> 32%nat
      /\ forall k, length k = 32%nat -> pubKey <> x05 :: k).
Proof.
  unfold scrubPubKeyFormat.
  destruct (Nat.eqb_spec (length pubKey) 33) as [E33 | N33].
  - destruct pubKey as [| b k]; [ discriminate E33 | ].
    cbn [nth andb]. destruct (Byte.eqb b x05) eqn:Eb.
    + apply Byte.byte_dec_bl in Eb. subst b. left. exists k.
      cbn [length] in E33. split; [ lia | ]. split; [ left | ]; reflexivity.
    + right. destruct (Nat.eqb_spec (length (b :: k)) 32) as [E32 | _];
        [ lia | ].
      split; [ reflexivity | ]. split; [ lia | ].
      intros k' _ E. injection E as E _. subst b. discriminate Eb.
  - cbn [andb]. destruct (Nat.eqb_spec (length pubKey) 32) as [E32 | N32].
    + left. exists pubKey. split; [ exact E32 | ]. split; [ right | ];
        reflexivity.
    + right. split; [ reflexivity | ]. split; [ exact N32 | ].
      intros k Hk E. subst pubKey. cbn [length] in N33. lia.
Qed.

Lemma go_scrubPubKeyFormat_tagged k :
  length k = 32%nat -> scrubPubKeyFormat (x05 :: k) = Ok k.
Proof.
  intros H. unfold scrubPubKeyFormat. cbn [length nth skipn]. rewrite H.
  reflexivity.
Qed.

Lemma go_scrubPubKeyFormat_bare k :
  length k = 32%nat -> scrubPubKeyFormat k = Ok k.
Proof.
  intros H. unfold scrubPubKeyFormat. rewrite H. reflexivity.
Qed.

(** ** Clamping *)

Lemma band_248 b : exists q, byte_val (band b 248) = 8 * q.
Proof.
  exists (byte_val (band b 248) / 8). destruct b; vm_compute; reflexivity.
Qed.

Lemma clamp_high b : 64 <= byte_val (bor (band b 127) 64) < 128.
Proof. destruct b; vm_compute; split; congruence. Qed.

Lemma split_32 (l : list byte) :
  length l = 32%nat ->
  exists a mid z, l = a :: mid ++ [z] /\ length mid = 30%nat.
Proof.
  intros H. destruct l as [| a t]; [ discriminate H | ].
  assert (Ht : t <> []) by (intros ->; discriminate H).
  destruct (exists_last Ht) as (mid & z & ->).
  exists a, mid, z. split; [ reflexivity | ].
  cbn [length] in H. rewrite length_app in H. cbn [length] in H. lia.
Qed.

Section Library.

Variable NewKeyFromSeed : list byte -> list byte.
Variable Sum512 : list byte -> list byte.
Variable X25519 : list byte -> list byte -> result (list byte).
Variable Verify : list byte -> list byte -> list byte -> bool.

Lemma scalar_shape privKey :
  exists a mid z,
    length mid = 30%nat
    /\ scalar Sum512 privKey
       = band a 248 :: mid ++ [bor (band z 127) 64].
Proof.
  unfold scalar. cbv zeta.
  destruct (split_32 (copy (make 32) (firstn 32 (Sum512 privKey))))
    as (a & mid & z & E & Hm); [ apply copy_length | ].
  rewrite E. exists a, mid, z. split; [ exact Hm | ].
  change (nth 0 (a :: mid ++ [z]) x00) with a.
  change (upd 0 (band a 248) (a :: mid ++ [z]))
    with (band a 248 :: mid ++ [z]).
  assert (H31 : forall (h v w : byte),
             upd 31 v (h :: mid ++ [w]) = h :: mid ++ [v]).
  { intros h v w.
    change (upd 31 v (h :: mid ++ [w])) with (h :: upd 30 v (mid ++ [w])).
    rewrite <- Hm. rewrite upd_last. reflexivity. }
  assert (N31 : forall (h w : byte), nth 31 (h :: mid ++ [w]) x00 = w).
  { intros h w.
    change (nth 31 (h :: mid ++ [w]) x00) with (nth 30 (mid ++ [w]) x00).
    rewrite <- Hm. apply nth_middle. }
  rewrite N31, H31, N31, H31. reflexivity.
Qed.

(** The key pairs the loop can return, and how it can fail. *)
Lemma createKeyPair_loop_outcome : forall rand seed,
  length seed = 32%nat ->
  match createKeyPair_loop NewKeyFromSeed rand seed seed with
  | Some (Ok kp) =>
      length (privKey kp) = 32%nat
      /\ pubKey kp = x05 :: Public (NewKeyFromSeed (privKey kp))
      /\ (exists u, ed25519ToX25519PublicKey
                      (Public (NewKeyFromSeed (privKey kp))) = Ok u)
      /\ (forall u, ed25519ToX25519PublicKey
                      (Public (NewKeyFromSeed seed)) = Ok u ->
                    privKey kp = seed)
  | Some (Err msg) => In (ReadErr msg) rand
  | Some Panic => False
  | None => Forall (fun r => exists bytes, r = ReadOk bytes) rand
  end.
Proof.
  induction rand as [| r rand IH]; intros seed Hs;
    cbn [createKeyPair_loop];
    destruct (ed25519ToX25519PublicKey (Public (NewKeyFromSeed seed)))
      as [u | msg |] eqn:Hc.
  - rewrite copy_make_32 by apply Public_length. cbn [privKey pubKey].
    repeat split; try assumption; try reflexivity. exists u. exact Hc.
  - constructor.
  - exact (converter_never_panics _ Hc).
  - rewrite copy_make_32 by apply Public_length. cbn [privKey pubKey].
    repeat split; try assumption; try reflexivity. exists u. exact Hc.
  - destruct r as [bytes | msg'].
    + rewrite (KeyPairFacts.copy_same_length seed (copy seed bytes))
        by (rewrite copy_length; reflexivity).
      specialize (IH (copy seed bytes)).
      rewrite copy_length in IH. specialize (IH Hs).
      destruct (createKeyPair_loop NewKeyFromSeed rand (copy seed bytes)
                  (copy seed bytes)) as [[kp | msg'' |] |].
      * destruct IH as (H1 & H2 & H3 & _).
        split; [ exact H1 | ]. split; [ exact H2 | ]. split; [ exact H3 | ].
        intros u Hu. discriminate Hu.
      * right. exact IH.
      * exact IH.
      * constructor; [ exists bytes; reflexivity | exact IH ].
    + left. reflexivity.
  - exact (converter_never_panics _ Hc).
Qed.

End Library.

End BigIntFacts.

Module BigIntProperties.
Import Slice big Spec BytesFacts GoBigInt GoBigIntOps ConverterFacts.
Import ConverterProperties BigIntFacts.

(** X4.  Whatever the random source does, the big-integer [createKeyPair]
    never panics and returns a consistent pair or a plain error: a returned
    [pubKey] is the tag 5 followed by the Ed25519 public key of the returned
    [privKey], 33 bytes in all, the converter accepts that key, and the
    returned [privKey] is the seed passed in whenever the converter accepts
    the seed's own key; an error is the length error (exactly when the seed
    has not 32 bytes) or the error of a failed [rand.Read]; the loop runs out
    of random outcomes only when none of them is a failure. *)
Theorem X4_createKeyPair_outcome :
  forall (NewKeyFromSeed : list byte -> list byte)
         (rand : list read) (seed : list byte),
    match createKeyPair NewKeyFromSeed rand seed with
    | Some (Ok kp) =>
        length seed = 32%nat
        /\ length (privKey kp) = 32%nat
        /\ pubKey kp = x05 :: Public (NewKeyFromSeed (privKey kp))
        /\ length (pubKey kp) = 33%nat
        /\ (exists u, ed25519ToX25519PublicKey
                        (Public (NewKeyFromSeed (privKey kp))) = Ok u)
        /\ (forall u, ed25519ToX25519PublicKey
                        (Public (NewKeyFromSeed seed)) = Ok u ->
                      privKey kp = seed)
    | Some (Err msg) =>
        (length seed <> 32%nat /\ msg = "incorrect private key length")
        \/ (length seed = 32%nat /\ In (ReadErr msg) rand)
    | Some Panic => False
    | None =>
        length seed = 32%nat
        /\ Forall (fun r => exists bytes, r = ReadOk bytes) rand
    end.
Proof.
  intros NewKeyFromSeed rand seed.
  unfold createKeyPair, validatePrivKey, SeedSize.
  destruct (Nat.eqb_spec (length seed) 32) as [E | N]; cbn [negb].
  - rewrite copy_make_32 by exact E.
    pose proof (createKeyPair_loop_outcome NewKeyFromSeed rand seed E) as H.
    destruct (createKeyPair_loop NewKeyFromSeed rand seed seed)
      as [[kp | msg |] |].
    + destruct H as (H1 & H2 & H3 & H4).
      split; [ exact E | ]. split; [ exact H1 | ]. split; [ exact H2 | ].
      split; [ rewrite H2; cbn [length]; rewrite Public_length; reflexivity | ].
      split; assumption.
    + right. split; assumption.
    + exact H.
    + split; assumption.
  - left. split; [ exact N | reflexivity ].
Qed.

(** X5.  [generateKeyPair] of the big-integer backend never fails on the
    key length and never panics: it returns a consistent pair (the tagged
    Ed25519 public key of the returned 32-byte [privKey], which the converter
    accepts), or the error of a failed [rand.Read]. *)
Theorem X5_generateKeyPair_outcome :
  forall (NewKeyFromSeed : list byte -> list byte) (rand : list read),
    match generateKeyPair NewKeyFromSeed rand with
    | Some (Ok kp) =>
        length (privKey kp) = 32%nat
        /\ pubKey kp = x05 :: Public (NewKeyFromSeed (privKey kp))
        /\ (exists u, ed25519ToX25519PublicKey
                        (Public (NewKeyFromSeed (privKey kp))) = Ok u)
    | Some (Err msg) => In (ReadErr msg) rand
    | Some Panic => False
    | None => Forall (fun r => exists bytes, r = ReadOk bytes) rand
    end.
Proof.
  intros NewKeyFromSeed rand. unfold generateKeyPair.
  destruct rand as [| [bytes | msg] rand].
  - constructor.
  - unfold createKeyPair, validatePrivKey, SeedSize.
    assert (E : length (copy (make 32) bytes) = 32%nat)
      by (rewrite copy_length; reflexivity).
    rewrite E. cbn [Nat.eqb negb]. rewrite copy_make_32 by exact E.
    pose proof (createKeyPair_loop_outcome NewKeyFromSeed rand _ E) as H.
    destruct (createKeyPair_loop NewKeyFromSeed rand (copy (make 32) bytes)
                (copy (make 32) bytes)) as [[kp | msg |] |].
    + destruct H as (H1 & H2 & H3 & _). repeat split; assumption.
    + right. exact H.
    + exact H.
    + constructor; [ exists bytes; reflexivity | exact H ].
  - left. reflexivity.
Qed.

(** X6.  The scalar [calculateAgreement] hands to X25519 is clamped
    whatever the hash is: it has 32 bytes, and read as a little-endian
    number it is a multiple of 8 with bit 254 set and bit 255 clear. *)
Theorem X6_scalar_clamped :
  forall (Sum512 : list byte -> list byte) (privKey : list byte),
    length (scalar Sum512 privKey) = 32%nat
    /\ le_decode (scalar Sum512 privKey) mod 8 = 0
    /\ 2 ^ 254 <= le_decode (scalar Sum512 privKey) < 2 ^ 255.
Proof.
  intros Sum512 privKey.
  destruct (scalar_shape Sum512 privKey) as (a & mid & z & Hm & E).
  rewrite E. clear E.
  assert (Hv : le_decode (band a 248 :: mid ++ [bor (band z 127) 64])
               = byte_val (band a 248)
                 + 256 * (le_decode mid
                          + 256 ^ 30 * byte_val (bor (band z 127) 64))).
  { cbn [le_decode]. rewrite le_decode_app, Hm. cbn [le_decode].
    change (Z.of_nat 30) with 30. ring. }
  rewrite Hv. clear Hv.
  destruct (band_248 a) as [q Hq].
  pose proof (byte_val_range (band a 248)) as Ha.
  pose proof (clamp_high z) as Hz.
  pose proof (le_decode_range mid) as Hmid. rewrite Hm in Hmid.
  change (Z.of_nat 30) with 30 in Hmid.
  set (M := le_decode mid) in *.
  set (Z0 := byte_val (bor (band z 127) 64)) in *.
  set (A := byte_val (band a 248)) in *.
  change (256 ^ 30) with
    1766847064778384329583297500742918515827483896875618958121606201292619776
    in *.
  change (2 ^ 254) with
    28948022309329048855892746252171976963317496166410141009864396001978282409984.
  change (2 ^ 255) with
    57896044618658097711785492504343953926634992332820282019728792003956564819968.
  split; [ | split ].
  - cbn [length]. rewrite length_app, Hm. reflexivity.
  - rewrite Hq.
    replace (8 * q + 256 * (M + 1766847064778384329583297500742918515827483896875618958121606201292619776 * Z0))
      with ((q + 32 * (M + 1766847064778384329583297500742918515827483896875618958121606201292619776 * Z0)) * 8) by ring.
    apply Z.mod_mul. discriminate.
  - lia.
Qed.

(** X7.  [calculateAgreement] of the big-integer backend checks in this
    order: the public key's format ("invalid public key"), the private key's
    length ("incorrect private key length"), then the converter, which
    refuses every key with the top bit set, every value [y >= p] and [y = 1]
    ("invalid ed25519 public key").  Only then is X25519 called, on the
    clamped scalar and the converted 32-byte key, and its answer is handed
    back as it is. *)
Theorem X7_calculateAgreement_checks :
  forall (Sum512 : list byte -> list byte)
         (X25519 : list byte -> list byte -> result (list byte))
         (pubKey privKey : list byte),
    (scrubPubKeyFormat pubKey = Err "invalid public key"
     /\ calculateAgreement Sum512 X25519 pubKey privKey
        = Err "invalid public key")
    \/ (exists k,
          length k = 32%nat /\ (pubKey = x05 :: k \/ pubKey = k)
          /\ (length privKey <> 32%nat ->
              calculateAgreement Sum512 X25519 pubKey privKey
              = Err "incorrect private key length")
          /\ (length privKey = 32%nat ->
              (Spec.sign_bit k = true \/ p <= le_decode k \/ le_decode k = 1 ->
               calculateAgreement Sum512 X25519 pubKey privKey
               = Err "invalid ed25519 public key")
              /\ (le_decode k < p -> le_decode k <> 1 ->
                  exists u,
                    ed25519ToX25519PublicKey k = Ok u
                    /\ length u = 32%nat
                    /\ calculateAgreement Sum512 X25519 pubKey privKey
                       = X25519 (scalar Sum512 privKey) u))).
Proof.
  intros Sum512 X25519 pubKey privKey. unfold calculateAgreement.
  destruct (scrubPubKeyFormat_cases pubKey)
    as [(k & Hk & Hshape & Hs) | (Hs & _)];
    [ right | left; rewrite Hs; split; reflexivity ].
  rewrite Hs. exists k. split; [ exact Hk | ]. split; [ exact Hshape | ].
  unfold validatePrivKey. split.
  - intros N. destruct (Nat.eqb_spec (length privKey) 32); [ contradiction | ].
    reflexivity.
  - intros E. rewrite E. cbn [Nat.eqb negb]. split.
    + intros Hbad.
      assert (Hr : ed25519ToX25519PublicKey k = invalid_key).
      { destruct Hbad as [Hb | [Hge | E1]].
        - apply ConverterClaims.converter_sign_bit_set; assumption.
        - apply converter_noncanonical; assumption.
        - apply converter_degenerate; assumption. }
      rewrite Hr. reflexivity.
    + intros Hlt N1.
      destruct (converter_accepts k Hk Hlt N1) as (i & u & _ & Hu & Hlen & _).
      exists u. split; [ exact Hu | ]. split; [ exact Hlen | ].
      rewrite Hu. destruct (X25519 (scalar Sum512 privKey) u); reflexivity.
Qed.

(** X8.  The two operations fit together: a public key that the big-integer
    [createKeyPair] has returned always passes the checks of
    [calculateAgreement]; with any 32-byte private key the call comes down
    to X25519 on the clamped scalar and the converted key. *)
Theorem X8_agreement_accepts_created_keys :
  forall (NewKeyFromSeed : list byte -> list byte)
         (Sum512 : list byte -> list byte)
         (X25519 : list byte -> list byte -> result (list byte))
         (rand : list read) (seed : list byte) (kp : KeyPair)
         (privKey : list byte),
    createKeyPair NewKeyFromSeed rand seed = Some (Ok kp) ->
    length privKey = 32%nat ->
    exists u,
      ed25519ToX25519PublicKey (skipn 1 (GoBigInt.pubKey kp)) = Ok u
      /\ length u = 32%nat
      /\ calculateAgreement Sum512 X25519 (GoBigInt.pubKey kp) privKey
         = X25519 (scalar Sum512 privKey) u.
Proof.
  intros NewKeyFromSeed Sum512 X25519 rand seed kp privKey Hkp Hpriv.
  unfold createKeyPair, validatePrivKey, SeedSize in Hkp.
  destruct (Nat.eqb_spec (length seed) 32) as [E | N];
    [ | discriminate Hkp ].
  cbn [negb] in Hkp. rewrite copy_make_32 in Hkp by exact E.
  pose proof (createKeyPair_loop_outcome NewKeyFromSeed rand seed E) as H.
  rewrite Hkp in H. destruct H as (_ & Hpub & (u & Hu) & _).
  rewrite Hpub. cbn [skipn]. exists u. split; [ exact Hu | ].
  destruct (converter_relation _ _ Hu) as (Hlen & _).
  split; [ exact Hlen | ].
  unfold calculateAgreement, validatePrivKey.
  rewrite go_scrubPubKeyFormat_tagged by apply Public_length.
  rewrite Hpriv. cbn [Nat.eqb negb]. rewrite Hu.
  destruct (X25519 (scalar Sum512 privKey) u); reflexivity.
Qed.

(** A stand-in library for evaluating statements: the private key of a seed
    is the seed followed by the encoding of the Ed25519 base point. *)
Definition basepoint_NewKeyFromSeed (seed : list byte) : list byte :=
  seed ++ basepoint.

Lemma X8_agreement_accepts_created_keys_witness :
  exists u,
    ed25519ToX25519PublicKey basepoint = Ok u
    /\ calculateAgreement (fun _ => repeat x00 64) (fun _ u => Ok u)
         (x05 :: basepoint) (repeat x00 32)
       = Ok u.
Proof.
  destruct (converter_accepts basepoint eq_refl) as (i & u & _ & Hu & _);
    [ vm_compute; reflexivity | vm_compute; discriminate | ].
  assert (Hkp : createKeyPair basepoint_NewKeyFromSeed [] (repeat x00 32)
                = Some (Ok {| pubKey := x05 :: basepoint;
                              privKey := repeat x00 32 |})).
  { rewrite (KeyPairFacts.createKeyPair_accepted basepoint_NewKeyFromSeed
               [] (repeat x00 32) u eq_refl Hu).
    reflexivity. }
  destruct (X8_agreement_accepts_created_keys basepoint_NewKeyFromSeed
              (fun _ => repeat x00 64) (fun _ u => Ok u) [] (repeat x00 32)
              _ (repeat x00 32) Hkp eq_refl) as (u' & Hu' & _ & Hc).
  cbn [pubKey skipn] in Hu'. rewrite Hu in Hu'. injection Hu' as <-.
  exists u. split; [ exact Hu | exact Hc ].
Defined.

(** X9.  [verifySignature] of the big-integer backend validates before it
    looks at [isInit]: it answers (with [true] under [isInit], with the
    verdict of [ed25519.Verify] otherwise) exactly when the public key has 33
    bytes with tag 5 or 32 bytes, the message is not empty and the signature
    has 64 bytes, and [ed25519.Verify] is only ever handed a 32-byte key;
    every other input is an error, reported in the order key, message,
    signature, also under [isInit]. *)
Theorem X9_verifySignature_checks :
  forall (Verify : list byte -> list byte -> list byte -> bool)
         (pubKey message signature : list byte) (isInit : bool),
    (scrubPubKeyFormat pubKey = Err "invalid public key"
     /\ verifySignature Verify pubKey message signature isInit
        = Err "invalid public key")
    \/ (exists k,
          length k = 32%nat /\ (pubKey = x05 :: k \/ pubKey = k)
          /\ (message = [] ->
              verifySignature Verify pubKey message signature isInit
              = Err "invalid message")
          /\ (message <> [] -> length signature <> 64%nat ->
              verifySignature Verify pubKey message signature isInit
              = Err "invalid signature")
          /\ (message <> [] -> length signature = 64%nat ->
              verifySignature Verify pubKey message signature isInit
              = Ok (if isInit then true else Verify k message signature))).
Proof.
  intros Verify pubKey message signature isInit. unfold verifySignature.
  destruct (scrubPubKeyFormat_cases pubKey)
    as [(k & Hk & Hshape & Hs) | (Hs & _)];
    [ right | left; rewrite Hs; split; reflexivity ].
  rewrite Hs. exists k. split; [ exact Hk | ]. split; [ exact Hshape | ].
  split; [ | split ].
  - intros ->. reflexivity.
  - intros Hm Hsig. destruct message as [| m ms]; [ contradiction | ].
    cbn [length Nat.eqb].
    destruct (Nat.eqb_spec (length signature) 64); [ contradiction | ].
    reflexivity.
  - intros Hm Hsig. destruct message as [| m ms]; [ contradiction | ].
    cbn [length Nat.eqb]. rewrite Hsig. cbn [Nat.eqb negb].
    destruct isInit; reflexivity.
Qed.

End BigIntProperties.

(** * The JavaScript backends: codec variants, dead checks, library
      exceptions and the shape of a returned key pair *)
Module JSMoreFacts.
Import JS JSFacts BytesFacts.

Lemma validatePrivKey_inv privKey u :
  validatePrivKey privKey = Return u ->
  exists seed, privKey = Buffer seed /\ length seed = 32%nat.
Proof.
  intros H. destruct privKey as [| | | | | bs | bs]; try discriminate H.
  unfold validatePrivKey, byteLength_is in H.
  cbn [instanceof_Buffer negb byteLength] in H.
  destruct (Nat.eqb_spec (length bs) 32) as [E | N]; [ | discriminate H ].
  exists bs. split; [ reflexivity | exact E ].
Qed.

(** [pub.set(key, 1)] on a fresh 33-byte array: a key of at most 32 bytes is
    copied in and padded with zeros, a longer one is out of bounds. *)
Lemma tag_public_key_any key :
  tag_public_key key
  = if (length key <=? 32)%nat then
      Return (x05 :: key ++ repeat x00 (32 - length key))
    else Throw "offset is out of bounds".
Proof.
  unfold tag_public_key, typed_set. rewrite repeat_length.
  destruct (Nat.leb_spec (length key) 32) as [Hle | Hgt].
  - destruct (Nat.ltb_spec 33 (1 + length key)) as [H | _]; [ lia | ].
    cbn [bind].
    replace 33%nat with ((1 + length key) + (32 - length key))%nat at 2 by lia.
    rewrite skipn_repeat_add. reflexivity.
  - destruct (Nat.ltb_spec 33 (1 + length key)) as [_ | H]; [ | lia ].
    reflexivity.
Qed.

Lemma tag_public_key_inv key pub :
  tag_public_key key = Return pub ->
  exists body, pub = x05 :: body /\ length body = 32%nat
               /\ firstn (length key) body = key.
Proof.
  rewrite tag_public_key_any.
  destruct (Nat.leb_spec (length key) 32) as [Hle | Hgt];
    [ | discriminate ].
  intros H. injection H as <-.
  exists (key ++ repeat x00 (32 - length key)).
  split; [ reflexivity | ]. split.
  - rewrite length_app, repeat_length. lia.
  - rewrite firstn_app, Nat.sub_diag, firstn_all. cbn [firstn].
    apply app_nil_r.
Qed.

Lemma scrubPubKeyFormat_variant_noble pubKey :
  NobleShortCircuit.scrubPubKeyFormat pubKey = scrubPubKeyFormat pubKey.
Proof.
  destruct pubKey as [| | | | | bs | bs]; try reflexivity.
  unfold NobleShortCircuit.scrubPubKeyFormat, scrubPubKeyFormat, byteLength_is.
  cbn [instanceof_Buffer negb is_undefined orb byteLength].
  destruct (Nat.eqb_spec (length bs) 33) as [E33 | N33].
  - destruct (Nat.eqb_spec (length bs) 32) as [E32 | _]; [ lia | ].
    destruct (first_byte_is (Buffer bs) x05); reflexivity.
  - destruct (Nat.eqb_spec (length bs) 32); reflexivity.
Qed.

Lemma scrubPubKeyFormat_variant_worker pubKey :
  Worker.scrubPubKeyFormat pubKey = scrubPubKeyFormat pubKey.
Proof.
  unfold Worker.scrubPubKeyFormat, scrubPubKeyFormat.
  destruct (negb (instanceof_Buffer pubKey)); [ reflexivity | ].
  destruct (is_undefined pubKey
            || (negb (byteLength_is pubKey 33)
                || negb (first_byte_is pubKey x05))
               && negb (byteLength_is pubKey 32)); [ reflexivity | ].
  destruct (byteLength_is pubKey 33); reflexivity.
Qed.

End JSMoreFacts.

Module JSProperties.
Import JS JSFacts JSMoreFacts.

(** X10.  The three renderings of [scrubPubKeyFormat] agree on every
    value, results and error messages included: the original of
    src/curve.js, the rewrite of the second noble backend (accepting cases
    first) and the one of the sodium worker (strict comparisons, one
    conditional return).  [calculateAgreement] of the second noble backend,
    which scrubs in place, accepts and strips exactly the same keys and only
    replaces every refusal by one message. *)
Theorem X10_scrubPubKeyFormat_variants_agree :
  forall (pubKey : value),
    NobleShortCircuit.scrubPubKeyFormat pubKey = scrubPubKeyFormat pubKey
    /\ Worker.scrubPubKeyFormat pubKey = scrubPubKeyFormat pubKey
    /\ (forall (getSharedSecret : list byte -> list byte -> outcome (list byte))
               (privKey : value),
          NobleShortCircuitOps.calculateAgreement getSharedSecret pubKey privKey
          = match scrubPubKeyFormat pubKey with
            | Throw _ => Throw "Invalid public key for X25519"
            | Return scrubbedPubKey =>
                validatePrivKey privKey ;;
                sharedSecret <- getSharedSecret (bytes_of privKey)
                                  (bytes_of scrubbedPubKey) ;;
                Return (Buffer sharedSecret)
            end).
Proof.
  intros pubKey.
  split; [ apply scrubPubKeyFormat_variant_noble | ].
  split; [ apply scrubPubKeyFormat_variant_worker | ].
  intros getSharedSecret privKey.
  unfold NobleShortCircuitOps.calculateAgreement.
  destruct pubKey as [| | | | | bs | bs]; try reflexivity.
  unfold scrubPubKeyFormat, byteLength_is.
  cbn [instanceof_Buffer negb is_undefined orb andb byteLength].
  destruct (Nat.eqb_spec (length bs) 33) as [E33 | N33].
  - destruct (Nat.eqb_spec (length bs) 32) as [E32 | _]; [ lia | ].
    destruct (first_byte_is (Buffer bs) x05); reflexivity.
  - destruct (Nat.eqb_spec (length bs) 32); reflexivity.
Qed.

(** X11.  What [scrubPubKeyFormat] returns is always a Buffer of exactly
    32 bytes, and scrubbing it again changes nothing.  The check
    [!scrubbedPubKey || scrubbedPubKey.byteLength != 32] that follows it in
    [calculateAgreement] and [verifySignature] of src/curve.js therefore
    never fires: both behave as if it were not there.  [calculateAgreement]
    of the tweetnacl backend is the same function of its library as that of
    the curve25519-js backend. *)
Theorem X11_second_length_check_is_dead :
  forall (sharedKey : list byte -> list byte -> outcome (list byte))
         (verify : list byte -> value -> value -> outcome bool)
         (pubKey privKey msg sig isInit : value),
    (forall s, scrubPubKeyFormat pubKey = Return s ->
               byteLength s = Some 32%nat
               /\ instanceof_Buffer s = true
               /\ bad_scrubbed s = false
               /\ scrubPubKeyFormat s = Return s)
    /\ CurveJs.calculateAgreement sharedKey pubKey privKey
       = (scrubbedPubKey <- scrubPubKeyFormat pubKey ;;
          validatePrivKey privKey ;;
          shared <- sharedKey (bytes_of privKey) (bytes_of scrubbedPubKey) ;;
          Return (Buffer shared))
    /\ CurveJs.verifySignature verify pubKey msg sig isInit
       = (scrubbedPubKey <- scrubPubKeyFormat pubKey ;;
          if negb (truthy msg) then Throw "Invalid message"
          else if bad_signature sig then Throw "Invalid signature"
          else if truthy isInit then Return (Bool true)
          else
            ok <- verify (bytes_of scrubbedPubKey) msg sig ;;
            Return (Bool ok))
    /\ TweetnaclOps.calculateAgreement sharedKey pubKey privKey
       = CurveJs.calculateAgreement sharedKey pubKey privKey.
Proof.
  intros sharedKey verify pubKey privKey msg sig isInit.
  assert (Hs : forall s, scrubPubKeyFormat pubKey = Return s ->
                         byteLength s = Some 32%nat
                         /\ instanceof_Buffer s = true
                         /\ bad_scrubbed s = false
                         /\ scrubPubKeyFormat s = Return s).
  { intros s H. destruct (scrubPubKeyFormat_inv pubKey s H) as (k & Hk & -> & _).
    split; [ cbn; rewrite Hk; reflexivity | ].
    split; [ reflexivity | ].
    split; [ apply bad_scrubbed_32; exact Hk | ].
    apply scrubPubKeyFormat_legacy. exact Hk. }
  split; [ exact Hs | ].
  unfold CurveJs.calculateAgreement, CurveJs.verifySignature,
    TweetnaclOps.calculateAgreement.
  destruct (scrubPubKeyFormat pubKey) as [s | e] eqn:E; cbn [bind];
    [ | repeat split; reflexivity ].
  destruct (Hs s eq_refl) as (_ & _ & Hbad & _). rewrite Hbad.
  repeat split; reflexivity.
Qed.

(** X12.  A failure of the verification library is handled differently by
    two backends.  For well-shaped inputs without the short circuit,
    [verifySignature] of the tweetnacl backend turns an exception of
    [nacl.sign.detached.verify] into the answer [false], whereas the
    curve25519-js backend lets the exception of [curve25519.verify] through;
    and whenever the tweetnacl backend throws at all, it is a validation
    error, the same for every library. *)
Theorem X12_library_exception_handling :
  forall (nverify nverify' : value -> value -> list byte -> outcome bool)
         (verify : list byte -> value -> value -> outcome bool)
         (pubKey msg sig isInit : value) (k : list byte),
    (forall e,
       TweetnaclOps.verifySignature nverify pubKey msg sig isInit = Throw e ->
       TweetnaclOps.verifySignature nverify' pubKey msg sig isInit = Throw e)
    /\ (length k = 32%nat ->
        pubKey = Buffer (x05 :: k) \/ pubKey = Buffer k ->
        truthy msg = true ->
        byteLength sig = Some 64%nat ->
        truthy isInit = false ->
        TweetnaclOps.verifySignature nverify pubKey msg sig isInit
        = Return (Bool match nverify msg sig k with
                       | Return ok => ok
                       | Throw _ => false
                       end)
        /\ CurveJs.verifySignature verify pubKey msg sig isInit
           = (ok <- verify k msg sig ;; Return (Bool ok))).
Proof.
  intros nverify nverify' verify pubKey msg sig isInit k. split.
  - unfold TweetnaclOps.verifySignature. intros e.
    destruct (scrubPubKeyFormat pubKey) as [s | e']; cbn [bind];
      [ | exact (fun H => H) ].
    destruct (bad_scrubbed s); [ exact (fun H => H) | ].
    destruct (negb (truthy msg)); [ exact (fun H => H) | ].
    destruct (bad_signature sig); [ exact (fun H => H) | ].
    destruct (truthy isInit); [ discriminate | ].
    destruct (nverify msg sig (bytes_of s)); discriminate.
  - intros Hk Hpub Hmsg Hsig Hinit.
    assert (Hs : scrubPubKeyFormat pubKey = Return (Buffer k)).
    { destruct Hpub as [-> | ->];
        [ apply scrubPubKeyFormat_tagged | apply scrubPubKeyFormat_legacy ];
        exact Hk. }
    unfold TweetnaclOps.verifySignature, CurveJs.verifySignature.
    rewrite Hs. cbn [bind bytes_of].
    rewrite bad_scrubbed_32 by exact Hk.
    rewrite Hmsg, bad_signature_64 by exact Hsig.
    cbn [negb]. rewrite Hinit.
    split; [ destruct (nverify msg sig k) | ]; reflexivity.
Qed.

Lemma X12_library_exception_handling_witness :
  TweetnaclOps.verifySignature (fun _ _ _ => Throw "bad signature size")
    (Buffer (x05 :: repeat x00 32)) (Buffer [x01]) (Buffer (repeat x00 64))
    Undefined
  = Return (Bool false)
  /\ CurveJs.verifySignature (fun _ _ _ => Throw "bad signature size")
       (Buffer (x05 :: repeat x00 32)) (Buffer [x01]) (Buffer (repeat x00 64))
       Undefined
     = Throw "bad signature size".
Proof.
  exact (proj2
           (X12_library_exception_handling
              (fun _ _ _ => Throw "bad signature size")
              (fun _ _ _ => Return true)
              (fun _ _ _ => Throw "bad signature size")
              (Buffer (x05 :: repeat x00 32)) (Buffer [x01])
              (Buffer (repeat x00 64)) Undefined (repeat x00 32))
           eq_refl (or_introl eq_refl) eq_refl eq_refl eq_refl).
Defined.

(** Reads the shape of a returned pair off the body of a [createKeyPair]. *)
Ltac created_shape H privKey :=
  let u := fresh "u" in
  let e := fresh "e" in
  let Hv := fresh "Hv" in
  let pub := fresh "pub" in
  let Ht := fresh "Ht" in
  let body := fresh "body" in
  let Hb := fresh "Hb" in
  destruct (validatePrivKey privKey) as [u | e] eqn:Hv;
  [ cbn [bind] in H;
    split;
    [ exact (validatePrivKey_inv privKey u Hv)
    | match type of H with
      | context [tag_public_key ?key] =>
          destruct (tag_public_key key) as [pub | e] eqn:Ht;
          [ destruct (tag_public_key_inv key pub Ht) as (body & -> & Hb & _);
            cbn [bind] in H; injection H as <-;
            exists body; split; [ reflexivity | exact Hb ]
          | discriminate H ]
      end ]
  | discriminate H ].

(** X13.  Whatever the curve library hands back, a key pair that
    [createKeyPair] of a JavaScript backend returns has a [pubKey] that is a
    Buffer of exactly 33 bytes starting with the tag 5, and the private key
    that was passed in is a 32-byte Buffer.  (The length does not depend on
    the library: its key is written into a fresh array of 33 bytes, and
    [pub.set(key, 1)] throws for a key that does not fit.) *)
Theorem X13_created_pubKey_shape :
  forall (scalarMult_base getPublicKey : list byte -> list byte)
         (generateKeyPair : list byte -> CurveJs.keys)
         (privKey : value) (kp : KeyPair),
    Tweetnacl.createKeyPair scalarMult_base privKey = Return kp
    \/ Noble.createKeyPair getPublicKey privKey = Return kp
    \/ NobleShortCircuitOps.createKeyPair getPublicKey privKey = Return kp
    \/ CurveJs.createKeyPair generateKeyPair privKey = Return kp ->
    (exists seed, privKey = Buffer seed /\ length seed = 32%nat)
    /\ (exists body, pubKey kp = Buffer (x05 :: body) /\ length body = 32%nat)
    /\ byteLength (pubKey kp) = Some 33%nat
    /\ first_byte_is (pubKey kp) x05 = true.
Proof.
  intros scalarMult_base getPublicKey generateKeyPair privKey kp H.
  assert (Hshape :
            (exists seed, privKey = Buffer seed /\ length seed = 32%nat)
            /\ exists body, pubKey kp = Buffer (x05 :: body)
                            /\ length body = 32%nat).
  { destruct H as [H | [H | [H | H]]];
      unfold Tweetnacl.createKeyPair, Noble.createKeyPair,
        NobleShortCircuitOps.createKeyPair, CurveJs.createKeyPair in H;
      created_shape H privKey. }
  destruct Hshape as (Hseed & body & Hpub & Hb).
  split; [ exact Hseed | ]. split; [ exists body; split; assumption | ].
  rewrite Hpub. cbn [byteLength length first_byte_is]. rewrite Hb.
  split; reflexivity.
Qed.

Lemma X13_created_pubKey_shape_witness :
  byteLength (Buffer (x05 :: repeat x01 31 ++ [x00])) = Some 33%nat
  /\ Noble.createKeyPair (fun _ => repeat x01 31) (Buffer (repeat x00 32))
     = Return {| pubKey := Buffer (x05 :: repeat x01 31 ++ [x00]);
                 privKey := Buffer (repeat x00 32) |}.
Proof.
  assert (H : Noble.createKeyPair (fun _ => repeat x01 31)
                (Buffer (repeat x00 32))
              = Return {| pubKey := Buffer (x05 :: repeat x01 31 ++ [x00]);
                          privKey := Buffer (repeat x00 32) |})
    by reflexivity.
  split; [ | exact H ].
  exact (proj1 (proj2 (proj2
           (X13_created_pubKey_shape (fun _ => []) (fun _ => repeat x01 31)
              (fun _ => {| CurveJs.public := []; CurveJs.private := [] |})
              (Buffer (repeat x00 32)) _ (or_intror (or_introl H)))))).
Defined.

End JSProperties.

(** * The WebAssembly backends: what crosses the boundary *)
Module WasmFacts.
Import Slice JS Wasm JSFacts JSMoreFacts BytesFacts.

Lemma copyBytesFromJS_buffer bs :
  GoWasmOps.copyBytesFromJS (Buffer bs) = Ok bs.
Proof. apply KeyPairFacts.copyBytesFromJS_ok. Qed.

Lemma copyBytesFromJS_typed_array bs :
  GoWasmOps.copyBytesFromJS (Uint8Array bs) = Ok bs.
Proof. apply KeyPairFacts.copyBytesFromJS_ok. Qed.

Lemma bytesFromJS_typed_array bs :
  GoBigIntExports.bytesFromJS (Uint8Array bs) = Some bs.
Proof.
  unfold GoBigIntExports.bytesFromJS. rewrite KeyPairFacts.copy_make_self.
  reflexivity.
Qed.

(** The inline codec of the Go modules on a key [scrubPubKeyFormat] has
    accepted. *)
Lemma go_scrub_tagged {A} (k : list byte) (a b c : A) :
  length k = 32%nat ->
  (if (length (x05 :: k) =? 33)%nat && Byte.eqb (nth 0 (x05 :: k) x00) x05
   then a
   else if (length (x05 :: k) =? 32)%nat then b else c) = a.
Proof. intros H. cbn [length nth]. rewrite H. reflexivity. Qed.

Lemma go_scrub_bare {A} (k : list byte) (a b c : A) :
  length k = 32%nat ->
  (if (length k =? 33)%nat && Byte.eqb (nth 0 k x00) x05 then a
   else if (length k =? 32)%nat then b else c) = b.
Proof. intros H. rewrite H. reflexivity. Qed.


Lemma string_truthy msg : truthy (Str msg) = false -> msg = "".
Proof.
  cbn. destruct (String.eqb_spec msg ""); [ auto | discriminate ].
Qed.

End WasmFacts.

Module WasmProperties.
Import Slice JS Wasm JSFacts JSMoreFacts BytesFacts WasmFacts.
Import GoBigIntExports.

(** X14.  Through the synchronous wrapper over lib/main.go,
    [calculateAgreement] fails on the JavaScript checks first (the public
    key's, then the private key's); once these pass, the checks of the Go
    side cannot fail and the Go program does not panic on its arguments:
    the call is X25519 on the 32-byte private key and the 32-byte key with
    the tag stripped, and the only error left is "Failed to calculate
    agreement", which stands for any error of X25519. *)
Theorem X14_sync_calculateAgreement :
  forall (X25519 : list byte -> list byte -> result (list byte))
         (pubKey privKey : value),
    match scrubPubKeyFormat pubKey with
    | Throw msg =>
        WasmSyncOps.calculateAgreement X25519 pubKey privKey = Throws msg
    | Return scrubbedPubKey =>
        match validatePrivKey privKey with
        | Throw msg =>
            WasmSyncOps.calculateAgreement X25519 pubKey privKey = Throws msg
        | Return _ =>
            exists k seed,
              length k = 32%nat /\ length seed = 32%nat
              /\ scrubbedPubKey = Buffer k /\ privKey = Buffer seed
              /\ WasmSyncOps.calculateAgreement X25519 pubKey privKey
                 = match X25519 seed k with
                   | Ok shared => Returns (Buffer shared)
                   | Err _ => Throws "Failed to calculate agreement"
                   | Panic => GoPanics
                   end
        end
    end.
Proof.
  intros X25519 pubKey privKey. unfold WasmSyncOps.calculateAgreement.
  destruct (scrubPubKeyFormat pubKey) as [s | e] eqn:Hs; [ | reflexivity ].
  destruct (validatePrivKey privKey) as [u | e] eqn:Hv; [ | reflexivity ].
  destruct (scrubPubKeyFormat_inv pubKey s Hs) as (k & Hk & -> & Hpub).
  destruct (validatePrivKey_inv privKey u Hv) as (seed & -> & Hseed).
  exists k, seed.
  split; [ exact Hk | ]. split; [ exact Hseed | ].
  split; [ reflexivity | ]. split; [ reflexivity | ].
  rewrite bad_scrubbed_32 by exact Hk.
  unfold GoWasmOps.calculateAgreement.
  rewrite copyBytesFromJS_buffer, Hseed. cbn [Nat.eqb negb].
  rewrite (copy_make_32 seed Hseed).
  destruct Hpub as [-> | ->]; rewrite copyBytesFromJS_buffer; cbv zeta.
  - rewrite go_scrub_tagged by exact Hk. cbn [skipn].
    rewrite !(copy_make_32 k Hk). destruct (X25519 seed k); reflexivity.
  - rewrite go_scrub_bare by exact Hk.
    rewrite !(copy_make_32 k Hk). destruct (X25519 seed k); reflexivity.
Qed.



(** X16.  The empty message.  A zero-length Buffer passes the JavaScript
    check [!message] of both WebAssembly wrappers.  The wrapper over
    lib/main.go then signs it like any other message; the wrapper over the
    big-integer module throws "invalid message", the error its Go side
    returns for a message of length 0.  Every non-empty message is signed by
    both, with the private key [NewKeyFromSeed] derives from the seed. *)
Theorem X16_wasm_calculateSignature :
  forall (NewKeyFromSeed : list byte -> list byte)
         (Sign : list byte -> list byte -> list byte)
         (coerce : value -> outcome (list byte))
         (seed message : list byte),
    length seed = 32%nat ->
    WasmSyncOps.calculateSignature NewKeyFromSeed Sign
      (Buffer seed) (Buffer message)
    = Returns (Buffer (Sign (NewKeyFromSeed seed) message))
    /\ BigIntWasm.calculateSignature NewKeyFromSeed Sign coerce
         (Buffer seed) (Buffer message)
       = match message with
         | [] => Throws "invalid message"
         | _ :: _ => Returns (Buffer (Sign (NewKeyFromSeed seed) message))
         end.
Proof.
  intros NewKeyFromSeed Sign coerce seed message Hseed. split.
  - unfold WasmSyncOps.calculateSignature.
    rewrite validatePrivKey_buffer by exact Hseed. cbn [truthy negb].
    unfold GoWasmOps.calculateSignature.
    rewrite !copyBytesFromJS_buffer, Hseed. reflexivity.
  - unfold BigIntWasm.calculateSignature.
    rewrite validatePrivKey_buffer by exact Hseed.
    cbn [truthy negb BigIntWasm.new_Uint8Array].
    unfold jsCalculateSignature. cbn [length Nat.eqb negb nth].
    rewrite !bytesFromJS_typed_array.
    unfold GoBigInt.calculateSignature, GoBigInt.validatePrivKey,
      GoBigInt.SeedSize.
    rewrite Hseed. cbn [Nat.eqb negb].
    rewrite (copy_make_32 seed Hseed).
    destruct message as [| b message]; reflexivity.
Qed.

Lemma X16_wasm_calculateSignature_witness :
  WasmSyncOps.calculateSignature (fun seed => seed ++ seed) (fun _ m => m)
    (Buffer (repeat x00 32)) (Buffer [])
  = Returns (Buffer [])
  /\ BigIntWasm.calculateSignature (fun seed => seed ++ seed) (fun _ m => m)
       (fun _ => Return []) (Buffer (repeat x00 32)) (Buffer [])
     = Throws "invalid message".
Proof.
  exact (X16_wasm_calculateSignature (fun seed => seed ++ seed) (fun _ m => m)
           (fun _ => Return []) (repeat x00 32) [] eq_refl).
Defined.

(** X17.  [verifySignature] of the wrapper over the big-integer module, on
    a Buffer key of the right shape, a Buffer message and a 64-byte Buffer
    signature: with a truthy [isInit] the wrapper answers [true] itself,
    also for the empty message; otherwise the Go side decides, which throws
    "invalid message" for the empty message and returns the verdict of
    [ed25519.Verify] on the 32-byte key for every other. *)
Theorem X17_bigint_wasm_verifySignature :
  forall (Verify : list byte -> list byte -> list byte -> bool)
         (coerce : value -> outcome (list byte))
         (pubKey isInit : value) (k message signature : list byte),
    length k = 32%nat ->
    pubKey = Buffer (x05 :: k) \/ pubKey = Buffer k ->
    length signature = 64%nat ->
    BigIntWasm.verifySignature Verify coerce pubKey (Buffer message)
      (Buffer signature) isInit
    = if truthy isInit then Returns (Boolean true)
      else match message with
           | [] => Throws "invalid message"
           | _ :: _ => Returns (Boolean (Verify k message signature))
           end.
Proof.
  intros Verify coerce pubKey isInit k message signature Hk Hpub Hsig.
  assert (Hs : scrubPubKeyFormat pubKey = Return (Buffer k)).
  { destruct Hpub as [-> | ->];
      [ apply scrubPubKeyFormat_tagged | apply scrubPubKeyFormat_legacy ];
      exact Hk. }
  unfold BigIntWasm.verifySignature.
  rewrite Hs, bad_scrubbed_32 by exact Hk.
  rewrite bad_signature_64 by (cbn; rewrite Hsig; reflexivity).
  cbn [truthy negb].
  destruct (truthy isInit); [ reflexivity | ].
  assert (Hgo : jsVerifySignature Verify
                  [Uint8Array (bytes_of pubKey); Uint8Array message;
                   Uint8Array signature; Bool false]
                = match message with
                  | [] => Returned (ErrorMap "invalid message")
                  | _ :: _ => Returned (Boolean (Verify k message signature))
                  end).
  { unfold jsVerifySignature. cbn [length Nat.eqb negb nth].
    rewrite !bytesFromJS_typed_array. cbn [GoWasmOps.Bool].
    unfold GoBigInt.verifySignature.
    assert (Hgs : GoBigInt.scrubPubKeyFormat (bytes_of pubKey) = Ok k).
    { destruct Hpub as [-> | ->]; cbn [bytes_of];
        [ apply BigIntFacts.go_scrubPubKeyFormat_tagged
        | apply BigIntFacts.go_scrubPubKeyFormat_bare ]; exact Hk. }
    rewrite Hgs. destruct message as [| b message]; [ reflexivity | ].
    cbn [length Nat.eqb]. rewrite Hsig. reflexivity. }
  destruct Hpub as [-> | ->]; cbn [BigIntWasm.new_Uint8Array];
    cbn [bytes_of] in Hgo; rewrite Hgo;
    destruct message; reflexivity.
Qed.

Lemma X17_bigint_wasm_verifySignature_witness :
  BigIntWasm.verifySignature (fun _ _ _ => true) (fun _ => Return [])
    (Buffer (x05 :: repeat x00 32)) (Buffer []) (Buffer (repeat x00 64))
    (Bool true)
  = Returns (Boolean true)
  /\ BigIntWasm.verifySignature (fun _ _ _ => true) (fun _ => Return [])
       (Buffer (x05 :: repeat x00 32)) (Buffer []) (Buffer (repeat x00 64))
       (Bool false)
     = Throws "invalid message".
Proof.
  split.
  - exact (X17_bigint_wasm_verifySignature (fun _ _ _ => true)
             (fun _ => Return []) (Buffer (x05 :: repeat x00 32)) (Bool true)
             (repeat x00 32) [] (repeat x00 64)
             eq_refl (or_introl eq_refl) eq_refl).
  - exact (X17_bigint_wasm_verifySignature (fun _ _ _ => true)
             (fun _ => Return []) (Buffer (x05 :: repeat x00 32)) (Bool false)
             (repeat x00 32) [] (repeat x00 64)
             eq_refl (or_introl eq_refl) eq_refl).
Defined.

End WasmProperties.

(** * Key pairs across the WebAssembly backends *)
Module WasmKeyPairProperties.
Import Slice JS Wasm JSFacts JSMoreFacts BytesFacts WasmFacts BigIntFacts.
Import GoBigIntExports.

(** What a key-pair call of the wrapper over the big-integer module may come
    to, given the outcomes [rand] of [rand.Read]: a consistent pair (a
    32-byte [privKey] and the tag 5 followed by its Ed25519 public key as
    [pubKey]), an [Error] with the non-empty message of a failed
    [rand.Read], a [TypeError] after a failed [rand.Read] with an empty
    message, never a panic; the outcomes run out only if none is a failure. *)
Definition key_pair_outcome (NewKeyFromSeed : list byte -> list byte)
  (rand : list GoBigInt.read) (o : option (call KeyPair)) : Prop :=
  match o with
  | Some (Returns kp) =>
      exists priv,
        length priv = 32%nat
        /\ privKey kp = Buffer priv
        /\ pubKey kp = Buffer (x05 :: GoBigInt.Public (NewKeyFromSeed priv))
  | Some (Throws msg) => In (GoBigInt.ReadErr msg) rand /\ msg <> ""
  | Some ThrowsTypeError => In (GoBigInt.ReadErr "") rand
  | Some GoPanics => False
  | None => Forall (fun r => exists bytes, r = GoBigInt.ReadOk bytes) rand
  end.

Lemma key_pair_outcome_of_go NewKeyFromSeed rand
  (go : option (result GoBigInt.KeyPair)) :
  match go with
  | Some (Ok kp) =>
      length (GoBigInt.privKey kp) = 32%nat
      /\ GoBigInt.pubKey kp
         = x05 :: GoBigInt.Public (NewKeyFromSeed (GoBigInt.privKey kp))
  | Some (Err msg) => In (GoBigInt.ReadErr msg) rand
  | Some Panic => False
  | None => Forall (fun r => exists bytes, r = GoBigInt.ReadOk bytes) rand
  end ->
  key_pair_outcome NewKeyFromSeed rand
    match go with
    | None => None
    | Some Panic => Some GoPanics
    | Some (Err msg) =>
        if truthy (BigIntWasm.error_of (ErrorMap msg)) then
          Some (Throws (BigIntWasm.error_text (ErrorMap msg)))
        else Some (BigIntWasm.keys_of (ErrorMap msg))
    | Some (Ok result) =>
        if truthy (BigIntWasm.error_of
                     (KeysMap (GoBigInt.pubKey result)
                        (GoBigInt.privKey result))) then
          Some (Throws (BigIntWasm.error_text
                          (KeysMap (GoBigInt.pubKey result)
                             (GoBigInt.privKey result))))
        else Some (BigIntWasm.keys_of
                     (KeysMap (GoBigInt.pubKey result)
                        (GoBigInt.privKey result)))
    end.
Proof.
  intros H. destruct go as [[kp | msg |] |]; unfold key_pair_outcome.
  - destruct H as (H1 & H2).
    cbn [BigIntWasm.error_of truthy BigIntWasm.keys_of privKey pubKey].
    exists (GoBigInt.privKey kp). split; [ exact H1 | ].
    split; [ reflexivity | ]. rewrite H2. reflexivity.
  - cbn [BigIntWasm.error_of BigIntWasm.error_text BigIntWasm.keys_of].
    destruct (truthy (Str msg)) eqn:Ht.
    + split; [ exact H | ]. intros ->. discriminate Ht.
    + apply string_truthy in Ht. subst msg. exact H.
  - exact H.
  - exact H.
Qed.

(** X18.  Key pairs through the wrapper over the big-integer module.
    [createKeyPair] on a 32-byte Buffer and [generateKeyPair] never make the
    Go program panic; each returns a consistent pair (a 32-byte [privKey]
    and the tag 5 followed by its Ed25519 public key as [pubKey]) or fails
    with the message of a failed [rand.Read], and with nothing else: the
    checks of the Go side on the number of arguments and on the key's length
    cannot fail.  A failed [rand.Read] whose message is empty passes the
    test [if (result.error)] and ends in a [TypeError]. *)
Theorem X18_bigint_wasm_key_pairs :
  forall (NewKeyFromSeed : list byte -> list byte)
         (coerce : value -> outcome (list byte))
         (rand : list GoBigInt.read) (seed : list byte),
    (length seed = 32%nat ->
     key_pair_outcome NewKeyFromSeed rand
       (BigIntWasm.createKeyPair NewKeyFromSeed coerce rand (Buffer seed)))
    /\ key_pair_outcome NewKeyFromSeed rand
         (BigIntWasm.generateKeyPair NewKeyFromSeed rand).
Proof.
  intros NewKeyFromSeed coerce rand seed. split.
  - intros Hseed. unfold BigIntWasm.createKeyPair.
    rewrite validatePrivKey_buffer by exact Hseed.
    cbn [BigIntWasm.new_Uint8Array]. unfold jsCreateKeyPair.
    cbn [length Nat.eqb negb nth]. rewrite bytesFromJS_typed_array.
    unfold GoBigInt.createKeyPair, GoBigInt.validatePrivKey,
      GoBigInt.SeedSize.
    rewrite Hseed. cbn [Nat.eqb negb]. rewrite (copy_make_32 seed Hseed).
    pose proof (createKeyPair_loop_outcome NewKeyFromSeed rand seed Hseed)
      as H.
    destruct (GoBigInt.createKeyPair_loop NewKeyFromSeed rand seed seed)
      as [[kp | msg |] |] eqn:E.
    + apply (key_pair_outcome_of_go NewKeyFromSeed rand (Some (Ok kp))).
      destruct H as (H1 & H2 & _). split; assumption.
    + apply (key_pair_outcome_of_go NewKeyFromSeed rand (Some (Err msg))).
      exact H.
    + exact H.
    + exact H.
  - unfold BigIntWasm.generateKeyPair, jsGenerateKeyPair,
      GoBigIntOps.generateKeyPair.
    destruct rand as [| [bytes | msg] rand'].
    + constructor.
    + unfold GoBigInt.createKeyPair, GoBigInt.validatePrivKey,
        GoBigInt.SeedSize.
      assert (E : length (copy (make 32) bytes) = 32%nat)
        by apply copy_length.
      rewrite E. cbn [Nat.eqb negb]. rewrite copy_make_32 by exact E.
      pose proof (createKeyPair_loop_outcome NewKeyFromSeed rand' _ E) as H.
      destruct (GoBigInt.createKeyPair_loop NewKeyFromSeed rand'
                  (copy (make 32) bytes) (copy (make 32) bytes))
        as [[kp | msg |] |].
      * destruct H as (H1 & H2 & _).
        cbn [BigIntWasm.error_of truthy BigIntWasm.keys_of].
        exists (GoBigInt.privKey kp). cbn [privKey pubKey].
        split; [ exact H1 | ]. split; [ reflexivity | ].
        rewrite H2. reflexivity.
      * cbn [BigIntWasm.error_of BigIntWasm.error_text BigIntWasm.keys_of].
        destruct (truthy (Str msg)) eqn:Ht; unfold key_pair_outcome.
        -- split; [ right; exact H | ]. intros ->. discriminate Ht.
        -- apply string_truthy in Ht. subst msg. right. exact H.
      * exact H.
      * constructor; [ exists bytes; reflexivity | exact H ].
    + cbn [BigIntWasm.error_of BigIntWasm.error_text BigIntWasm.keys_of].
      destruct (truthy (Str msg)) eqn:Ht; unfold key_pair_outcome.
      * split; [ left; reflexivity | ]. intros ->. discriminate Ht.
      * apply string_truthy in Ht. subst msg. left. reflexivity.
Qed.

Lemma X18_bigint_wasm_key_pairs_witness :
  key_pair_outcome (fun seed => seed ++ seed) [GoBigInt.ReadErr "entropy"]
    (BigIntWasm.createKeyPair (fun seed => seed ++ seed)
       (fun _ => Return []) [GoBigInt.ReadErr "entropy"]
       (Buffer (repeat xff 32)))
  /\ BigIntWasm.createKeyPair (fun seed => seed ++ seed)
       (fun _ => Return []) [GoBigInt.ReadErr "entropy"]
       (Buffer (repeat xff 32))
     = Some (Throws "entropy").
Proof.
  split.
  - exact (proj1 (X18_bigint_wasm_key_pairs (fun seed => seed ++ seed)
                    (fun _ => Return []) [GoBigInt.ReadErr "entropy"]
                    (repeat xff 32)) eq_refl).
  - vm_compute. reflexivity.
Defined.

(** X19.  [generateKeyPair] of lib/main.go repeats the body of
    [createKeyPair] instead of calling it, and the two agree: through the
    synchronous wrapper, [generateKeyPair] returns for the 32 drawn bytes
    exactly the pair [createKeyPair] returns for them as a seed, the whole
    private key of the library included.  A failed [rand.Read] throws
    "Failed to generate random bytes", whatever its own message was. *)
Theorem X19_sync_generateKeyPair :
  forall (NewKeyFromSeed : list byte -> list byte) (bytes : list byte)
         (msg : string),
    let seed := copy (make 32) bytes in
    length seed = 32%nat
    /\ WasmSync.createKeyPair NewKeyFromSeed (Buffer seed)
       = Return {| pubKey :=
                     Buffer (x05 :: GoBigInt.Public (NewKeyFromSeed seed));
                   privKey := Buffer (NewKeyFromSeed seed) |}
    /\ WasmSyncOps.generateKeyPair NewKeyFromSeed (GoBigInt.ReadOk bytes)
       = Returns {| pubKey :=
                      Buffer (x05 :: GoBigInt.Public (NewKeyFromSeed seed));
                    privKey := Buffer (NewKeyFromSeed seed) |}
    /\ WasmSyncOps.generateKeyPair NewKeyFromSeed (GoBigInt.ReadErr msg)
       = Throws "Failed to generate random bytes".
Proof.
  intros NewKeyFromSeed bytes msg seed.
  assert (Hseed : length seed = 32%nat) by apply copy_length.
  split; [ exact Hseed | ]. split; [ | split ].
  - rewrite KeyPairFacts.WasmSync_createKeyPair by exact Hseed.
    rewrite copy_make_32 by apply Public_length. reflexivity.
  - unfold WasmSyncOps.generateKeyPair, GoWasmOps.generateKeyPair.
    fold seed. rewrite copy_make_32 by apply Public_length. reflexivity.
  - reflexivity.
Qed.

(** X20.  The two later variants of the Go module hand the seed back: every
    pair their [createKeyPair] returns has as [privKey] exactly the 32 bytes
    that were passed in, and a [pubKey] of 33 bytes, the tag 5 followed by
    the public key of that seed; [generateKeyPair] of the stricter variant
    returns the 32 drawn bytes. *)
Theorem X20_later_variants_return_the_seed :
  forall (NewKeyFromSeed : list byte -> list byte)
         (args : list JS.value) (pub priv : list byte),
    GoWasmSeed.createKeyPair NewKeyFromSeed args = Ok (pub, priv)
    \/ GoWasmStrict.createKeyPair NewKeyFromSeed args = Ok (pub, priv)
    \/ (exists bytes,
          args = [Uint8Array (copy (make 32) bytes)]
          /\ GoWasmStrict.generateKeyPair NewKeyFromSeed
               (GoBigInt.ReadOk bytes) = Ok (pub, priv)) ->
    length priv = 32%nat
    /\ (nth 0 args Undefined = Buffer priv
        \/ nth 0 args Undefined = Uint8Array priv)
    /\ pub = x05 :: GoBigInt.Public (NewKeyFromSeed priv)
    /\ length pub = 33%nat.
Proof.
  intros NewKeyFromSeed args pub priv H.
  assert (Hcore : exists seed,
             (nth 0 args Undefined = Buffer seed
              \/ nth 0 args Undefined = Uint8Array seed)
             /\ length seed = 32%nat
             /\ pub = x05 :: copy (make 32)
                              (GoBigInt.Public (NewKeyFromSeed seed))
             /\ priv = seed).
  { assert (Hstrict :
              GoWasmStrict.createKeyPair NewKeyFromSeed args = Ok (pub, priv) ->
              exists seed,
                (nth 0 args Undefined = Buffer seed
                 \/ nth 0 args Undefined = Uint8Array seed)
                /\ length seed = 32%nat
                /\ pub = x05 :: copy (make 32)
                                 (GoBigInt.Public (NewKeyFromSeed seed))
                /\ priv = seed).
    { unfold GoWasmStrict.createKeyPair, GoWasmStrict.arg.
      destruct (length args <? 1)%nat; [ discriminate | ].
      destruct (nth 0 args Undefined) as [| | | | | bs | bs] eqn:Ea;
        try discriminate;
        unfold GoWasmStrict.copyBytesFromJS; cbv zeta;
        rewrite Nat.min_id, Nat.eqb_refl, KeyPairFacts.copy_make_self;
        (destruct (length bs =? 0)%nat; [ discriminate | ]);
        cbn [negb];
        (destruct (Nat.eqb_spec (length bs) 32) as [E | N];
         [ | discriminate ]);
        cbn [negb]; intros Hr; injection Hr as <- <-;
        exists bs; auto. }
    destruct H as [H | [H | (bytes & Hargs & H)]].
    - unfold GoWasmSeed.createKeyPair, GoWasmSeed.arg in H.
      destruct (nth 0 args Undefined) as [| | | | | bs | bs] eqn:Ea;
        try discriminate H;
        unfold GoWasmOps.copyBytesFromJS in H;
        rewrite KeyPairFacts.copyBytesFromJS_ok in H;
        (destruct (Nat.eqb_spec (length bs) 32) as [E | N];
         [ | discriminate H ]);
        cbn [negb] in H; rewrite (copy_make_32 bs E) in H;
        injection H as <- <-; exists bs; auto.
    - exact (Hstrict H).
    - unfold GoWasmStrict.generateKeyPair in H. cbv zeta in H.
      rewrite <- Hargs in H. exact (Hstrict H). }
  destruct Hcore as (seed & Harg & Hlen & Hpub & ->).
  rewrite copy_make_32 in Hpub by apply Public_length.
  split; [ exact Hlen | ]. split; [ exact Harg | ].
  split; [ exact Hpub | ].
  rewrite Hpub. cbn [length]. rewrite Public_length. reflexivity.
Qed.

Lemma X20_later_variants_return_the_seed_witness :
  GoWasmStrict.generateKeyPair (fun seed => seed ++ seed)
    (GoBigInt.ReadOk (repeat x07 32))
  = Ok (x05 :: repeat x07 32, repeat x07 32)
  /\ length (repeat x07 32) = 32%nat.
Proof.
  assert (H : GoWasmStrict.generateKeyPair (fun seed => seed ++ seed)
                (GoBigInt.ReadOk (repeat x07 32))
              = Ok (x05 :: repeat x07 32, repeat x07 32))
    by reflexivity.
  split; [ exact H | ].
  exact (proj1
           (X20_later_variants_return_the_seed (fun seed => seed ++ seed)
              [Uint8Array (copy (make 32) (repeat x07 32))]
              (x05 :: repeat x07 32) (repeat x07 32)
              (or_intror (or_intror
                 (ex_intro _ (repeat x07 32) (conj eq_refl H)))))).
Defined.

(** X21.  In the variant that returns the seed, the test
    [len(scrubbedPubKey) != 32] behind the codec can never succeed: neither
    [calculateAgreement] nor [verifySignature] ever returns "Invalid public
    key length", whatever arguments and libraries they are given. *)
Theorem X21_public_key_length_error_unreachable :
  forall (NewKeyFromSeed : list byte -> list byte)
         (Verify : list byte -> list byte -> list byte -> bool)
         (X25519 : list byte -> list byte -> result (list byte))
         (args : list JS.value),
    GoWasmSeed.calculateAgreement NewKeyFromSeed X25519 args
    <> Err "Invalid public key length"
    /\ GoWasmSeed.verifySignature Verify args
       <> Err "Invalid public key length".
Proof.
  intros NewKeyFromSeed Verify X25519 args.
  assert (Hscrub : forall (pubKey : list byte) (A : Type)
                          (f : list byte -> A) (a b : A),
             match
               (if (length pubKey =? 33)%nat
                   && Byte.eqb (nth 0 pubKey x00) x05
                then Some (skipn 1 pubKey)
                else if (length pubKey =? 32)%nat then Some pubKey else None)
             with
             | None => a
             | Some scrubbedPubKey =>
                 if negb (length scrubbedPubKey =? 32)%nat then b
                 else f scrubbedPubKey
             end
             = match
                 (if (length pubKey =? 33)%nat
                     && Byte.eqb (nth 0 pubKey x00) x05
                  then Some (skipn 1 pubKey)
                  else if (length pubKey =? 32)%nat then Some pubKey
                       else None)
               with
               | None => a
               | Some scrubbedPubKey => f scrubbedPubKey
               end).
  { intros pubKey A f a b.
    destruct (Nat.eqb_spec (length pubKey) 33) as [E33 | N33]; cbn [andb].
    - destruct (Byte.eqb (nth 0 pubKey x00) x05).
      + rewrite length_skipn, E33. reflexivity.
      + destruct (Nat.eqb_spec (length pubKey) 32) as [E32 | _]; [ lia | ].
        reflexivity.
    - destruct (Nat.eqb_spec (length pubKey) 32) as [E32 | N32];
        [ | reflexivity ].
      rewrite E32. reflexivity. }
  split.
  - unfold GoWasmSeed.calculateAgreement.
    destruct (GoWasmOps.copyBytesFromJS (GoWasmSeed.arg args 0))
      as [pubKey | e |]; try discriminate.
    destruct (GoWasmOps.copyBytesFromJS (GoWasmSeed.arg args 1))
      as [privKeySeed | e |]; try discriminate.
    destruct (negb (length privKeySeed =? 32)%nat); [ discriminate | ].
    cbv zeta. rewrite Hscrub.
    destruct (if (length pubKey =? 33)%nat
                 && Byte.eqb (nth 0 pubKey x00) x05
              then Some (skipn 1 pubKey)
              else if (length pubKey =? 32)%nat then Some pubKey else None)
      as [scrubbed |]; [ | discriminate ].
    destruct (X25519 _ _); discriminate.
  - unfold GoWasmSeed.verifySignature. cbv zeta.
    destruct (if (3 <? length args)%nat
              then GoWasmOps.Bool (GoWasmSeed.arg args 3)
              else Ok false) as [[|] | e |]; try discriminate.
    destruct (GoWasmOps.copyBytesFromJS (GoWasmSeed.arg args 0))
      as [pubKey | e |]; try discriminate.
    destruct (GoWasmOps.copyBytesFromJS (GoWasmSeed.arg args 1))
      as [msg | e |]; try discriminate.
    destruct (GoWasmOps.copyBytesFromJS (GoWasmSeed.arg args 2))
      as [sig | e |]; try discriminate.
    destruct (negb (length sig =? 64)%nat); [ discriminate | ].
    rewrite Hscrub.
    destruct (if (length pubKey =? 33)%nat
                 && Byte.eqb (nth 0 pubKey x00) x05
              then Some (skipn 1 pubKey)
              else if (length pubKey =? 32)%nat then Some pubKey else None)
      as [scrubbed |]; discriminate.
Qed.

(** X22.  The stricter variant refuses empty arguments, through the
    zero-length test of its [copyBytesFromJS]: with a private key of 32
    bytes, [calculateSignature] returns "invalid message" for the empty
    message and signs every other; [verifySignature] without the short
    circuit returns "invalid message" for the empty message, whatever
    non-empty key and signature come with it; [calculateAgreement] names the
    cause for an empty public key.  The other error of [copyBytesFromJS],
    "failed to copy all bytes from JS value", cannot occur. *)
Theorem X22_strict_variant_refuses_empty_arguments :
  forall (NewKeyFromSeed : list byte -> list byte)
         (Sign : list byte -> list byte -> list byte)
         (Verify : list byte -> list byte -> list byte -> bool)
         (X25519 : list byte -> list byte -> result (list byte))
         (seed message pubKey sig : list byte) (priv : JS.value),
    (forall bs, GoWasmStrict.copyBytesFromJS (Uint8Array bs)
                = match bs with
                  | [] => Err "JS value has zero length"
                  | _ :: _ => Ok bs
                  end)
    /\ (length seed = 32%nat ->
        GoWasmStrict.calculateSignature NewKeyFromSeed Sign
          [Uint8Array seed; Uint8Array message]
        = match message with
          | [] => Err "invalid message"
          | _ :: _ => Ok (Sign (NewKeyFromSeed seed) message)
          end)
    /\ (pubKey <> [] ->
        GoWasmStrict.verifySignature Verify
          [Uint8Array pubKey; Uint8Array []; Uint8Array sig]
        = Err "invalid message")
    /\ GoWasmStrict.calculateAgreement X25519 [Uint8Array []; priv]
       = Err "invalid public key: JS value has zero length".
Proof.
  intros NewKeyFromSeed Sign Verify X25519 seed message pubKey sig priv.
  assert (Hcopy : forall bs, GoWasmStrict.copyBytesFromJS (Uint8Array bs)
                             = match bs with
                               | [] => Err "JS value has zero length"
                               | _ :: _ => Ok bs
                               end).
  { intros bs. unfold GoWasmStrict.copyBytesFromJS. cbv zeta.
    rewrite Nat.min_id, Nat.eqb_refl, KeyPairFacts.copy_make_self.
    destruct bs; reflexivity. }
  split; [ exact Hcopy | ]. split; [ | split ].
  - intros Hseed. unfold GoWasmStrict.calculateSignature, GoWasmStrict.arg.
    cbn [length Nat.ltb Nat.leb nth]. rewrite !Hcopy.
    destruct seed as [| b seed]; [ discriminate Hseed | ].
    rewrite Hseed. cbn [Nat.eqb negb].
    destruct message; reflexivity.
  - intros Hpk. unfold GoWasmStrict.verifySignature, GoWasmStrict.arg.
    cbn [length Nat.ltb Nat.leb nth]. rewrite !Hcopy.
    destruct pubKey as [| b pubKey]; [ contradiction | ]. reflexivity.
  - unfold GoWasmStrict.calculateAgreement, GoWasmStrict.arg.
    cbn [length Nat.ltb Nat.leb nth]. rewrite Hcopy. reflexivity.
Qed.

End WasmKeyPairProperties.

(** * Argument checks of lib/main.go, and agreement end to end *)
Module WasmAgreementProperties.
Import Slice JS Wasm JSFacts JSMoreFacts BytesFacts WasmFacts BigIntFacts.
Import GoBigIntExports.

(** The codec that lib/main.go writes out in place, against
    [scrubPubKeyFormat] of the big-integer module. *)
Lemma inline_codec {A} (pubKey : list byte) (f : list byte -> A) (a : A) :
  match
    (if (length pubKey =? 33)%nat && Byte.eqb (nth 0 pubKey x00) x05
     then Some (copy (make 32) (skipn 1 pubKey))
     else if (length pubKey =? 32)%nat then Some (copy (make 32) pubKey)
          else None)
  with
  | None => a
  | Some scrubbedPubKey => f (copy (make 32) scrubbedPubKey)
  end
  = match GoBigInt.scrubPubKeyFormat pubKey with
    | Ok k => f k
    | _ => a
    end.
Proof.
  unfold GoBigInt.scrubPubKeyFormat.
  destruct (Nat.eqb_spec (length pubKey) 33) as [E33 | N33]; cbn [andb].
  - destruct (Byte.eqb (nth 0 pubKey x00) x05).
    + assert (H : length (skipn 1 pubKey) = 32%nat)
        by (rewrite length_skipn, E33; reflexivity).
      rewrite !(copy_make_32 _ H). reflexivity.
    + destruct (Nat.eqb_spec (length pubKey) 32) as [E32 | _]; [ lia | ].
      reflexivity.
  - destruct (Nat.eqb_spec (length pubKey) 32) as [E32 | N32];
      [ | reflexivity ].
    rewrite !(copy_make_32 _ E32). reflexivity.
Qed.

Lemma inline_codec_verify {A} (pubKey : list byte) (f : list byte -> A)
  (a : A) :
  (if (length pubKey =? 33)%nat && Byte.eqb (nth 0 pubKey x00) x05
   then f (copy (make 32) (skipn 1 pubKey))
   else if (length pubKey =? 32)%nat then f (copy (make 32) pubKey) else a)
  = match GoBigInt.scrubPubKeyFormat pubKey with
    | Ok k => f k
    | _ => a
    end.
Proof.
  unfold GoBigInt.scrubPubKeyFormat.
  destruct (Nat.eqb_spec (length pubKey) 33) as [E33 | N33]; cbn [andb].
  - destruct (Byte.eqb (nth 0 pubKey x00) x05).
    + assert (H : length (skipn 1 pubKey) = 32%nat)
        by (rewrite length_skipn, E33; reflexivity).
      rewrite (copy_make_32 _ H). reflexivity.
    + destruct (Nat.eqb_spec (length pubKey) 32) as [E32 | _]; [ lia | ].
      reflexivity.
  - destruct (Nat.eqb_spec (length pubKey) 32) as [E32 | N32];
      [ | reflexivity ].
    rewrite (copy_make_32 _ E32). reflexivity.
Qed.

(** X23.  The exports of lib/main.go on typed arrays.  Copying an argument
    cannot fail, so "Invalid public key" and "Invalid message" are never
    returned.  [calculateAgreement] tests the private key's length before
    the public key's format, [verifySignature] the signature's length before
    the key's format; the codec both write out in place accepts and strips
    exactly what [scrubPubKeyFormat] of the big-integer module does, and the
    library is handed the private key and the 32-byte key as they are.
    [calculateSignature] only tests the key's length: it signs every
    message, the empty one included. *)
Theorem X23_main_go_argument_checks :
  forall (NewKeyFromSeed : list byte -> list byte)
         (Sign : list byte -> list byte -> list byte)
         (Verify : list byte -> list byte -> list byte -> bool)
         (X25519 : list byte -> list byte -> result (list byte))
         (a0 a1 a2 : list byte),
    GoWasmOps.calculateAgreement X25519 (Uint8Array a0) (Uint8Array a1)
    = (if negb (length a1 =? 32)%nat then Err "Invalid private key"
       else match GoBigInt.scrubPubKeyFormat a0 with
            | Ok k =>
                match X25519 a1 k with
                | Ok sharedSecret => Ok sharedSecret
                | Err _ => Err "Failed to calculate agreement"
                | Panic => Panic
                end
            | _ => Err "Invalid public key format"
            end)
    /\ GoWasmOps.verifySignature Verify (Uint8Array a0) (Uint8Array a1)
         (Uint8Array a2) (Bool false)
       = (if negb (length a2 =? 64)%nat then Err "Invalid signature"
          else match GoBigInt.scrubPubKeyFormat a0 with
               | Ok k => Ok (Verify k a1 a2)
               | _ => Err "Invalid public key format"
               end)
    /\ GoWasmOps.calculateSignature NewKeyFromSeed Sign
         (Uint8Array a0) (Uint8Array a1)
       = (if negb (length a0 =? 32)%nat then Err "Invalid private key"
          else Ok (Sign (NewKeyFromSeed a0) a1)).
Proof.
  intros NewKeyFromSeed Sign Verify X25519 a0 a1 a2.
  split; [ | split ].
  - unfold GoWasmOps.calculateAgreement.
    rewrite !copyBytesFromJS_typed_array.
    destruct (Nat.eqb_spec (length a1) 32) as [E | N]; cbn [negb];
      [ | reflexivity ].
    cbv zeta. rewrite (copy_make_32 a1 E).
    apply (inline_codec a0
             (fun k => match X25519 a1 k with
                       | Ok sharedSecret => Ok sharedSecret
                       | Err _ => Err "Failed to calculate agreement"
                       | Panic => Panic
                       end)).
  - unfold GoWasmOps.verifySignature. cbn [GoWasmOps.Bool].
    rewrite !copyBytesFromJS_typed_array.
    destruct (negb (length a2 =? 64)%nat); [ reflexivity | ].
    apply (inline_codec_verify a0 (fun k => Ok (Verify k a1 a2))).
  - unfold GoWasmOps.calculateSignature.
    rewrite !copyBytesFromJS_typed_array.
    destruct (negb (length a0 =? 32)%nat); reflexivity.
Qed.

(** X24.  Agreement end to end in the big-integer backend, as JavaScript
    sees it: a [pubKey] that the wrapper's [createKeyPair] has returned
    passes every check of the wrapper's [calculateAgreement] and of the Go
    side with any 32-byte Buffer as private key; the call comes down to
    X25519 on the clamped scalar and the converted key, whose result is
    returned as a Buffer and whose error is thrown with its message. *)
Theorem X24_bigint_wasm_agreement_on_created_keys :
  forall (NewKeyFromSeed : list byte -> list byte)
         (Sum512 : list byte -> list byte)
         (X25519 : list byte -> list byte -> result (list byte))
         (coerce : value -> outcome (list byte))
         (rand : list GoBigInt.read) (privKey : value) (kp : KeyPair)
         (seed : list byte),
    BigIntWasm.createKeyPair NewKeyFromSeed coerce rand privKey
    = Some (Returns kp) ->
    length seed = 32%nat ->
    exists k u,
      pubKey kp = Buffer (x05 :: k)
      /\ GoBigInt.ed25519ToX25519PublicKey k = Ok u
      /\ length u = 32%nat
      /\ BigIntWasm.calculateAgreement Sum512 X25519 coerce
           (pubKey kp) (Buffer seed)
         = match X25519 (GoBigIntOps.scalar Sum512 seed) u with
           | Ok shared => Returns (Buffer shared)
           | Err msg =>
               if truthy (Str msg) then Throws msg else ThrowsTypeError
           | Panic => GoPanics
           end.
Proof.
  intros NewKeyFromSeed Sum512 X25519 coerce rand privKey kp seed Hkp Hseed.
  unfold BigIntWasm.createKeyPair in Hkp.
  destruct (validatePrivKey privKey) as [u0 | e] eqn:Hv; [ | discriminate Hkp ].
  destruct (validatePrivKey_inv privKey u0 Hv) as (seed0 & -> & Hseed0).
  cbn [BigIntWasm.new_Uint8Array] in Hkp. unfold jsCreateKeyPair in Hkp.
  cbn [length Nat.eqb negb nth] in Hkp.
  rewrite bytesFromJS_typed_array in Hkp.
  unfold GoBigInt.createKeyPair, GoBigInt.validatePrivKey, GoBigInt.SeedSize
    in Hkp.
  rewrite Hseed0 in Hkp. cbn [Nat.eqb negb] in Hkp.
  rewrite (copy_make_32 seed0 Hseed0) in Hkp.
  pose proof (createKeyPair_loop_outcome NewKeyFromSeed rand seed0 Hseed0) as H.
  destruct (GoBigInt.createKeyPair_loop NewKeyFromSeed rand seed0 seed0)
    as [[gkp | msg |] |]; try discriminate Hkp.
  - destruct H as (_ & Hpub & (u & Hu) & _).
    cbn [BigIntWasm.error_of truthy BigIntWasm.keys_of] in Hkp.
    injection Hkp as <-. cbn [pubKey]. rewrite Hpub.
    set (k := GoBigInt.Public (NewKeyFromSeed (GoBigInt.privKey gkp))) in *.
    assert (Hk : length k = 32%nat) by apply Public_length.
    exists k, u. split; [ reflexivity | ]. split; [ exact Hu | ].
    destruct (ConverterProperties.converter_relation k u Hu) as (Hlen & _).
    split; [ exact Hlen | ].
    unfold BigIntWasm.calculateAgreement.
    rewrite scrubPubKeyFormat_tagged by exact Hk.
    rewrite validatePrivKey_buffer by exact Hseed.
    rewrite bad_scrubbed_32 by exact Hk.
    cbn [BigIntWasm.new_Uint8Array]. unfold jsCalculateAgreement.
    cbn [length Nat.eqb negb nth]. rewrite !bytesFromJS_typed_array.
    unfold GoBigIntOps.calculateAgreement, GoBigInt.validatePrivKey.
    rewrite go_scrubPubKeyFormat_tagged by exact Hk.
    rewrite Hseed. cbn [Nat.eqb negb]. rewrite Hu.
    destruct (X25519 (GoBigIntOps.scalar Sum512 seed) u) as [s | msg |];
      reflexivity.
  - cbn [BigIntWasm.error_of BigIntWasm.error_text BigIntWasm.keys_of] in Hkp.
    destruct (truthy (Str msg)); discriminate Hkp.
Qed.

Lemma X24_bigint_wasm_agreement_on_created_keys_witness :
  exists u,
    GoBigInt.ed25519ToX25519PublicKey ConverterProperties.basepoint = Ok u
    /\ BigIntWasm.calculateAgreement (fun _ => repeat x00 64)
         (fun _ u => Ok u) (fun _ => Return [])
         (Buffer (x05 :: ConverterProperties.basepoint))
         (Buffer (repeat x00 32))
       = Returns (Buffer u).
Proof.
  destruct (ConverterFacts.converter_accepts ConverterProperties.basepoint
              eq_refl) as (i & u & _ & Hu & _);
    [ vm_compute; reflexivity | vm_compute; discriminate | ].
  assert (Hgo : GoBigInt.createKeyPair
                  BigIntProperties.basepoint_NewKeyFromSeed []
                  (repeat x00 32)
                = Some (Ok {| GoBigInt.pubKey :=
                                x05 :: ConverterProperties.basepoint;
                              GoBigInt.privKey := repeat x00 32 |})).
  { rewrite (KeyPairFacts.createKeyPair_accepted
               BigIntProperties.basepoint_NewKeyFromSeed
               [] (repeat x00 32) u eq_refl Hu).
    reflexivity. }
  assert (Hkp : BigIntWasm.createKeyPair
                  BigIntProperties.basepoint_NewKeyFromSeed
                  (fun _ => Return []) [] (Buffer (repeat x00 32))
                = Some (Returns
                          {| pubKey :=
                               Buffer (x05 :: ConverterProperties.basepoint);
                             privKey := Buffer (repeat x00 32) |})).
  { unfold BigIntWasm.createKeyPair.
    rewrite validatePrivKey_buffer by reflexivity.
    cbn [BigIntWasm.new_Uint8Array]. unfold jsCreateKeyPair.
    cbn [length Nat.eqb negb nth]. rewrite bytesFromJS_typed_array.
    rewrite Hgo. reflexivity. }
  destruct (X24_bigint_wasm_agreement_on_created_keys
              BigIntProperties.basepoint_NewKeyFromSeed
              (fun _ => repeat x00 64) (fun _ u => Ok u)
              (fun _ => Return []) [] (Buffer (repeat x00 32)) _
              (repeat x00 32) Hkp eq_refl)
    as (k & u' & Hpub & Hu' & _ & Hc).
  cbn [pubKey] in Hpub, Hc. injection Hpub as <-.
  rewrite Hu in Hu'. injection Hu' as <-.
  exists u. split; [ exact Hu | exact Hc ].
Defined.

End WasmAgreementProperties.
